(** * hnn_core.pyramidal: construction and wiring of the pyramidal cells

    A shallow embedding of [src/hnn_core/pyramidal.py] (classes [Pyr],
    [L2Pyr], [L5Pyr]) and the properties of it that the design document
    states.

    Conventions of the embedding.
    - Python floats are exact rationals ([Q]); the two places where the
      source leaves the rationals ([np.exp], [np.sqrt]) are real numbers
      ([R]), reached through [Q2R].  Rounding is not modelled.
    - A Python [dict] with string keys is a [gmap string _]; a [dict]
      literal that the source iterates over is an association list in the
      order it is written.
    - A statement that can raise returns [res]; the exceptions are the ones
      the interpreter raises ([KeyError], [IndexError], [TypeError],
      [UnboundLocalError]).
    - The sections of a cell live in one store (the soma and the [dends]
      dictionary); [list_dend] holds references (keys) into that store, as
      the Python list holds references to the same [h.Section] objects. *)

From Stdlib Require Import ZArith QArith Qround Qabs Reals Qreals Lra Lia.
From Stdlib Require Import String.
From stdpp Require Import gmap strings list fin_maps.

Open Scope Z_scope.

(** ** Python values, exceptions and subscripting *)

Module Py.

Inductive exn : Type :=
| KeyError (key : string)
| IndexError
| TypeError
| UnboundLocalError (var : string).

(** The name of the exception's class, as [type(e).__name__] gives it. *)
Definition exn_class (e : exn) : string :=
  match e with
  | KeyError _ => "KeyError"
  | IndexError => "IndexError"
  | TypeError => "TypeError"
  | UnboundLocalError _ => "UnboundLocalError"
  end.

Inductive res (A : Type) : Type :=
| Ok (a : A)
| Raise (e : exn).
Arguments Ok {A} a.
Arguments Raise {A} e.

Definition bind {A B} (m : res A) (k : A -> res B) : res B :=
  match m with
  | Ok a => k a
  | Raise e => Raise e
  end.

#[global] Instance res_ret : MRet res := fun A a => Ok a.
#[global] Instance res_bind : MBind res := fun A B k m => bind m k.

Definition is_ok {A} (m : res A) : bool :=
  match m with Ok _ => true | Raise _ => false end.

(** A dynamically typed value of a parameter dictionary: a number, a
    string, or a tuple/list of values. *)
#[warnings="-register-all"]
Inductive pval : Type :=
| PNum (q : Q)
| PStr (s : string)
| PSeq (l : list pval).

(** [d[k]] on a dictionary. *)
Definition dict_get {V} (d : gmap string V) (k : string) : res V :=
  match d !! k with
  | Some v => Ok v
  | None => Raise (KeyError k)
  end.

(** [k in d.keys()]. *)
Definition dict_has {V} (d : gmap string V) (k : string) : bool :=
  match d !! k with Some _ => true | None => false end.

(** [l[i]] on a list or tuple: a negative index counts from the end. *)
Definition seq_get {A} (l : list A) (i : Z) : res A :=
  let n := Z.of_nat (length l) in
  let j := if i <? 0 then i + n else i in
  if j <? 0 then Raise IndexError
  else match l !! Z.to_nat j with
       | Some x => Ok x
       | None => Raise IndexError
       end.

(** [v[i]] on a value. *)
Definition subscript (v : pval) (i : Z) : res pval :=
  match v with
  | PSeq l => seq_get l i
  | PStr s =>
      c ← seq_get (list_ascii_of_string s) i;
      Ok (PStr (String c EmptyString))
  | PNum _ => Raise TypeError
  end.

Definition Qgtb (x y : Q) : bool := negb (Qle_bool x y).

(** [v > 0.0]: ordering a string or a tuple against a float is a
    [TypeError]. *)
Definition gt_zero (v : pval) : res bool :=
  match v with
  | PNum q => Ok (Qgtb q 0)
  | _ => Raise TypeError
  end.

(** [int(q)]: truncation toward zero. *)
Definition int (q : Q) : Z := Z.quot (Qnum q) (Zpos (Qden q)).

(** [needle in hay] on strings. *)
Definition str_in (needle hay : string) : bool :=
  match String.index 0 needle hay with Some _ => true | None => false end.

(** [s.startswith((p1, p2))]. *)
Definition startswith2 (s p1 p2 : string) : bool :=
  String.prefix p1 s || String.prefix p2 s.

End Py.
Export Py.

(** ** NEURON sections *)

(** Where a section is attached: [child.connect(parent, parent_end,
    child_start)]. *)
Inductive secref : Type :=
| Soma
| Dend (key : string).

Record Attach : Type := {
  att_parent : secref;
  att_parent_end : Q;
  att_child_start : Q
}.

(** An [h.Section]: its name, geometry, discretisation, the parent it is
    connected to, the mechanisms inserted, their section-uniform
    parameters, and the per-segment values of [gbar_ar]. *)
Record Sec : Type := {
  sec_name : string;
  sec_L : Q;
  sec_diam : Q;
  sec_Ra : Q;
  sec_cm : Q;
  sec_nseg : Z;
  sec_parent : option Attach;
  sec_mechs : list string;
  sec_range : gmap string Q;
  sec_gbar_ar : list R
}.

(** [h.Section(name=...)]: NEURON's defaults; a new section has one
    segment and no parent. *)
Definition h_Section (nm : string) : Sec :=
  {| sec_name := nm; sec_L := 100; sec_diam := 500; sec_Ra := 35.4;
     sec_cm := 1; sec_nseg := 1; sec_parent := None;
     sec_mechs := []; sec_range := ∅; sec_gbar_ar := [] |}.

Definition set_L (v : Q) (s : Sec) : Sec :=
  {| sec_name := sec_name s; sec_L := v; sec_diam := sec_diam s;
     sec_Ra := sec_Ra s; sec_cm := sec_cm s; sec_nseg := sec_nseg s;
     sec_parent := sec_parent s; sec_mechs := sec_mechs s;
     sec_range := sec_range s; sec_gbar_ar := sec_gbar_ar s |}.

Definition set_diam (v : Q) (s : Sec) : Sec :=
  {| sec_name := sec_name s; sec_L := sec_L s; sec_diam := v;
     sec_Ra := sec_Ra s; sec_cm := sec_cm s; sec_nseg := sec_nseg s;
     sec_parent := sec_parent s; sec_mechs := sec_mechs s;
     sec_range := sec_range s; sec_gbar_ar := sec_gbar_ar s |}.

Definition set_Ra (v : Q) (s : Sec) : Sec :=
  {| sec_name := sec_name s; sec_L := sec_L s; sec_diam := sec_diam s;
     sec_Ra := v; sec_cm := sec_cm s; sec_nseg := sec_nseg s;
     sec_parent := sec_parent s; sec_mechs := sec_mechs s;
     sec_range := sec_range s; sec_gbar_ar := sec_gbar_ar s |}.

Definition set_cm (v : Q) (s : Sec) : Sec :=
  {| sec_name := sec_name s; sec_L := sec_L s; sec_diam := sec_diam s;
     sec_Ra := sec_Ra s; sec_cm := v; sec_nseg := sec_nseg s;
     sec_parent := sec_parent s; sec_mechs := sec_mechs s;
     sec_range := sec_range s; sec_gbar_ar := sec_gbar_ar s |}.

Definition set_nseg (v : Z) (s : Sec) : Sec :=
  {| sec_name := sec_name s; sec_L := sec_L s; sec_diam := sec_diam s;
     sec_Ra := sec_Ra s; sec_cm := sec_cm s; sec_nseg := v;
     sec_parent := sec_parent s; sec_mechs := sec_mechs s;
     sec_range := sec_range s; sec_gbar_ar := sec_gbar_ar s |}.

(** [child.connect(parent, parent_end, child_start)]. *)
Definition connect (p : secref) (parent_end child_start : Q) (s : Sec) : Sec :=
  {| sec_name := sec_name s; sec_L := sec_L s; sec_diam := sec_diam s;
     sec_Ra := sec_Ra s; sec_cm := sec_cm s; sec_nseg := sec_nseg s;
     sec_parent := Some {| att_parent := p; att_parent_end := parent_end;
                           att_child_start := child_start |};
     sec_mechs := sec_mechs s;
     sec_range := sec_range s; sec_gbar_ar := sec_gbar_ar s |}.

(** [sec.insert(mech)]. *)
Definition insert_mech (mech : string) (s : Sec) : Sec :=
  {| sec_name := sec_name s; sec_L := sec_L s; sec_diam := sec_diam s;
     sec_Ra := sec_Ra s; sec_cm := sec_cm s; sec_nseg := sec_nseg s;
     sec_parent := sec_parent s; sec_mechs := sec_mechs s ++ [mech];
     sec_range := sec_range s; sec_gbar_ar := sec_gbar_ar s |}.

(** [sec.var = v] for a range variable: the value of every segment. *)
Definition set_range (var : string) (v : Q) (s : Sec) : Sec :=
  {| sec_name := sec_name s; sec_L := sec_L s; sec_diam := sec_diam s;
     sec_Ra := sec_Ra s; sec_cm := sec_cm s; sec_nseg := sec_nseg s;
     sec_parent := sec_parent s; sec_mechs := sec_mechs s;
     sec_range := <[var := v]> (sec_range s); sec_gbar_ar := sec_gbar_ar s |}.

Definition set_gbar_ar (v : list R) (s : Sec) : Sec :=
  {| sec_name := sec_name s; sec_L := sec_L s; sec_diam := sec_diam s;
     sec_Ra := sec_Ra s; sec_cm := sec_cm s; sec_nseg := sec_nseg s;
     sec_parent := sec_parent s; sec_mechs := sec_mechs s;
     sec_range := sec_range s; sec_gbar_ar := v |}.

(** [for seg in sec]: the segments of a section with [n] segments sit at
    the fractional positions [(2i+1)/(2n)], [i = 0 .. n-1]. *)
Definition seg_x (n : Z) (i : nat) : Q := (2 * Z.of_nat i + 1) # Z.to_pos (2 * n).

Definition seg_positions (s : Sec) : list Q :=
  map (seg_x (sec_nseg s)) (seq 0 (Z.to_nat (sec_nseg s))).

(** ** The cell *)

(** The resolved properties of one dendrite: the inner dictionaries of
    [_get_dend_props]. *)
Record DendProps : Type := {
  dp_L : Q;
  dp_diam : Q;
  dp_cm : Q;
  dp_Ra : Q
}.

(** The kinetic parameters of one receptor: the inner dictionaries of
    [_get_syn_props]. *)
Record SynProps : Type := {
  sp_e : Q;
  sp_tau1 : Q;
  sp_tau2 : Q
}.

(** A synapse: the segment [sec(x)] it sits on and its parameters. *)
Record Synapse : Type := {
  syn_sec : secref;
  syn_x : Q;
  syn_e : Q;
  syn_tau1 : Q;
  syn_tau2 : Q
}.

(** The dictionary [nc_dict] handed to the connecting call. *)
Record NcDict : Type := {
  pos_src : pval;
  A_weight : pval;
  A_delay : pval;
  lamtha : pval;
  threshold : pval;
  type_src : string
}.

Definition set_A_weight (w : pval) (d : NcDict) : NcDict :=
  {| pos_src := pos_src d; A_weight := w; A_delay := A_delay d;
     lamtha := lamtha d; threshold := threshold d; type_src := type_src d |}.

(** One connection of an external source to a receptor at a location: the
    arguments of one call of [_connect_feed_at_loc]. *)
Record FeedConn : Type := {
  fc_feed_loc : pval;
  fc_receptor : string;
  fc_gid_src : Z;
  fc_nc_dict : NcDict
}.

(** The three connection lists a feed can be registered in. *)
Inductive nc_list : Type :=
| ncfrom_common_l
| ncfrom_extgauss_l
| ncfrom_extpois_l.

Record Cell : Type := {
  gid : Z;
  pos : pval;
  name : string;
  celltype : string;
  soma : Sec;
  dends : gmap string Sec;
  list_dend : list string;
  synapses : gmap string Synapse;
  sect_loc : gmap string (list string);
  yscale : gmap string R;
  ncfrom_common : list FeedConn;
  ncfrom_extgauss : list FeedConn;
  ncfrom_extpois : list FeedConn
}.

Definition with_celltype (v : string) (c : Cell) : Cell :=
  {| gid := gid c; pos := pos c; name := name c; celltype := v;
     soma := soma c; dends := dends c; list_dend := list_dend c;
     synapses := synapses c; sect_loc := sect_loc c; yscale := yscale c;
     ncfrom_common := ncfrom_common c;
     ncfrom_extgauss := ncfrom_extgauss c;
     ncfrom_extpois := ncfrom_extpois c |}.

Definition with_soma (v : Sec) (c : Cell) : Cell :=
  {| gid := gid c; pos := pos c; name := name c; celltype := celltype c;
     soma := v; dends := dends c; list_dend := list_dend c;
     synapses := synapses c; sect_loc := sect_loc c; yscale := yscale c;
     ncfrom_common := ncfrom_common c;
     ncfrom_extgauss := ncfrom_extgauss c;
     ncfrom_extpois := ncfrom_extpois c |}.

Definition with_dends (v : gmap string Sec) (c : Cell) : Cell :=
  {| gid := gid c; pos := pos c; name := name c; celltype := celltype c;
     soma := soma c; dends := v; list_dend := list_dend c;
     synapses := synapses c; sect_loc := sect_loc c; yscale := yscale c;
     ncfrom_common := ncfrom_common c;
     ncfrom_extgauss := ncfrom_extgauss c;
     ncfrom_extpois := ncfrom_extpois c |}.

Definition with_list_dend (v : list string) (c : Cell) : Cell :=
  {| gid := gid c; pos := pos c; name := name c; celltype := celltype c;
     soma := soma c; dends := dends c; list_dend := v;
     synapses := synapses c; sect_loc := sect_loc c; yscale := yscale c;
     ncfrom_common := ncfrom_common c;
     ncfrom_extgauss := ncfrom_extgauss c;
     ncfrom_extpois := ncfrom_extpois c |}.

Definition with_synapses (v : gmap string Synapse) (c : Cell) : Cell :=
  {| gid := gid c; pos := pos c; name := name c; celltype := celltype c;
     soma := soma c; dends := dends c; list_dend := list_dend c;
     synapses := v; sect_loc := sect_loc c; yscale := yscale c;
     ncfrom_common := ncfrom_common c;
     ncfrom_extgauss := ncfrom_extgauss c;
     ncfrom_extpois := ncfrom_extpois c |}.

Definition with_sect_loc (v : gmap string (list string)) (c : Cell) : Cell :=
  {| gid := gid c; pos := pos c; name := name c; celltype := celltype c;
     soma := soma c; dends := dends c; list_dend := list_dend c;
     synapses := synapses c; sect_loc := v; yscale := yscale c;
     ncfrom_common := ncfrom_common c;
     ncfrom_extgauss := ncfrom_extgauss c;
     ncfrom_extpois := ncfrom_extpois c |}.

Definition with_yscale (v : gmap string R) (c : Cell) : Cell :=
  {| gid := gid c; pos := pos c; name := name c; celltype := celltype c;
     soma := soma c; dends := dends c; list_dend := list_dend c;
     synapses := synapses c; sect_loc := sect_loc c; yscale := v;
     ncfrom_common := ncfrom_common c;
     ncfrom_extgauss := ncfrom_extgauss c;
     ncfrom_extpois := ncfrom_extpois c |}.

Definition nc_list_append (l : nc_list) (x : FeedConn) (c : Cell) : Cell :=
  {| gid := gid c; pos := pos c; name := name c; celltype := celltype c;
     soma := soma c; dends := dends c; list_dend := list_dend c;
     synapses := synapses c; sect_loc := sect_loc c; yscale := yscale c;
     ncfrom_common :=
       match l with ncfrom_common_l => ncfrom_common c ++ [x]
                  | _ => ncfrom_common c end;
     ncfrom_extgauss :=
       match l with ncfrom_extgauss_l => ncfrom_extgauss c ++ [x]
                  | _ => ncfrom_extgauss c end;
     ncfrom_extpois :=
       match l with ncfrom_extpois_l => ncfrom_extpois c ++ [x]
                  | _ => ncfrom_extpois c end |}.

(** All connections registered on the cell, whatever the list. *)
Definition all_conns (c : Cell) : list FeedConn :=
  ncfrom_common c ++ ncfrom_extgauss c ++ ncfrom_extpois c.

(** ** What [cell.py] provides

    The base class [_Cell] lives in [cell.py], which this development
    does not embed; the operations of it that [pyramidal.py] calls, and
    the simulator's [h.distance], are given here from the design
    document. *)
Module CellBase.

(** Modelled from the spec: [_Cell.__init__] and [create_soma] of
    [cell.py].  The cell gets its id and position, a single root
    compartment (the soma, named [<name>_soma], with the four resolved
    geometric and electrical properties) and empty connection lists. *)
Definition create_soma (nm : string) (sL sdiam scm sRa : Q) : Sec :=
  set_Ra sRa (set_cm scm (set_diam sdiam (set_L sL
    (h_Section (nm +:+ "_soma"))))).

(** Modelled from the spec: [_Cell.syn_create] of [cell.py].  A synapse
    is a receptor at a segment holding a reversal potential and the
    rise and decay time constants. *)
Definition syn_create (sec : secref) (x : Q) (p : SynProps) : Synapse :=
  {| syn_sec := sec; syn_x := x; syn_e := sp_e p;
     syn_tau1 := sp_tau1 p; syn_tau2 := sp_tau2 p |}.

(** Modelled from the spec: [_Cell._connect_feed_at_loc] of [cell.py].
    One call connects the source [gid_src] to the receptor [receptor] at
    the location [feed_loc] with the values [nc_dict] holds at the time
    of the call, and registers the connection at the end of
    [nc_list]. *)
Definition _connect_feed_at_loc (feed_loc : pval) (receptor : string)
    (gid_src : Z) (nc_dict : NcDict) (l : nc_list) (c : Cell) : Cell :=
  nc_list_append l
    {| fc_feed_loc := feed_loc; fc_receptor := receptor;
       fc_gid_src := gid_src; fc_nc_dict := nc_dict |} c.

(** Modelled from the spec: [h.distance] of the simulator, after
    [h.distance(sec=self.soma)] has put the origin at the soma's
    proximal end: the cumulative path length along the tree from there
    to the point [x] of a section.  A child's [child_start] point sits
    on its parent's [parent_end] point. *)
Fixpoint path_length (fuel : nat) (c : Cell) (r : secref) (x : Q) : Q :=
  match r with
  | Soma => (Qabs x * sec_L (soma c))%Q
  | Dend k =>
      match fuel, dends c !! k with
      | S fuel', Some s =>
          match sec_parent s with
          | Some a =>
              (Qabs (x - att_child_start a) * sec_L s
               + path_length fuel' c (att_parent a) (att_parent_end a))%Q
          | None => 0
          end
      | _, _ => 0
      end
  end.

Definition h_distance (c : Cell) (r : secref) (x : Q) : Q :=
  path_length (size (dends c)) c r x.

(** A point [(x, y, z, diam)] as [h.pt3dadd] takes it. *)
Definition pt3 (x y z d : Q) : Q * Q * Q * Q := (x, y, z, d).

(** Modelled from the spec: [h.pt3dclear(sec=s)] followed by the calls of
    [h.pt3dadd(..., sec=s)] of the simulator.  The 3-D points of a section
    determine its length and its diameter: the section takes both from
    the new points and keeps everything else.  Which values the
    simulator derives from the points is left open: [shape3d] stands for
    any function of the points to a length and a diameter. *)
Definition pt3d (shape3d : list (Q * Q * Q * Q) -> Q * Q)
    (pts : list (Q * Q * Q * Q)) (s : Sec) : Sec :=
  set_diam (snd (shape3d pts)) (set_L (fst (shape3d pts)) s).

End CellBase.
Export CellBase.

(** ** class [Pyr] *)

(** The dictionary [soma_props]. *)
Record SomaProps : Type := {
  so_pos : pval;
  so_L : Q;
  so_diam : Q;
  so_cm : Q;
  so_Ra : Q;
  so_name : string
}.

Module Pyr.

Definition __init__ (g : Z) (soma_props : SomaProps) : Cell :=
  {| gid := g; pos := so_pos soma_props;
     name := so_name soma_props;
     celltype := "Pyramidal";
     soma := create_soma (so_name soma_props) (so_L soma_props)
               (so_diam soma_props) (so_cm soma_props) (so_Ra soma_props);
     dends := ∅; list_dend := [];
     synapses := ∅; sect_loc := ∅; yscale := ∅;
     ncfrom_common := []; ncfrom_extgauss := []; ncfrom_extpois := [] |}.

(** [seclist.wholetree(sec=self.soma)]: the soma and every section
    whose chain of parents ends in the soma. *)
Fixpoint under_soma (fuel : nat) (ds : gmap string Sec) (r : secref) : bool :=
  match r with
  | Soma => true
  | Dend k =>
      match fuel, ds !! k with
      | S fuel', Some s =>
          match sec_parent s with
          | Some a => under_soma fuel' ds (att_parent a)
          | None => false
          end
      | _, _ => false
      end
  end.

Definition wholetree (c : Cell) : list Sec :=
  soma c ::
  map snd (List.filter (fun kv => under_soma (size (dends c)) (dends c) (Dend (fst kv)))
                       (map_to_list (dends c))).

(** The body of the loop of [get_sectnames] for one key. *)
Definition yscale_entry (key : string) (v : R) : R :=
  let v :=
    if str_in "basal_2" key then (sqrt 2 / 2)%R
    else if str_in "basal_3" key then (sqrt 2 / 2)%R
    else if str_in "apical_oblique" key then 0%R
    else v in
  if str_in "basal" key then (- v)%R else v.

Definition get_sectnames (c : Cell) : gmap string R :=
  let d : gmap string R :=
    list_to_map (map (fun s => (sec_name s, 1%R)) (wholetree c)) in
  map_imap (fun key v => Some (yscale_entry key v)) d.

Definition list_dend_order : list string :=
  ["apical_trunk"; "apical_oblique"; "apical_1"; "apical_2";
   "apical_tuft"; "basal_1"; "basal_2"; "basal_3"].

Definition create_dends (p_dend_props : list (string * DendProps))
    (c : Cell) : Cell :=
  let ds :=
    foldl (fun d kv => <[fst kv := h_Section (name c +:+ "_" +:+ fst kv)]> d)
          (dends c) p_dend_props in
  let c := with_dends ds c in
  let c := with_list_dend (List.filter (dict_has ds) list_dend_order) c in
  let c := with_sect_loc
             (<["proximal" := ["apicaloblique"; "basal2"; "basal3"]]>
                (sect_loc c)) c in
  with_sect_loc (<["distal" := ["apicaltuft"]]> (sect_loc c)) c.

(** The body of the loop of [set_dend_props] for one key. *)
Definition set_dend_props_key (key : string) (p : DendProps)
    (ds : gmap string Sec) : res (gmap string Sec) :=
  s ← dict_get ds key;
  let s := set_L (dp_L p) s in
  let s := set_diam (dp_diam p) s in
  let s := set_Ra (dp_Ra p) s in
  let s := set_cm (dp_cm p) s in
  let s :=
    if Qgtb (dp_L p) 100 then
      let s := set_nseg (int (dp_L p / 50)) s in
      if sec_nseg s mod 2 =? 0 then set_nseg (sec_nseg s + 1) s else s
    else s in
  Ok (<[key := s]> ds).

Fixpoint set_dend_props_loop (p_dend_props : list (string * DendProps))
    (ds : gmap string Sec) : res (gmap string Sec) :=
  match p_dend_props with
  | [] => Ok ds
  | (key, p) :: rest =>
      ds ← set_dend_props_key key p ds;
      set_dend_props_loop rest ds
  end.

Definition set_dend_props (p_dend_props : list (string * DendProps))
    (c : Cell) : res Cell :=
  ds ← set_dend_props_loop p_dend_props (dends c);
  Ok (with_dends ds c).

(** [get_sections]: the soma and the dendrites that exist, as references
    to the section objects. *)
Definition get_sections (c : Cell) : list secref :=
  Soma ::
  map Dend
    (List.filter (dict_has (dends c))
       ["apical_trunk"; "apical_1"; "apical_2"; "apical_tuft";
        "apical_oblique"; "basal_1"; "basal_2"; "basal_3"]).

Definition get_section_names (c : Cell) : list string :=
  "soma" ::
  List.filter (dict_has (dends c))
    ["apical_trunk"; "apical_1"; "apical_2"; "apical_tuft";
     "apical_oblique"; "basal_1"; "basal_2"; "basal_3"].

Section WithParams.

(** Modelled from the spec: the resolved parameter mapping [self.p_all]
    that [compare_dictionaries] of [params.py] returns from the
    defaults of [params_default.py].  It holds every default key, so
    it is read as a total function of the key. *)
Variable p_all : string -> Q.

Definition dend_props_of (nm part : string) : DendProps :=
  {| dp_L := p_all (nm +:+ "_" +:+ part +:+ "_L");
     dp_diam := p_all (nm +:+ "_" +:+ part +:+ "_diam");
     dp_cm := p_all (nm +:+ "_dend_cm");
     dp_Ra := p_all (nm +:+ "_dend_Ra") |}.

Definition _get_dend_props (c : Cell) : list (string * DendProps) :=
  let props :=
    [("apical_trunk", dend_props_of (name c) "apicaltrunk");
     ("apical_1", dend_props_of (name c) "apical1");
     ("apical_tuft", dend_props_of (name c) "apicaltuft");
     ("apical_oblique", dend_props_of (name c) "apicaloblique");
     ("basal_1", dend_props_of (name c) "basal1");
     ("basal_2", dend_props_of (name c) "basal2");
     ("basal_3", dend_props_of (name c) "basal3")] in
  if String.eqb (name c) "L5Pyr" then
    props ++ [("apical_2", dend_props_of "L5Pyr" "apical2")]
  else props.

Definition syn_props_of (nm receptor : string) : SynProps :=
  {| sp_e := p_all (nm +:+ "_" +:+ receptor +:+ "_e");
     sp_tau1 := p_all (nm +:+ "_" +:+ receptor +:+ "_tau1");
     sp_tau2 := p_all (nm +:+ "_" +:+ receptor +:+ "_tau2") |}.

Definition _get_syn_props (c : Cell) : gmap string SynProps :=
  <["gabab" := syn_props_of (name c) "gabab"]>
  (<["gabaa" := syn_props_of (name c) "gabaa"]>
  (<["nmda" := syn_props_of (name c) "nmda"]>
  (<["ampa" := syn_props_of (name c) "ampa"]> ∅))).

End WithParams.

(** [self.synapses[key] = self.syn_create(self.soma(0.5), **p_syn[r])]. *)
Definition syn_at_soma (key r : string) (p_syn : gmap string SynProps)
    (c : Cell) : res Cell :=
  p ← dict_get p_syn r;
  Ok (with_synapses (<[key := syn_create Soma 0.5 p]> (synapses c)) c).

(** [self.synapses[key] =
     self.syn_create(self.dends[dend](0.5), **p_syn[r])]. *)
Definition syn_at_dend (key dend r : string) (p_syn : gmap string SynProps)
    (c : Cell) : res Cell :=
  _ ← dict_get (dends c) dend;
  p ← dict_get p_syn r;
  Ok (with_synapses (<[key := syn_create (Dend dend) 0.5 p]> (synapses c)) c).

Definition _synapse_create (p_syn : gmap string SynProps) (c : Cell)
    : res Cell :=
  c ← syn_at_soma "soma_gabaa" "gabaa" p_syn c;
  c ← syn_at_soma "soma_gabab" "gabab" p_syn c;
  c ← syn_at_dend "apicaloblique_ampa" "apical_oblique" "ampa" p_syn c;
  c ← syn_at_dend "apicaloblique_nmda" "apical_oblique" "nmda" p_syn c;
  c ← syn_at_dend "basal2_ampa" "basal_2" "ampa" p_syn c;
  c ← syn_at_dend "basal2_nmda" "basal_2" "nmda" p_syn c;
  c ← syn_at_dend "basal3_ampa" "basal_3" "ampa" p_syn c;
  c ← syn_at_dend "basal3_nmda" "basal_3" "nmda" p_syn c;
  c ← syn_at_dend "apicaltuft_ampa" "apical_tuft" "ampa" p_syn c;
  c ← syn_at_dend "apicaltuft_nmda" "apical_tuft" "nmda" p_syn c;
  if String.eqb (name c) "L5Pyr" then
    syn_at_dend "apicaltuft_gabaa" "apical_tuft" "gabaa" p_syn c
  else Ok c.

(** The dictionary literal [nc_dict] of [parreceive_ext], its entries
    evaluated in the order they are written: the source position
    [pos_dict[pos_key][gid]], the weight [p_ext[celltype][widx]], the delay
    [p_ext[celltype][2]], [p_ext[lamtha_key]] and [p_ext['threshold']]. *)
Definition ext_nc_dict (type pos_key lamtha_key : string) (widx g : Z)
    (pos_dict : gmap string (list pval)) (p_ext : gmap string pval)
    (c : Cell) : res NcDict :=
  ps ← dict_get pos_dict pos_key;
  src ← seq_get ps g;
  pc ← dict_get p_ext (celltype c);
  w ← subscript pc widx;
  pc ← dict_get p_ext (celltype c);
  dly ← subscript pc 2;
  lam ← dict_get p_ext lamtha_key;
  thr ← dict_get p_ext "threshold";
  Ok {| pos_src := src; A_weight := w; A_delay := dly; lamtha := lam;
        threshold := thr; type_src := type |}.

Definition unknown_type_warning : string :=
  "Warning, ext type def does not exist in L2Pyr".

(** [parreceive_ext]; [out] is what has been printed so far. *)
Definition parreceive_ext (type : string) (g : Z)
    (gid_dict : gmap string (list Z)) (pos_dict : gmap string (list pval))
    (p_ext : gmap string pval) (c : Cell) (out : list string)
    : res (Cell * list string) :=
  if startswith2 type "evprox" "evdist" then
    if dict_has p_ext (celltype c) then
      r ← dict_get gid_dict type;
      g0 ← seq_get r 0;
      let gid_ev := g + g0 in
      nc_ampa ← ext_nc_dict type type "lamtha_space" 0 g pos_dict p_ext c;
      nc_nmda ← ext_nc_dict type type "lamtha_space" 1 g pos_dict p_ext c;
      loc ← dict_get p_ext "loc";
      let c := _connect_feed_at_loc loc "ampa" gid_ev nc_ampa
                 ncfrom_common_l c in
      loc ← dict_get p_ext "loc";
      let c := _connect_feed_at_loc loc "nmda" gid_ev nc_nmda
                 ncfrom_common_l c in
      Ok (c, out)
    else Ok (c, out)
  else if String.eqb type "extgauss" then
    if dict_has p_ext (celltype c) then
      r ← dict_get gid_dict "extgauss";
      g0 ← seq_get r 0;
      let gid_extgauss := g + g0 in
      nc_dict ← ext_nc_dict type "extgauss" "lamtha" 0 g pos_dict p_ext c;
      let c := _connect_feed_at_loc (PStr "proximal") "ampa" gid_extgauss
                 nc_dict ncfrom_extgauss_l c in
      Ok (c, out)
    else Ok (c, out)
  else if String.eqb type "extpois" then
    if dict_has p_ext (celltype c) then
      r ← dict_get gid_dict "extpois";
      g0 ← seq_get r 0;
      let gid_extpois := g + g0 in
      nc_dict ← ext_nc_dict type "extpois" "lamtha_space" 0 g pos_dict p_ext c;
      let c := _connect_feed_at_loc (PStr "proximal") "ampa" gid_extpois
                 nc_dict ncfrom_extpois_l c in
      pc ← dict_get p_ext (celltype c);
      w1 ← subscript pc 1;
      pos1 ← gt_zero w1;
      if (pos1 : bool) then
        pc ← dict_get p_ext (celltype c);
        w1 ← subscript pc 1;
        let nc_dict := set_A_weight w1 nc_dict in
        let c := _connect_feed_at_loc (PStr "proximal") "nmda" gid_extpois
                   nc_dict ncfrom_extpois_l c in
        Ok (c, out)
      else Ok (c, out)
    else Ok (c, out)
  else Ok (c, out ++ [unknown_type_warning]).

(** The body of the inner loop of [parreceive] for one receptor.  The
    local variable [nc_dict] is [None] while it is unbound; the call of
    [_connect_feed_at_loc] stands after the [if], not inside it, and its
    arguments are evaluated from left to right. *)
Definition parreceive_receptor (gid_src : Z) (p_src : gmap string pval)
    (src_pos : pval) (receptor : string) (st : Cell * option NcDict)
    : res (Cell * option NcDict) :=
  let c := fst st in
  let key := name c +:+ "_" +:+ receptor in
  nc ← (if dict_has p_src key then
          a ← dict_get p_src key;
          w ← subscript a 0;
          a ← dict_get p_src key;
          dly ← subscript a 1;
          lam ← dict_get p_src "lamtha";
          thr ← dict_get p_src "threshold";
          Ok (Some {| pos_src := src_pos; A_weight := w; A_delay := dly;
                      lamtha := lam; threshold := thr; type_src := "ext" |})
        else Ok (snd st));
  loc ← dict_get p_src "loc";
  d ← match nc with
      | Some d => Ok d
      | None => Raise (UnboundLocalError "nc_dict")
      end;
  Ok (_connect_feed_at_loc loc receptor gid_src d ncfrom_common_l c, nc).

(** The body of the outer loop: both receptors, in order. *)
Definition parreceive_source (src : Z * gmap string pval * pval)
    (st : Cell * option NcDict) : res (Cell * option NcDict) :=
  let '(gid_src, p_src, src_pos) := src in
  st ← parreceive_receptor gid_src p_src src_pos "ampa" st;
  parreceive_receptor gid_src p_src src_pos "nmda" st.

Fixpoint parreceive_loop (srcs : list (Z * gmap string pval * pval))
    (st : Cell * option NcDict) : res (Cell * option NcDict) :=
  match srcs with
  | [] => Ok st
  | src :: rest =>
      st ← parreceive_source src st;
      parreceive_loop rest st
  end.

(** [zip(a, b, c)]: as long as the shortest of the three. *)
Fixpoint zip3 {A B C} (a : list A) (b : list B) (c : list C)
    : list (A * B * C) :=
  match a, b, c with
  | x :: a, y :: b, z :: c => (x, y, z) :: zip3 a b c
  | _, _, _ => []
  end.

Definition parreceive (g : Z) (gid_dict : gmap string (list Z))
    (pos_dict : gmap string (list pval)) (p_ext : list (gmap string pval))
    (c : Cell) : res Cell :=
  gids ← dict_get gid_dict "common";
  poss ← dict_get pos_dict "common";
  st ← parreceive_loop (zip3 gids p_ext poss) (c, None);
  Ok (fst st).

(** [self.dends[child].connect(parent, parent_end, child_start)]: the
    child is looked up first, then the parent. *)
Definition connect_dend (child : string) (parent : secref)
    (parent_end child_start : Q) (c : Cell) : res Cell :=
  s ← dict_get (dends c) child;
  _ ← match parent with
      | Soma => Ok (soma c)
      | Dend k => dict_get (dends c) k
      end;
  Ok (with_dends (<[child := connect parent parent_end child_start s]> (dends c)) c).

(** [dend[i].L = v] and the like, with [dend = self.list_dend]: the list
    entry refers to the section object held in [self.dends]. *)
Definition set_list_dend (i : Z) (f : Sec -> Sec) (c : Cell) : res Cell :=
  key ← seq_get (list_dend c) i;
  Ok (with_dends (alter f key (dends c)) c).

End Pyr.

(** ** class [L2Pyr] *)

Module L2Pyr.
Section WithParams.

Variable p_all : string -> Q.

Definition _get_soma_props (ps : pval) : SomaProps :=
  {| so_pos := ps;
     so_L := p_all "L2Pyr_soma_L";
     so_diam := p_all "L2Pyr_soma_diam";
     so_cm := p_all "L2Pyr_soma_cm";
     so_Ra := p_all "L2Pyr_soma_Ra";
     so_name := "L2Pyr" |}.

(** The length and the diameter the simulator gives a section for its
    3-D points, see [pt3d]. *)
Variable shape3d : list (Q * Q * Q * Q) -> Q * Q.

(** [basic_shape] gives the soma and the first seven entries of
    [self.list_dend] their 3-D points. *)
Definition basic_shape (c : Cell) : res Cell :=
  let c := with_soma
             (pt3d shape3d [pt3 (-50) 765 0 1; pt3 (-50) 778 0 1] (soma c)) c in
  c ← Pyr.set_list_dend 0
        (pt3d shape3d [pt3 (-50) 778 0 1; pt3 (-50) 813 0 1]) c;
  c ← Pyr.set_list_dend 1
        (pt3d shape3d [pt3 (-50) 813 0 1; pt3 (-250) 813 0 1]) c;
  c ← Pyr.set_list_dend 2
        (pt3d shape3d [pt3 (-50) 813 0 1; pt3 (-50) 993 0 1]) c;
  c ← Pyr.set_list_dend 3
        (pt3d shape3d [pt3 (-50) 993 0 1; pt3 (-50) 1133 0 1]) c;
  c ← Pyr.set_list_dend 4
        (pt3d shape3d [pt3 (-50) 765 0 1; pt3 (-50) 715 0 1]) c;
  c ← Pyr.set_list_dend 5
        (pt3d shape3d [pt3 (-50) 715 0 1; pt3 (-156) 609 0 1]) c;
  Pyr.set_list_dend 6
    (pt3d shape3d [pt3 (-50) 715 0 1; pt3 56 609 0 1]) c.

Definition topol (c : Cell) : res Cell :=
  c ← Pyr.connect_dend "apical_trunk" Soma 1 0 c;
  c ← Pyr.connect_dend "apical_1" (Dend "apical_trunk") 1 0 c;
  c ← Pyr.connect_dend "apical_tuft" (Dend "apical_1") 1 0 c;
  c ← Pyr.connect_dend "apical_oblique" (Dend "apical_trunk") 1 0 c;
  c ← Pyr.connect_dend "basal_1" Soma 0 0 c;
  c ← Pyr.connect_dend "basal_2" (Dend "basal_1") 1 0 c;
  c ← Pyr.connect_dend "basal_3" (Dend "basal_1") 1 0 c;
  basic_shape c.

Definition geom (p_dend : list (string * DendProps)) (c : Cell) : res Cell :=
  let c := with_soma (set_L 22.1 (soma c)) c in
  c ← Pyr.set_list_dend 0 (set_L 59.5) c;
  c ← Pyr.set_list_dend 1 (set_L 340) c;
  c ← Pyr.set_list_dend 2 (set_L 306) c;
  c ← Pyr.set_list_dend 3 (set_L 238) c;
  c ← Pyr.set_list_dend 4 (set_L 85) c;
  c ← Pyr.set_list_dend 5 (set_L 255) c;
  c ← Pyr.set_list_dend 6 (set_L 255) c;
  let c := with_soma (set_diam 23.4 (soma c)) c in
  c ← Pyr.set_list_dend 0 (set_diam 4.25) c;
  c ← Pyr.set_list_dend 1 (set_diam 3.91) c;
  c ← Pyr.set_list_dend 2 (set_diam 4.08) c;
  c ← Pyr.set_list_dend 3 (set_diam 3.4) c;
  c ← Pyr.set_list_dend 4 (set_diam 4.25) c;
  c ← Pyr.set_list_dend 5 (set_diam 2.72) c;
  c ← Pyr.set_list_dend 6 (set_diam 2.72) c;
  Pyr.set_dend_props p_dend c.

Definition _biophys_soma (c : Cell) : Cell :=
  let s := soma c in
  let s := insert_mech "hh2" s in
  let s := set_range "gkbar_hh2" (p_all "L2Pyr_soma_gkbar_hh2") s in
  let s := set_range "gl_hh2" (p_all "L2Pyr_soma_gl_hh2") s in
  let s := set_range "el_hh2" (p_all "L2Pyr_soma_el_hh2") s in
  let s := set_range "gnabar_hh2" (p_all "L2Pyr_soma_gnabar_hh2") s in
  let s := insert_mech "km" s in
  let s := set_range "gbar_km" (p_all "L2Pyr_soma_gbar_km") s in
  with_soma s c.

(** The body of the loop of [_biophys_dends] for one dendrite. *)
Definition biophys_dend (s : Sec) : Sec :=
  let s := insert_mech "hh2" s in
  let s := set_range "gkbar_hh2" (p_all "L2Pyr_dend_gkbar_hh2") s in
  let s := set_range "gl_hh2" (p_all "L2Pyr_dend_gl_hh2") s in
  let s := set_range "gnabar_hh2" (p_all "L2Pyr_dend_gnabar_hh2") s in
  let s := set_range "el_hh2" (p_all "L2Pyr_dend_el_hh2") s in
  let s := insert_mech "km" s in
  set_range "gbar_km" (p_all "L2Pyr_dend_gbar_km") s.

Definition _biophys_dends (c : Cell) : Cell :=
  with_dends (biophys_dend <$> dends c) c.

(** [L2Pyr(gid, pos, p)], from the resolved parameters on.  The two calls
    into [cell.py] that follow the steps below ([dipole_insert] and
    [record_current_soma]) attach recording machinery and leave the
    attributes modelled here alone. *)
Definition __init__ (g : Z) (ps : pval) : res Cell :=
  let p_soma := _get_soma_props ps in
  let c := Pyr.__init__ g p_soma in
  let p_dend := Pyr._get_dend_props p_all c in
  let p_syn := Pyr._get_syn_props p_all c in
  let c := with_celltype "L2_pyramidal" c in
  let c := Pyr.create_dends p_dend c in
  c ← topol c;
  c ← geom p_dend c;
  let c := _biophys_soma c in
  let c := _biophys_dends c in
  let c := with_yscale (Pyr.get_sectnames c) c in
  Pyr._synapse_create p_syn c.

End WithParams.
End L2Pyr.

(** ** class [L5Pyr] *)

Module L5Pyr.
Section WithParams.

Variable p_all : string -> Q.

Definition __get_soma_props (ps : pval) : SomaProps :=
  {| so_pos := ps;
     so_L := p_all "L5Pyr_soma_L";
     so_diam := p_all "L5Pyr_soma_diam";
     so_cm := p_all "L5Pyr_soma_cm";
     so_Ra := p_all "L5Pyr_soma_Ra";
     so_name := "L5Pyr" |}.

(** The length and the diameter the simulator gives a section for its
    3-D points, see [pt3d]. *)
Variable shape3d : list (Q * Q * Q * Q) -> Q * Q.

(** [basic_shape] gives the soma and the first eight entries of
    [self.list_dend] their 3-D points. *)
Definition basic_shape (c : Cell) : res Cell :=
  let c := with_soma
             (pt3d shape3d [pt3 0 0 0 1; pt3 0 23 0 1] (soma c)) c in
  c ← Pyr.set_list_dend 0 (pt3d shape3d [pt3 0 23 0 1; pt3 0 83 0 1]) c;
  c ← Pyr.set_list_dend 1 (pt3d shape3d [pt3 0 83 0 1; pt3 (-150) 83 0 1]) c;
  c ← Pyr.set_list_dend 2 (pt3d shape3d [pt3 0 83 0 1; pt3 0 483 0 1]) c;
  c ← Pyr.set_list_dend 3 (pt3d shape3d [pt3 0 483 0 1; pt3 0 883 0 1]) c;
  c ← Pyr.set_list_dend 4 (pt3d shape3d [pt3 0 883 0 1; pt3 0 1133 0 1]) c;
  c ← Pyr.set_list_dend 5 (pt3d shape3d [pt3 0 0 0 1; pt3 0 (-50) 0 1]) c;
  c ← Pyr.set_list_dend 6
        (pt3d shape3d [pt3 0 (-50) 0 1; pt3 (-106) (-156) 0 1]) c;
  Pyr.set_list_dend 7
    (pt3d shape3d [pt3 0 (-50) 0 1; pt3 106 (-156) 0 1]) c.

Definition topol (c : Cell) : res Cell :=
  c ← Pyr.connect_dend "apical_trunk" Soma 1 0 c;
  c ← Pyr.connect_dend "apical_1" (Dend "apical_trunk") 1 0 c;
  c ← Pyr.connect_dend "apical_2" (Dend "apical_1") 1 0 c;
  c ← Pyr.connect_dend "apical_tuft" (Dend "apical_2") 1 0 c;
  c ← Pyr.connect_dend "apical_oblique" (Dend "apical_trunk") 1 0 c;
  c ← Pyr.connect_dend "basal_1" Soma 0 0 c;
  c ← Pyr.connect_dend "basal_2" (Dend "basal_1") 1 0 c;
  c ← Pyr.connect_dend "basal_3" (Dend "basal_1") 1 0 c;
  basic_shape c.

Definition geom (p_dend : list (string * DendProps)) (c : Cell) : res Cell :=
  let c := with_soma (set_L 39 (soma c)) c in
  c ← Pyr.set_list_dend 0 (set_L 102) c;
  c ← Pyr.set_list_dend 1 (set_L 255) c;
  c ← Pyr.set_list_dend 2 (set_L 680) c;
  c ← Pyr.set_list_dend 3 (set_L 680) c;
  c ← Pyr.set_list_dend 4 (set_L 425) c;
  c ← Pyr.set_list_dend 5 (set_L 85) c;
  c ← Pyr.set_list_dend 6 (set_L 255) c;
  c ← Pyr.set_list_dend 7 (set_L 255) c;
  let c := with_soma (set_diam 28.9 (soma c)) c in
  c ← Pyr.set_list_dend 0 (set_diam 10.2) c;
  c ← Pyr.set_list_dend 1 (set_diam 5.1) c;
  c ← Pyr.set_list_dend 2 (set_diam 7.48) c;
  c ← Pyr.set_list_dend 3 (set_diam 4.93) c;
  c ← Pyr.set_list_dend 4 (set_diam 3.4) c;
  c ← Pyr.set_list_dend 5 (set_diam 6.8) c;
  c ← Pyr.set_list_dend 6 (set_diam 8.5) c;
  c ← Pyr.set_list_dend 7 (set_diam 8.5) c;
  Pyr.set_dend_props p_dend c.

Definition __biophys_soma (c : Cell) : Cell :=
  let s := soma c in
  let s := insert_mech "hh2" s in
  let s := set_range "gkbar_hh2" (p_all "L5Pyr_soma_gkbar_hh2") s in
  let s := set_range "gnabar_hh2" (p_all "L5Pyr_soma_gnabar_hh2") s in
  let s := set_range "gl_hh2" (p_all "L5Pyr_soma_gl_hh2") s in
  let s := set_range "el_hh2" (p_all "L5Pyr_soma_el_hh2") s in
  let s := insert_mech "ca" s in
  let s := set_range "gbar_ca" (p_all "L5Pyr_soma_gbar_ca") s in
  let s := insert_mech "cad" s in
  let s := set_range "taur_cad" (p_all "L5Pyr_soma_taur_cad") s in
  let s := insert_mech "kca" s in
  let s := set_range "gbar_kca" (p_all "L5Pyr_soma_gbar_kca") s in
  let s := insert_mech "km" s in
  let s := set_range "gbar_km" (p_all "L5Pyr_soma_gbar_km") s in
  let s := insert_mech "cat" s in
  let s := set_range "gbar_cat" (p_all "L5Pyr_soma_gbar_cat") s in
  let s := insert_mech "ar" s in
  let s := set_range "gbar_ar" (p_all "L5Pyr_soma_gbar_ar") s in
  with_soma s c.

(** The body of the first loop of [__biophys_dends] for one dendrite. *)
Definition biophys_dend (s : Sec) : Sec :=
  let s := insert_mech "hh2" s in
  let s := set_range "gkbar_hh2" (p_all "L5Pyr_dend_gkbar_hh2") s in
  let s := set_range "gl_hh2" (p_all "L5Pyr_dend_gl_hh2") s in
  let s := set_range "gnabar_hh2" (p_all "L5Pyr_dend_gnabar_hh2") s in
  let s := set_range "el_hh2" (p_all "L5Pyr_dend_el_hh2") s in
  let s := insert_mech "ca" s in
  let s := set_range "gbar_ca" (p_all "L5Pyr_dend_gbar_ca") s in
  let s := insert_mech "cad" s in
  let s := set_range "taur_cad" (p_all "L5Pyr_dend_taur_cad") s in
  let s := insert_mech "kca" s in
  let s := set_range "gbar_kca" (p_all "L5Pyr_dend_gbar_kca") s in
  let s := insert_mech "km" s in
  let s := set_range "gbar_km" (p_all "L5Pyr_dend_gbar_km") s in
  let s := insert_mech "cat" s in
  let s := set_range "gbar_cat" (p_all "L5Pyr_dend_gbar_cat") s in
  insert_mech "ar" s.

(** The right-hand side of [seg.gbar_ar = 1e-6 * np.exp(3e-3 * d)]. *)
Definition gbar_ar_at (d : Q) : R := (1e-6 * exp (3e-3 * Q2R d))%R.

(** The body of the second loop for one dendrite: every segment of the
    section gets the value at its own position [seg.x]. *)
Definition gbar_ar_dend (c : Cell) (key : string) (s : Sec) : Sec :=
  set_gbar_ar
    (map (fun x => gbar_ar_at (h_distance c (Dend key) x)) (seg_positions s))
    s.

Definition __biophys_dends (c : Cell) : Cell :=
  let c := with_dends (biophys_dend <$> dends c) c in
  with_dends (map_imap (fun key s => Some (gbar_ar_dend c key s)) (dends c)) c.

(** [L5Pyr(gid, pos, p)], from the resolved parameters on; as for
    [L2Pyr], [dipole_insert] and [record_current_soma] are left out. *)
Definition __init__ (g : Z) (ps : pval) : res Cell :=
  let p_soma := __get_soma_props ps in
  let c := Pyr.__init__ g p_soma in
  let p_dend := Pyr._get_dend_props p_all c in
  let p_syn := Pyr._get_syn_props p_all c in
  let c := with_celltype "L5Pyr" c in
  let c := Pyr.create_dends p_dend c in
  c ← topol c;
  c ← geom p_dend c;
  let c := __biophys_soma c in
  let c := __biophys_dends c in
  let c := with_yscale (Pyr.get_sectnames c) c in
  Pyr._synapse_create p_syn c.

End WithParams.
End L5Pyr.

(** ** Reference definitions

    What the design document says of the operations above, written out so
    that the code can be compared with it, and the closed forms of the
    cells the two constructors build. *)

(** The segment-count rule in the words of the design document: above 100
    length units the count is [floor(length/50)], made odd by adding one
    when it is even; at or below 100 it is 1. *)
Definition segment_count (len : Q) : Z :=
  if Qgtb len 100 then
    let n := Qfloor (len / 50) in
    if Z.even n then n + 1 else n
  else 1.

(** What one turn of the loop of [set_dend_props] does to the section it
    finds. *)
Definition apply_props (p : DendProps) (s : Sec) : Sec :=
  let s := set_L (dp_L p) s in
  let s := set_diam (dp_diam p) s in
  let s := set_Ra (dp_Ra p) s in
  let s := set_cm (dp_cm p) s in
  if Qgtb (dp_L p) 100 then
    let s := set_nseg (int (dp_L p / 50)) s in
    if sec_nseg s mod 2 =? 0 then set_nseg (sec_nseg s + 1) s else s
  else s.

Definition apply_all_props (props : list (string * DendProps))
    (ds : gmap string Sec) : gmap string Sec :=
  foldl (fun d kp => alter (apply_props (snd kp)) (fst kp) d) ds props.

(** A freshly created dendrite connected at its proximal end, with the
    hard-coded length and diameter of [geom]. *)
Definition mk_sec (nm : string) (l d : Q) (par : secref) (e : Q) : Sec :=
  {| sec_name := nm; sec_L := l; sec_diam := d; sec_Ra := 35.4; sec_cm := 1;
     sec_nseg := 1;
     sec_parent := Some {| att_parent := par; att_parent_end := e;
                           att_child_start := 0 |};
     sec_mechs := []; sec_range := ∅; sec_gbar_ar := [] |}.

Definition skeleton_cell (g : Z) (ps : pval) (nm ct : string) (so : Sec)
    (ds : gmap string Sec) (ld : list string) : Cell :=
  {| gid := g; pos := ps; name := nm; celltype := ct;
     soma := so; dends := ds; list_dend := ld;
     synapses := ∅;
     sect_loc := <["distal" := ["apicaltuft"]]>
                 (<["proximal" := ["apicaloblique"; "basal2"; "basal3"]]> ∅);
     yscale := ∅;
     ncfrom_common := []; ncfrom_extgauss := []; ncfrom_extpois := [] |}.

(** The synapses [_synapse_create] registers, given the receptor
    parameters. *)
Definition registry (l5 : bool) (p_syn : string -> SynProps)
    : gmap string Synapse :=
  let base : gmap string Synapse :=
    <["apicaltuft_nmda" := syn_create (Dend "apical_tuft") 0.5 (p_syn "nmda")]>
    (<["apicaltuft_ampa" := syn_create (Dend "apical_tuft") 0.5 (p_syn "ampa")]>
    (<["basal3_nmda" := syn_create (Dend "basal_3") 0.5 (p_syn "nmda")]>
    (<["basal3_ampa" := syn_create (Dend "basal_3") 0.5 (p_syn "ampa")]>
    (<["basal2_nmda" := syn_create (Dend "basal_2") 0.5 (p_syn "nmda")]>
    (<["basal2_ampa" := syn_create (Dend "basal_2") 0.5 (p_syn "ampa")]>
    (<["apicaloblique_nmda" := syn_create (Dend "apical_oblique") 0.5 (p_syn "nmda")]>
    (<["apicaloblique_ampa" := syn_create (Dend "apical_oblique") 0.5 (p_syn "ampa")]>
    (<["soma_gabab" := syn_create Soma 0.5 (p_syn "gabab")]>
    (<["soma_gabaa" := syn_create Soma 0.5 (p_syn "gabaa")]> ∅))))))))) in
  if l5 then
    <["apicaltuft_gabaa" := syn_create (Dend "apical_tuft") 0.5 (p_syn "gabaa")]> base
  else base.

Module L2Built.
Section WithParams.

Variable p_all : string -> Q.

Definition dend_props : list (string * DendProps) :=
  [("apical_trunk", Pyr.dend_props_of p_all "L2Pyr" "apicaltrunk");
   ("apical_1", Pyr.dend_props_of p_all "L2Pyr" "apical1");
   ("apical_tuft", Pyr.dend_props_of p_all "L2Pyr" "apicaltuft");
   ("apical_oblique", Pyr.dend_props_of p_all "L2Pyr" "apicaloblique");
   ("basal_1", Pyr.dend_props_of p_all "L2Pyr" "basal1");
   ("basal_2", Pyr.dend_props_of p_all "L2Pyr" "basal2");
   ("basal_3", Pyr.dend_props_of p_all "L2Pyr" "basal3")].

(** The dendrites after [create_dends], [topol] and the hard-coded part
    of [geom]. *)
Definition skeleton_dends : gmap string Sec :=
  list_to_map
    [("apical_trunk", mk_sec "L2Pyr_apical_trunk" 59.5 4.25 Soma 1);
     ("apical_oblique",
      mk_sec "L2Pyr_apical_oblique" 340 3.91 (Dend "apical_trunk") 1);
     ("apical_1", mk_sec "L2Pyr_apical_1" 306 4.08 (Dend "apical_trunk") 1);
     ("apical_tuft", mk_sec "L2Pyr_apical_tuft" 238 3.4 (Dend "apical_1") 1);
     ("basal_1", mk_sec "L2Pyr_basal_1" 85 4.25 Soma 0);
     ("basal_2", mk_sec "L2Pyr_basal_2" 255 2.72 (Dend "basal_1") 1);
     ("basal_3", mk_sec "L2Pyr_basal_3" 255 2.72 (Dend "basal_1") 1)].

Definition skeleton (g : Z) (ps : pval) : Cell :=
  skeleton_cell g ps "L2Pyr" "L2_pyramidal"
    (set_diam 23.4 (set_L 22.1
       (soma (Pyr.__init__ g (L2Pyr._get_soma_props p_all ps)))))
    skeleton_dends
    ["apical_trunk"; "apical_oblique"; "apical_1"; "apical_tuft";
     "basal_1"; "basal_2"; "basal_3"].

(** The cell after [geom]. *)
Definition geometry (g : Z) (ps : pval) : Cell :=
  with_dends (apply_all_props dend_props skeleton_dends) (skeleton g ps).

(** The cell after the biophysics. *)
Definition equipped (g : Z) (ps : pval) : Cell :=
  L2Pyr._biophys_dends p_all (L2Pyr._biophys_soma p_all (geometry g ps)).

(** The cell before its synapses are created. *)
Definition wired (g : Z) (ps : pval) : Cell :=
  with_yscale (Pyr.get_sectnames (equipped g ps)) (equipped g ps).

(** The cell [L2Pyr(gid, pos, p)] returns. *)
Definition built (g : Z) (ps : pval) : Cell :=
  let c := wired g ps in
  with_synapses (registry false (Pyr.syn_props_of p_all "L2Pyr")) c.

End WithParams.
End L2Built.

Module L5Built.
Section WithParams.

Variable p_all : string -> Q.

Definition dend_props : list (string * DendProps) :=
  [("apical_trunk", Pyr.dend_props_of p_all "L5Pyr" "apicaltrunk");
   ("apical_1", Pyr.dend_props_of p_all "L5Pyr" "apical1");
   ("apical_tuft", Pyr.dend_props_of p_all "L5Pyr" "apicaltuft");
   ("apical_oblique", Pyr.dend_props_of p_all "L5Pyr" "apicaloblique");
   ("basal_1", Pyr.dend_props_of p_all "L5Pyr" "basal1");
   ("basal_2", Pyr.dend_props_of p_all "L5Pyr" "basal2");
   ("basal_3", Pyr.dend_props_of p_all "L5Pyr" "basal3");
   ("apical_2", Pyr.dend_props_of p_all "L5Pyr" "apical2")].

Definition skeleton_dends : gmap string Sec :=
  list_to_map
    [("apical_trunk", mk_sec "L5Pyr_apical_trunk" 102 10.2 Soma 1);
     ("apical_oblique",
      mk_sec "L5Pyr_apical_oblique" 255 5.1 (Dend "apical_trunk") 1);
     ("apical_1", mk_sec "L5Pyr_apical_1" 680 7.48 (Dend "apical_trunk") 1);
     ("apical_2", mk_sec "L5Pyr_apical_2" 680 4.93 (Dend "apical_1") 1);
     ("apical_tuft", mk_sec "L5Pyr_apical_tuft" 425 3.4 (Dend "apical_2") 1);
     ("basal_1", mk_sec "L5Pyr_basal_1" 85 6.8 Soma 0);
     ("basal_2", mk_sec "L5Pyr_basal_2" 255 8.5 (Dend "basal_1") 1);
     ("basal_3", mk_sec "L5Pyr_basal_3" 255 8.5 (Dend "basal_1") 1)].

Definition skeleton (g : Z) (ps : pval) : Cell :=
  skeleton_cell g ps "L5Pyr" "L5Pyr"
    (set_diam 28.9 (set_L 39
       (soma (Pyr.__init__ g (L5Pyr.__get_soma_props p_all ps)))))
    skeleton_dends
    ["apical_trunk"; "apical_oblique"; "apical_1"; "apical_2";
     "apical_tuft"; "basal_1"; "basal_2"; "basal_3"].

(** The cell after [geom]. *)
Definition geometry (g : Z) (ps : pval) : Cell :=
  with_dends (apply_all_props dend_props skeleton_dends) (skeleton g ps).

(** The cell after the first loop of [__biophys_dends]: the one the
    distances are measured on. *)
Definition uniform (g : Z) (ps : pval) : Cell :=
  with_dends
    (L5Pyr.biophys_dend p_all
       <$> dends (L5Pyr.__biophys_soma p_all (geometry g ps)))
    (L5Pyr.__biophys_soma p_all (geometry g ps)).

(** The cell after the biophysics. *)
Definition equipped (g : Z) (ps : pval) : Cell :=
  L5Pyr.__biophys_dends p_all (L5Pyr.__biophys_soma p_all (geometry g ps)).

Definition wired (g : Z) (ps : pval) : Cell :=
  with_yscale (Pyr.get_sectnames (equipped g ps)) (equipped g ps).

Definition built (g : Z) (ps : pval) : Cell :=
  let c := wired g ps in
  with_synapses (registry true (Pyr.syn_props_of p_all "L5Pyr")) c.

End WithParams.
End L5Built.

(** [c] is the cell one of the two constructors returns for the resolved
    parameters [p_all], whatever the simulator makes of the 3-D
    points. *)
Definition built_by (p_all : string -> Q) (g : Z) (ps : pval) (c : Cell)
    : Prop :=
  exists shape3d,
    L2Pyr.__init__ p_all shape3d g ps = Ok c \/
    L5Pyr.__init__ p_all shape3d g ps = Ok c.

(** A length and a diameter to run the constructors with, the same for
    any 3-D points. *)
Definition example_shape (pts : list (Q * Q * Q * Q)) : Q * Q :=
  (13%Q, 1%Q).

(** A parameter table to run the constructors on: an apical trunk of
    length 150, a first apical segment of length 200, and 80 for every
    other entry. *)
Definition example_params (k : string) : Q :=
  if String.eqb k "L2Pyr_apicaltrunk_L" then 150
  else if String.eqb k "L2Pyr_apical1_L" then 200
  else if String.eqb k "L5Pyr_apicaltrunk_L" then 150
  else if String.eqb k "L5Pyr_apical1_L" then 200
  else 80.

(** The attachment of a dendrite at its proximal end to the point
    [parent_end] of [parent]. *)
Definition attached_to (parent : secref) (parent_end : Q) : option Attach :=
  Some {| att_parent := parent; att_parent_end := parent_end;
          att_child_start := 0 |}.

(** The fixed attachment pattern of the design document: the apical trunk
    on the distal end of the soma, the apical segments chained distally,
    the oblique branch on the distal end of the trunk, the primary basal
    branch on the proximal end of the soma and the two secondary basal
    branches on the distal end of the primary one. *)
Definition L2_pattern : gmap string (option Attach) :=
  list_to_map
    [("apical_trunk", attached_to Soma 1);
     ("apical_1", attached_to (Dend "apical_trunk") 1);
     ("apical_tuft", attached_to (Dend "apical_1") 1);
     ("apical_oblique", attached_to (Dend "apical_trunk") 1);
     ("basal_1", attached_to Soma 0);
     ("basal_2", attached_to (Dend "basal_1") 1);
     ("basal_3", attached_to (Dend "basal_1") 1)].

Definition L5_pattern : gmap string (option Attach) :=
  list_to_map
    [("apical_trunk", attached_to Soma 1);
     ("apical_1", attached_to (Dend "apical_trunk") 1);
     ("apical_2", attached_to (Dend "apical_1") 1);
     ("apical_tuft", attached_to (Dend "apical_2") 1);
     ("apical_oblique", attached_to (Dend "apical_trunk") 1);
     ("basal_1", attached_to Soma 0);
     ("basal_2", attached_to (Dend "basal_1") 1);
     ("basal_3", attached_to (Dend "basal_1") 1)].

(** The compartments form a tree whose single root is the soma: the soma
    has no parent, and from every dendrite the chain of parents ends in
    the soma after at most as many steps as there are dendrites, so that
    no chain runs into a cycle or ends in another root. *)
Definition rooted_at_soma (c : Cell) : Prop :=
  sec_parent (soma c) = None /\
  forall k, is_Some (dends c !! k) ->
    Pyr.under_soma (size (dends c)) (dends c) (Dend k) = true.

(** The attachment map of the design document.  A synapse is named
    [<location>_<receptor>] and sits on the midpoint of its compartment:
    the two inhibitory receptors on the soma, a pair of excitatory
    receptors on each of four dendrites, and for the L5 subtype one more
    inhibitory receptor on the apical tuft. *)
Definition placement (p_syn : string -> SynProps) (loc : string)
    (sec : secref) (receptor : string) : string * Synapse :=
  (loc +:+ "_" +:+ receptor, syn_create sec 0.5 (p_syn receptor)).

Definition placements (l5 : bool) (p_syn : string -> SynProps)
    : list (string * Synapse) :=
  [placement p_syn "soma" Soma "gabaa";
   placement p_syn "soma" Soma "gabab";
   placement p_syn "apicaloblique" (Dend "apical_oblique") "ampa";
   placement p_syn "apicaloblique" (Dend "apical_oblique") "nmda";
   placement p_syn "basal2" (Dend "basal_2") "ampa";
   placement p_syn "basal2" (Dend "basal_2") "nmda";
   placement p_syn "basal3" (Dend "basal_3") "ampa";
   placement p_syn "basal3" (Dend "basal_3") "nmda";
   placement p_syn "apicaltuft" (Dend "apical_tuft") "ampa";
   placement p_syn "apicaltuft" (Dend "apical_tuft") "nmda"]
  ++ (if l5 then [placement p_syn "apicaltuft" (Dend "apical_tuft") "gabaa"]
      else []).

(** The dendrites [_synapse_create] attaches a synapse to, in the order it
    reads them. *)
Definition synapse_dends : list string :=
  ["apical_oblique"; "basal_2"; "basal_3"; "apical_tuft"].

(** A cell of the [L2Pyr] kind whose tree has no apical tuft: the object
    [Pyr.__init__] and [create_dends] give for dendrite properties without
    an entry [apical_tuft]. *)
Definition cell_without_tuft : Cell :=
  let so := {| so_pos := PNum 0; so_L := 22.1; so_diam := 23.4;
               so_cm := 0.6195; so_Ra := 200; so_name := "L2Pyr" |} in
  let p := {| dp_L := 80; dp_diam := 4; dp_cm := 0.6195; dp_Ra := 200 |} in
  Pyr.create_dends
    [("apical_trunk", p); ("apical_1", p); ("apical_oblique", p);
     ("basal_1", p); ("basal_2", p); ("basal_3", p)]
    (Pyr.__init__ 0 so).

(** A cell of the same kind that lacks both [basal_2] and the apical
    tuft. *)
Definition cell_without_basal_2_and_tuft : Cell :=
  let so := {| so_pos := PNum 0; so_L := 22.1; so_diam := 23.4;
               so_cm := 0.6195; so_Ra := 200; so_name := "L2Pyr" |} in
  let p := {| dp_L := 80; dp_diam := 4; dp_cm := 0.6195; dp_Ra := 200 |} in
  Pyr.create_dends
    [("apical_trunk", p); ("apical_1", p); ("apical_oblique", p);
     ("basal_1", p); ("basal_3", p)]
    (Pyr.__init__ 0 so).

(** The receptor parameters [_get_syn_props] gives that cell. *)
Definition example_p_syn : gmap string SynProps :=
  Pyr._get_syn_props example_params cell_without_tuft.

(** The connection [parreceive_ext] registers for a background source:
    the receptor at the proximal location, from the source
    [gid + gid_dict[type][0]]. *)
Definition background_conn (receptor type : string) (gid_src : Z)
    (src w dly lam thr : pval) : FeedConn :=
  {| fc_feed_loc := PStr "proximal"; fc_receptor := receptor;
     fc_gid_src := gid_src;
     fc_nc_dict := {| pos_src := src; A_weight := w; A_delay := dly;
                      lamtha := lam; threshold := thr; type_src := type |} |}.

(** A cell and the tables of a Poisson or Gaussian drive to run
    [parreceive_ext] on: the cell is of type [L2_pyramidal], the sources
    start at gid 100, and the weights are 0.5 (fast) and [w_nmda]
    (slow). *)
Definition example_cell : Cell :=
  with_celltype "L2_pyramidal" cell_without_tuft.

Definition example_gid_dict : gmap string (list Z) :=
  list_to_map [("extpois", [100; 101]); ("extgauss", [200; 201]);
               ("common", [300; 301])].

Definition example_pos_dict : gmap string (list pval) :=
  list_to_map
    [("extpois", [PSeq [PNum 0; PNum 0]; PSeq [PNum 1; PNum 0]]);
     ("extgauss", [PSeq [PNum 0; PNum 0]; PSeq [PNum 1; PNum 0]]);
     ("common", [PSeq [PNum 0; PNum 0]; PSeq [PNum 1; PNum 0]])].

Definition example_p_ext (w_nmda : Q) : gmap string pval :=
  list_to_map
    [("L2_pyramidal", PSeq [PNum 0.5; PNum w_nmda; PNum 1]);
     ("lamtha_space", PNum 100); ("lamtha", PNum 100);
     ("threshold", PNum 0); ("loc", PStr "proximal")].

(** Two common-input sources for [parreceive]: one that defines the
    [ampa] parameters of [L2Pyr] cells but not the [nmda] ones, and one
    that defines neither. *)
Definition example_src_ampa_only : gmap string pval :=
  list_to_map
    [("L2Pyr_ampa", PSeq [PNum 0.5; PNum 1]);
     ("lamtha", PNum 100); ("threshold", PNum 0); ("loc", PStr "proximal")].

Definition example_src_neither : gmap string pval :=
  list_to_map
    [("lamtha", PNum 100); ("threshold", PNum 0); ("loc", PStr "proximal")].

(** The dictionary the first source builds for its [ampa] receptor. *)
Definition example_ampa_nc_dict : NcDict :=
  {| pos_src := PSeq [PNum 0; PNum 0]; A_weight := PNum 0.5;
     A_delay := PNum 1; lamtha := PNum 100; threshold := PNum 0;
     type_src := "ext" |}.

(** The names of the sections of a cell called [nm] with the dendrites
    [keys]: what [sect.name()] gives for the soma and for each of them. *)
Definition section_names (nm : string) (keys : list string) : list string :=
  (nm +:+ "_soma") :: map (fun k => nm +:+ "_" +:+ k) keys.

Definition L2_keys : list string :=
  ["apical_trunk"; "apical_1"; "apical_tuft"; "apical_oblique";
   "basal_1"; "basal_2"; "basal_3"].

Definition L5_keys : list string :=
  ["apical_trunk"; "apical_1"; "apical_2"; "apical_tuft"; "apical_oblique";
   "basal_1"; "basal_2"; "basal_3"].

(** ** Definitions for the further properties *)

(** Everything of a cell but its three connection lists. *)
Definition same_body (c c' : Cell) : Prop :=
  gid c' = gid c /\ pos c' = pos c /\ name c' = name c /\
  celltype c' = celltype c /\ soma c' = soma c /\ dends c' = dends c /\
  list_dend c' = list_dend c /\ synapses c' = synapses c /\
  sect_loc c' = sect_loc c /\ yscale c' = yscale c.

(** Everything of a cell but its dendrites. *)
Definition same_but_dends (c c' : Cell) : Prop :=
  gid c' = gid c /\ pos c' = pos c /\ name c' = name c /\
  celltype c' = celltype c /\ soma c' = soma c /\
  list_dend c' = list_dend c /\ synapses c' = synapses c /\
  sect_loc c' = sect_loc c /\ yscale c' = yscale c /\
  ncfrom_common c' = ncfrom_common c /\
  ncfrom_extgauss c' = ncfrom_extgauss c /\
  ncfrom_extpois c' = ncfrom_extpois c.

(** A section but for the point it is attached to. *)
Definition same_but_parent (s s' : Sec) : Prop :=
  sec_name s' = sec_name s /\ sec_L s' = sec_L s /\
  sec_diam s' = sec_diam s /\ sec_Ra s' = sec_Ra s /\
  sec_cm s' = sec_cm s /\ sec_nseg s' = sec_nseg s /\
  sec_mechs s' = sec_mechs s /\ sec_range s' = sec_range s /\
  sec_gbar_ar s' = sec_gbar_ar s.

(** A connection of an external source. *)
Definition feed_conn (loc : pval) (receptor type : string) (gid_src : Z)
    (src w dly lam thr : pval) : FeedConn :=
  {| fc_feed_loc := loc; fc_receptor := receptor; fc_gid_src := gid_src;
     fc_nc_dict := {| pos_src := src; A_weight := w; A_delay := dly;
                      lamtha := lam; threshold := thr; type_src := type |} |}.

(** The dendrites [topol] looks up, in the order it first reads them. *)
Definition L2_topol_order : list string :=
  ["apical_trunk"; "apical_1"; "apical_tuft"; "apical_oblique";
   "basal_1"; "basal_2"; "basal_3"].

Definition L5_topol_order : list string :=
  ["apical_trunk"; "apical_1"; "apical_2"; "apical_tuft"; "apical_oblique";
   "basal_1"; "basal_2"; "basal_3"].

(** The sections [topol] connects, with the points they are attached
    to. *)
Definition L2_connections : list (string * (secref * Q)) :=
  [("apical_trunk", (Soma, 1%Q)); ("apical_1", (Dend "apical_trunk", 1%Q));
   ("apical_tuft", (Dend "apical_1", 1%Q));
   ("apical_oblique", (Dend "apical_trunk", 1%Q));
   ("basal_1", (Soma, 0%Q)); ("basal_2", (Dend "basal_1", 1%Q));
   ("basal_3", (Dend "basal_1", 1%Q))].

Definition L5_connections : list (string * (secref * Q)) :=
  [("apical_trunk", (Soma, 1%Q)); ("apical_1", (Dend "apical_trunk", 1%Q));
   ("apical_2", (Dend "apical_1", 1%Q));
   ("apical_tuft", (Dend "apical_2", 1%Q));
   ("apical_oblique", (Dend "apical_trunk", 1%Q));
   ("basal_1", (Soma, 0%Q)); ("basal_2", (Dend "basal_1", 1%Q));
   ("basal_3", (Dend "basal_1", 1%Q))].

(** The mechanisms the biophysics inserts, in order. *)
Definition L2_mechs : list string := ["hh2"; "km"].

Definition L5_mechs : list string :=
  ["hh2"; "ca"; "cad"; "kca"; "km"; "cat"; "ar"].

(** Dendrite properties with an entry the class has no place for in
    [list_dend], and a cell made from them. *)
Definition example_dend_props : list (string * DendProps) :=
  let p := {| dp_L := 150; dp_diam := 4; dp_cm := 0.6195; dp_Ra := 200 |} in
  [("basal_1", p); ("axon", p); ("apical_trunk", p)].

Definition example_soma_props : SomaProps :=
  {| so_pos := PNum 0; so_L := 22.1; so_diam := 23.4;
     so_cm := 0.6195; so_Ra := 200; so_name := "L2Pyr" |}.

Definition example_small_cell : Cell :=
  Pyr.create_dends example_dend_props (Pyr.__init__ 7 example_soma_props).

(** The tables of an evoked proximal drive. *)
Definition example_ev_gid_dict : gmap string (list Z) :=
  list_to_map [("evprox1", [400; 401])].

Definition example_ev_pos_dict : gmap string (list pval) :=
  list_to_map [("evprox1", [PSeq [PNum 0; PNum 0]; PSeq [PNum 1; PNum 0]])].

Definition example_ev_p_ext : gmap string pval :=
  list_to_map
    [("L2_pyramidal", PSeq [PNum 0.5; PNum 0; PNum 1]);
     ("lamtha_space", PNum 3); ("threshold", PNum 0);
     ("loc", PStr "proximal")].

(** A common-input source that defines both receptors. *)
Definition example_src_both : gmap string pval :=
  list_to_map
    [("L2Pyr_ampa", PSeq [PNum 0.5; PNum 1]);
     ("L2Pyr_nmda", PSeq [PNum 0.25; PNum 2]);
     ("lamtha", PNum 100); ("threshold", PNum 0); ("loc", PStr "distal")].


(** The calls of [topol] one after the other: each entry of the table is
    one [self.dends[child].connect(parent, parent_end, 0)]. *)
Fixpoint connect_all (l : list (string * (secref * Q))) (c : Cell)
    : res Cell :=
  match l with
  | [] => Ok c
  | (child, (parent, parent_end)) :: rest =>
      c ← Pyr.connect_dend child parent parent_end 0 c;
      connect_all rest c
  end.

(** Every parent of the table is the soma or a dendrite connected
    earlier in the table (or one of [seen]). *)
Fixpoint conn_ordered (seen : list string)
    (l : list (string * (secref * Q))) : bool :=
  match l with
  | [] => true
  | (child, (parent, _)) :: rest =>
      match parent with
      | Soma => true
      | Dend k => bool_decide (k ∈ seen)
      end && conn_ordered (child :: seen) rest
  end.

(** The 3-D points [basic_shape] gives the soma and, by position, the
    entries of [self.list_dend]. *)
Definition L2_soma_points : list (Q * Q * Q * Q) :=
  [pt3 (-50) 765 0 1; pt3 (-50) 778 0 1].

Definition L2_shape_points : list (list (Q * Q * Q * Q)) :=
  [[pt3 (-50) 778 0 1; pt3 (-50) 813 0 1];
   [pt3 (-50) 813 0 1; pt3 (-250) 813 0 1];
   [pt3 (-50) 813 0 1; pt3 (-50) 993 0 1];
   [pt3 (-50) 993 0 1; pt3 (-50) 1133 0 1];
   [pt3 (-50) 765 0 1; pt3 (-50) 715 0 1];
   [pt3 (-50) 715 0 1; pt3 (-156) 609 0 1];
   [pt3 (-50) 715 0 1; pt3 56 609 0 1]].

Definition L5_soma_points : list (Q * Q * Q * Q) :=
  [pt3 0 0 0 1; pt3 0 23 0 1].

Definition L5_shape_points : list (list (Q * Q * Q * Q)) :=
  [[pt3 0 23 0 1; pt3 0 83 0 1];
   [pt3 0 83 0 1; pt3 (-150) 83 0 1];
   [pt3 0 83 0 1; pt3 0 483 0 1];
   [pt3 0 483 0 1; pt3 0 883 0 1];
   [pt3 0 883 0 1; pt3 0 1133 0 1];
   [pt3 0 0 0 1; pt3 0 (-50) 0 1];
   [pt3 0 (-50) 0 1; pt3 (-106) (-156) 0 1];
   [pt3 0 (-50) 0 1; pt3 106 (-156) 0 1]].

(** Assignments through [self.list_dend] one after the other: the first
    function on the entry at position [i], the next on the entry at
    [i + 1], and so on. *)
Fixpoint set_list_dends (i : nat) (fs : list (Sec -> Sec)) (c : Cell)
    : res Cell :=
  match fs with
  | [] => Ok c
  | f :: fs =>
      c ← Pyr.set_list_dend (Z.of_nat i) f c;
      set_list_dends (S i) fs c
  end.

(** A section but for its length, its diameter and the point it is
    attached to. *)
Definition same_inside (s s' : Sec) : Prop :=
  sec_name s' = sec_name s /\ sec_Ra s' = sec_Ra s /\
  sec_cm s' = sec_cm s /\ sec_nseg s' = sec_nseg s /\
  sec_mechs s' = sec_mechs s /\ sec_range s' = sec_range s /\
  sec_gbar_ar s' = sec_gbar_ar s.

(** What [topol] leaves of a cell [c] when it returns [c']: the calls of
    [connect] of the table [conns] have attached each dendrite of the
    table by its 0 end, and [basic_shape] has given the soma the points
    [soma_pts] and the entry at position [i] of [list_dend] the points
    [pts !! i].  A dendrite the table does not name keeps its parent, and
    one that is not among the first [length pts] entries of [list_dend]
    keeps its length and its diameter. *)
Definition topol_result (shape3d : list (Q * Q * Q * Q) -> Q * Q)
    (conns : list (string * (secref * Q)))
    (soma_pts : list (Q * Q * Q * Q)) (pts : list (list (Q * Q * Q * Q)))
    (c c' : Cell) : Prop :=
  list_dend c' = list_dend c /\
  (length pts <= length (list_dend c))%nat /\
  dom (dends c') = dom (dends c) /\
  synapses c' = synapses c /\ sect_loc c' = sect_loc c /\
  all_conns c' = all_conns c /\
  sec_L (soma c') = fst (shape3d soma_pts) /\
  sec_diam (soma c') = snd (shape3d soma_pts) /\
  forall k s', dends c' !! k = Some s' ->
    exists s, dends c !! k = Some s /\ same_inside s s' /\
      sec_parent s'
      = match (list_to_map conns : gmap string (secref * Q)) !! k with
        | Some pe => Some {| att_parent := fst pe; att_parent_end := snd pe;
                             att_child_start := 0 |}
        | None => sec_parent s
        end /\
      (forall i p, list_dend c !! i = Some k -> pts !! i = Some p ->
         sec_L s' = fst (shape3d p) /\ sec_diam s' = snd (shape3d p)) /\
      ((forall i, list_dend c !! i = Some k -> (length pts <= i)%nat) ->
       sec_L s' = sec_L s /\ sec_diam s' = sec_diam s).


(** ** Tactics *)

(** Evaluate the substring tests on closed strings, in the goal and in
    the hypotheses. *)
Ltac eval_str_in :=
  repeat match goal with
         | |- context [str_in ?a ?b] =>
             let v := eval vm_compute in (str_in a b) in
             change (str_in a b) with v
         end.

Ltac eval_str_in_hyps :=
  repeat match goal with
         | H : str_in _ _ = _ \/ str_in _ _ = _ |- _ => destruct H
         | H : str_in _ _ = _ |- _ => vm_compute in H; try discriminate H; clear H
         end.

(** * Properties *)

(** ** The error monad and the numeric helpers *)

Lemma bind_Ok {A B} (a : A) (k : A -> res B) : (Ok a ≫= k) = k a.
Proof. reflexivity. Qed.

Lemma bind_assoc {A B C} (m : res A) (f : A -> res B) (k : B -> res C) :
  ((m ≫= f) ≫= k) = (m ≫= fun a => f a ≫= k).
Proof. destruct m; reflexivity. Qed.

Lemma int_floor (q : Q) : (0 <= q)%Q -> int q = Qfloor q.
Proof.
  destruct q as [n d]. unfold Qle, int, Qfloor. simpl. intros H.
  apply Z.quot_div_nonneg; lia.
Qed.

Lemma Qgtb_lt (x y : Q) : Qgtb x y = true <-> (y < x)%Q.
Proof.
  unfold Qgtb. rewrite negb_true_iff. split.
  - intros H. apply Qnot_le_lt. intros Hle. apply Qle_bool_iff in Hle. congruence.
  - intros H. destruct (Qle_bool x y) eqn:E; [|reflexivity].
    apply Qle_bool_iff in E. exfalso. eapply Qlt_not_le; eauto.
Qed.

Lemma set_dend_props_key_ok key p (ds : gmap string Sec) s :
  ds !! key = Some s ->
  Pyr.set_dend_props_key key p ds = Ok (alter (apply_props p) key ds).
Proof.
  intros H. unfold Pyr.set_dend_props_key, dict_get. rewrite H. cbn.
  f_equal. apply map_eq. intros k.
  destruct (decide (key = k)) as [<-|Hne].
  - rewrite lookup_insert_eq, lookup_alter_eq, H. reflexivity.
  - rewrite lookup_insert_ne, lookup_alter_ne by done. reflexivity.
Qed.

Lemma set_dend_props_key_missing key p (ds : gmap string Sec) :
  ds !! key = None ->
  Pyr.set_dend_props_key key p ds = Raise (KeyError key).
Proof.
  intros H. unfold Pyr.set_dend_props_key, dict_get. rewrite H. reflexivity.
Qed.

Lemma set_dend_props_loop_ok props (ds : gmap string Sec) :
  Forall (fun kp => is_Some (ds !! fst kp)) props ->
  Pyr.set_dend_props_loop props ds = Ok (apply_all_props props ds).
Proof.
  revert ds. induction props as [|[k p] props IH]; intros ds H.
  - reflexivity.
  - inversion H as [|? ? [s Hs] Hrest]; subst. simpl in Hs.
    simpl. rewrite (set_dend_props_key_ok _ _ _ _ Hs). cbn.
    unfold apply_all_props in *. simpl. apply IH.
    eapply Forall_impl; [exact Hrest|].
    intros [k' p'] [s' Hs']. simpl in *.
    destruct (decide (k = k')) as [<-|Hne].
    + rewrite lookup_alter_eq, Hs'. eauto.
    + rewrite lookup_alter_ne by done. eauto.
Qed.

Lemma apply_all_props_lookup props (ds : gmap string Sec) k p :
  NoDup (map fst props) -> (k, p) ∈ props ->
  apply_all_props props ds !! k = apply_props p <$> ds !! k.
Proof.
  unfold apply_all_props. revert ds.
  induction props as [|[k' p'] props IH]; intros ds Hnd Hin.
  - inversion Hin.
  - simpl in Hnd. apply NoDup_cons in Hnd as [Hnotin Hnd].
    apply elem_of_cons in Hin as [Heq|Hin].
    + injection Heq as <- <-. simpl.
      assert (Hfr : forall (l : list (string * DendProps)) (d : gmap string Sec),
                 k ∉ map fst l ->
                 foldl (fun d kp => alter (apply_props (snd kp)) (fst kp) d) d l !! k = d !! k).
      { induction l as [|[a b] l IHl]; intros d Hni; [reflexivity|].
        simpl in *. rewrite IHl by (intros ?; apply Hni; right; done).
        apply lookup_alter_ne. intros ->. apply Hni. left. }
      rewrite Hfr by done. apply lookup_alter_eq.
    + simpl. rewrite IH by done.
      rewrite lookup_alter_ne; [done|].
      intros ->. apply Hnotin. apply list_elem_of_fmap. exists (k, p). done.
Qed.

Lemma apply_all_props_dom props (ds : gmap string Sec) :
  dom (apply_all_props props ds) = dom ds.
Proof.
  unfold apply_all_props. revert ds. induction props as [|[k p] props IH]; intros ds.
  - reflexivity.
  - simpl. rewrite IH. apply leibniz_equiv. apply dom_alter.
Qed.

(** ** Synapse creation *)

Lemma with_synapses_idem a b (c : Cell) :
  with_synapses a (with_synapses b c) = with_synapses a c.
Proof. reflexivity. Qed.

Lemma syn_at_soma_ok key r (p_syn : gmap string SynProps) p syn (c : Cell) :
  p_syn !! r = Some p ->
  Pyr.syn_at_soma key r p_syn (with_synapses syn c)
  = Ok (with_synapses (<[key := syn_create Soma 0.5 p]> syn) c).
Proof.
  intros Hp. unfold Pyr.syn_at_soma, dict_get. rewrite Hp. reflexivity.
Qed.

Lemma syn_at_dend_ok key d r (p_syn : gmap string SynProps) p syn (c : Cell) :
  is_Some (dends c !! d) -> p_syn !! r = Some p ->
  Pyr.syn_at_dend key d r p_syn (with_synapses syn c)
  = Ok (with_synapses (<[key := syn_create (Dend d) 0.5 p]> syn) c).
Proof.
  intros [s Hs] Hp. unfold Pyr.syn_at_dend, dict_get.
  change (dends (with_synapses syn c)) with (dends c).
  rewrite Hs, Hp. reflexivity.
Qed.

Lemma syn_at_dend_missing key d r (p_syn : gmap string SynProps) (c : Cell) :
  dends c !! d = None ->
  Pyr.syn_at_dend key d r p_syn c = Raise (KeyError d).
Proof.
  intros Hs. unfold Pyr.syn_at_dend, dict_get. rewrite Hs. reflexivity.
Qed.

Lemma synapse_create_ok (c : Cell) (p_syn : gmap string SynProps)
    (props : string -> SynProps) :
  is_Some (dends c !! "apical_oblique") ->
  is_Some (dends c !! "basal_2") ->
  is_Some (dends c !! "basal_3") ->
  is_Some (dends c !! "apical_tuft") ->
  (forall r, r ∈ ["ampa"; "nmda"; "gabaa"; "gabab"] -> p_syn !! r = Some (props r)) ->
  Pyr._synapse_create p_syn (with_synapses ∅ c)
  = Ok (with_synapses (registry (String.eqb (name c) "L5Pyr") props) c).
Proof.
  intros H1 H2 H3 H4 Hp.
  assert (Ha := Hp "ampa" ltac:(set_solver)).
  assert (Hn := Hp "nmda" ltac:(set_solver)).
  assert (Hga := Hp "gabaa" ltac:(set_solver)).
  assert (Hgb := Hp "gabab" ltac:(set_solver)).
  unfold Pyr._synapse_create.
  rewrite (syn_at_soma_ok _ _ _ _ _ _ Hga), bind_Ok.
  rewrite (syn_at_soma_ok _ _ _ _ _ _ Hgb), bind_Ok.
  rewrite (syn_at_dend_ok _ _ _ _ _ _ _ H1 Ha), bind_Ok.
  rewrite (syn_at_dend_ok _ _ _ _ _ _ _ H1 Hn), bind_Ok.
  rewrite (syn_at_dend_ok _ _ _ _ _ _ _ H2 Ha), bind_Ok.
  rewrite (syn_at_dend_ok _ _ _ _ _ _ _ H2 Hn), bind_Ok.
  rewrite (syn_at_dend_ok _ _ _ _ _ _ _ H3 Ha), bind_Ok.
  rewrite (syn_at_dend_ok _ _ _ _ _ _ _ H3 Hn), bind_Ok.
  rewrite (syn_at_dend_ok _ _ _ _ _ _ _ H4 Ha), bind_Ok.
  rewrite (syn_at_dend_ok _ _ _ _ _ _ _ H4 Hn), bind_Ok.
  change (name (with_synapses _ c)) with (name c).
  unfold registry. destruct (String.eqb (name c) "L5Pyr").
  - rewrite (syn_at_dend_ok _ _ _ _ _ _ _ H4 Hga). reflexivity.
  - reflexivity.
Qed.

Lemma get_syn_props_lookup p_all (c : Cell) r :
  r ∈ ["ampa"; "nmda"; "gabaa"; "gabab"] ->
  Pyr._get_syn_props p_all c !! r = Some (Pyr.syn_props_of p_all (name c) r).
Proof.
  intros H. unfold Pyr._get_syn_props.
  repeat (apply elem_of_cons in H as [->|H]);
    [ | | | | inversion H]; by simplify_map_eq.
Qed.

Lemma with_synapses_same (c : Cell) : with_synapses (synapses c) c = c.
Proof. destruct c; reflexivity. Qed.

Lemma synapse_create_fresh (c : Cell) (p_syn : gmap string SynProps)
    (props : string -> SynProps) :
  is_Some (dends c !! "apical_oblique") ->
  is_Some (dends c !! "basal_2") ->
  is_Some (dends c !! "basal_3") ->
  is_Some (dends c !! "apical_tuft") ->
  (forall r, r ∈ ["ampa"; "nmda"; "gabaa"; "gabab"] -> p_syn !! r = Some (props r)) ->
  synapses c = ∅ ->
  Pyr._synapse_create p_syn c
  = Ok (with_synapses (registry (String.eqb (name c) "L5Pyr") props) c).
Proof.
  intros H1 H2 H3 H4 Hp He.
  rewrite <- (with_synapses_same c) at 1. rewrite He.
  by apply synapse_create_ok.
Qed.

Lemma dom_eq_is_Some (m1 m2 : gmap string Sec) :
  (forall k, is_Some (m1 !! k) <-> is_Some (m2 !! k)) -> dom m1 = dom m2.
Proof.
  intros H. apply set_eq. intros k. rewrite !elem_of_dom. apply H.
Qed.

Lemma is_Some_dom (ds : gmap string Sec) (s : gset string) k :
  dom ds = s -> k ∈ s -> is_Some (ds !! k).
Proof. intros <- H. by apply elem_of_dom. Qed.

(** ** Reading a field after an update *)

Lemma name_with_yscale v (c : Cell) : name (with_yscale v c) = name c.
Proof. reflexivity. Qed.

Lemma celltype_with_yscale v (c : Cell) : celltype (with_yscale v c) = celltype c.
Proof. reflexivity. Qed.

Lemma soma_with_yscale v (c : Cell) : soma (with_yscale v c) = soma c.
Proof. reflexivity. Qed.

Lemma dends_with_yscale v (c : Cell) : dends (with_yscale v c) = dends c.
Proof. reflexivity. Qed.

Lemma synapses_with_yscale v (c : Cell) : synapses (with_yscale v c) = synapses c.
Proof. reflexivity. Qed.

Lemma yscale_with_yscale v (c : Cell) : yscale (with_yscale v c) = v.
Proof. reflexivity. Qed.

Lemma name_with_synapses v (c : Cell) : name (with_synapses v c) = name c.
Proof. reflexivity. Qed.

Lemma celltype_with_synapses v (c : Cell) : celltype (with_synapses v c) = celltype c.
Proof. reflexivity. Qed.

Lemma soma_with_synapses v (c : Cell) : soma (with_synapses v c) = soma c.
Proof. reflexivity. Qed.

Lemma dends_with_synapses v (c : Cell) : dends (with_synapses v c) = dends c.
Proof. reflexivity. Qed.

Lemma synapses_with_synapses v (c : Cell) : synapses (with_synapses v c) = v.
Proof. reflexivity. Qed.

Lemma yscale_with_synapses v (c : Cell) : yscale (with_synapses v c) = yscale c.
Proof. reflexivity. Qed.

Lemma name_with_dends v (c : Cell) : name (with_dends v c) = name c.
Proof. reflexivity. Qed.

Lemma celltype_with_dends v (c : Cell) : celltype (with_dends v c) = celltype c.
Proof. reflexivity. Qed.

Lemma soma_with_dends v (c : Cell) : soma (with_dends v c) = soma c.
Proof. reflexivity. Qed.

Lemma dends_with_dends v (c : Cell) : dends (with_dends v c) = v.
Proof. reflexivity. Qed.

Lemma synapses_with_dends v (c : Cell) : synapses (with_dends v c) = synapses c.
Proof. reflexivity. Qed.

Lemma yscale_with_dends v (c : Cell) : yscale (with_dends v c) = yscale c.
Proof. reflexivity. Qed.

Lemma name_with_soma v (c : Cell) : name (with_soma v c) = name c.
Proof. reflexivity. Qed.

Lemma celltype_with_soma v (c : Cell) : celltype (with_soma v c) = celltype c.
Proof. reflexivity. Qed.

Lemma soma_with_soma v (c : Cell) : soma (with_soma v c) = v.
Proof. reflexivity. Qed.

Lemma dends_with_soma v (c : Cell) : dends (with_soma v c) = dends c.
Proof. reflexivity. Qed.

Lemma synapses_with_soma v (c : Cell) : synapses (with_soma v c) = synapses c.
Proof. reflexivity. Qed.

Lemma yscale_with_soma v (c : Cell) : yscale (with_soma v c) = yscale c.
Proof. reflexivity. Qed.

Lemma name_with_celltype v (c : Cell) : name (with_celltype v c) = name c.
Proof. reflexivity. Qed.

Lemma celltype_with_celltype v (c : Cell) : celltype (with_celltype v c) = v.
Proof. reflexivity. Qed.

Lemma soma_with_celltype v (c : Cell) : soma (with_celltype v c) = soma c.
Proof. reflexivity. Qed.

Lemma dends_with_celltype v (c : Cell) : dends (with_celltype v c) = dends c.
Proof. reflexivity. Qed.

Lemma synapses_with_celltype v (c : Cell) : synapses (with_celltype v c) = synapses c.
Proof. reflexivity. Qed.

Lemma yscale_with_celltype v (c : Cell) : yscale (with_celltype v c) = yscale c.
Proof. reflexivity. Qed.

Create Rewrite HintDb cell.

#[global] Hint Rewrite
  name_with_yscale celltype_with_yscale soma_with_yscale dends_with_yscale
  synapses_with_yscale yscale_with_yscale name_with_synapses celltype_with_synapses
  soma_with_synapses dends_with_synapses synapses_with_synapses yscale_with_synapses
  name_with_dends celltype_with_dends soma_with_dends dends_with_dends
  synapses_with_dends yscale_with_dends name_with_soma celltype_with_soma
  soma_with_soma dends_with_soma synapses_with_soma yscale_with_soma
  name_with_celltype celltype_with_celltype soma_with_celltype dends_with_celltype
  synapses_with_celltype yscale_with_celltype
  : cell.

(** ** The cell [L2Pyr] builds *)

Lemma L2_skeleton_ok p_all shape3d g ps (p_dend : list (string * DendProps)) :
  (L2Pyr.topol shape3d
     (Pyr.create_dends (L2Built.dend_props p_all)
        (with_celltype "L2_pyramidal"
           (Pyr.__init__ g (L2Pyr._get_soma_props p_all ps))))
   ≫= L2Pyr.geom p_dend)
  = Pyr.set_dend_props p_dend (L2Built.skeleton p_all g ps).
Proof. vm_compute. reflexivity. Qed.

Lemma L2_skeleton_keys p_all :
  Forall (fun kp => is_Some (L2Built.skeleton_dends !! fst kp))
         (L2Built.dend_props p_all).
Proof. repeat constructor; vm_compute; eauto. Qed.

Lemma L2_skeleton_dom :
  dom L2Built.skeleton_dends =
  {[ "apical_trunk"; "apical_1"; "apical_tuft"; "apical_oblique";
     "basal_1"; "basal_2"; "basal_3" ]}.
Proof. vm_compute. reflexivity. Qed.

Lemma L2_equipped_lookup p_all g ps k :
  dends (L2Built.equipped p_all g ps) !! k
  = L2Pyr.biophys_dend p_all
      <$> apply_all_props (L2Built.dend_props p_all) L2Built.skeleton_dends !! k.
Proof.
  unfold L2Built.equipped, L2Pyr._biophys_dends, L2Pyr._biophys_soma,
    L2Built.geometry.
  autorewrite with cell. apply lookup_fmap.
Qed.

Lemma L2_equipped_dom p_all g ps :
  dom (dends (L2Built.equipped p_all g ps)) = dom L2Built.skeleton_dends.
Proof.
  transitivity (dom (apply_all_props (L2Built.dend_props p_all)
                        L2Built.skeleton_dends));
    [|apply apply_all_props_dom].
  apply dom_eq_is_Some. intros k.
  rewrite L2_equipped_lookup. apply fmap_is_Some.
Qed.

Lemma L2_init_wired p_all shape3d g ps :
  L2Pyr.__init__ p_all shape3d g ps
  = Pyr._synapse_create
      (Pyr._get_syn_props p_all (Pyr.__init__ g (L2Pyr._get_soma_props p_all ps)))
      (L2Built.wired p_all g ps).
Proof.
  unfold L2Pyr.__init__.
  change (Pyr._get_dend_props p_all (Pyr.__init__ g (L2Pyr._get_soma_props p_all ps)))
    with (L2Built.dend_props p_all).
  cbv zeta.
  rewrite <- (bind_assoc _ (L2Pyr.geom (L2Built.dend_props p_all))).
  rewrite L2_skeleton_ok.
  unfold Pyr.set_dend_props.
  unfold L2Built.skeleton at 1, skeleton_cell at 1. cbn [dends].
  rewrite set_dend_props_loop_ok by apply L2_skeleton_keys.
  rewrite !bind_Ok.
  reflexivity.
Qed.

Lemma L2_wired_synapses p_all g ps : synapses (L2Built.wired p_all g ps) = ∅.
Proof.
  unfold L2Built.wired, L2Built.equipped, L2Pyr._biophys_dends,
    L2Pyr._biophys_soma, L2Built.geometry.
  autorewrite with cell. reflexivity.
Qed.

Lemma L2_wired_name p_all g ps : name (L2Built.wired p_all g ps) = "L2Pyr".
Proof.
  unfold L2Built.wired, L2Built.equipped, L2Pyr._biophys_dends,
    L2Pyr._biophys_soma, L2Built.geometry.
  autorewrite with cell. reflexivity.
Qed.

Lemma L2_wired_dends p_all g ps :
  dends (L2Built.wired p_all g ps) = dends (L2Built.equipped p_all g ps).
Proof. unfold L2Built.wired. apply dends_with_yscale. Qed.

Lemma L2_init_eq p_all shape3d g ps :
  L2Pyr.__init__ p_all shape3d g ps = Ok (L2Built.built p_all g ps).
Proof.
  rewrite L2_init_wired.
  pose proof (L2_equipped_dom p_all g ps) as Hd. rewrite L2_skeleton_dom in Hd.
  rewrite <- L2_wired_dends in Hd.
  rewrite (synapse_create_fresh (L2Built.wired p_all g ps) _
             (Pyr.syn_props_of p_all "L2Pyr")).
  - rewrite L2_wired_name. reflexivity.
  - eapply is_Some_dom; [exact Hd | set_solver].
  - eapply is_Some_dom; [exact Hd | set_solver].
  - eapply is_Some_dom; [exact Hd | set_solver].
  - eapply is_Some_dom; [exact Hd | set_solver].
  - intros r Hr. apply get_syn_props_lookup. exact Hr.
  - apply L2_wired_synapses.
Qed.

(** ** The cell [L5Pyr] builds *)

Lemma L5_skeleton_ok p_all shape3d g ps (p_dend : list (string * DendProps)) :
  (L5Pyr.topol shape3d
     (Pyr.create_dends (L5Built.dend_props p_all)
        (with_celltype "L5Pyr"
           (Pyr.__init__ g (L5Pyr.__get_soma_props p_all ps))))
   ≫= L5Pyr.geom p_dend)
  = Pyr.set_dend_props p_dend (L5Built.skeleton p_all g ps).
Proof. vm_compute. reflexivity. Qed.

Lemma L5_skeleton_keys p_all :
  Forall (fun kp => is_Some (L5Built.skeleton_dends !! fst kp))
         (L5Built.dend_props p_all).
Proof. repeat constructor; vm_compute; eauto. Qed.

Lemma L5_skeleton_dom :
  dom L5Built.skeleton_dends =
  {[ "apical_trunk"; "apical_1"; "apical_2"; "apical_tuft";
     "apical_oblique"; "basal_1"; "basal_2"; "basal_3" ]}.
Proof. vm_compute. reflexivity. Qed.

Lemma L5_equipped_lookup p_all g ps k :
  dends (L5Built.equipped p_all g ps) !! k
  = (fun s => L5Pyr.gbar_ar_dend (L5Built.uniform p_all g ps) k
                (L5Pyr.biophys_dend p_all s))
      <$> apply_all_props (L5Built.dend_props p_all) L5Built.skeleton_dends !! k.
Proof.
  unfold L5Built.equipped, L5Pyr.__biophys_dends. cbv zeta.
  fold (L5Built.uniform p_all g ps).
  rewrite dends_with_dends, map_lookup_imap.
  unfold L5Built.uniform at 2, L5Pyr.__biophys_soma, L5Built.geometry.
  autorewrite with cell. rewrite lookup_fmap.
  destruct (apply_all_props _ _ !! k); reflexivity.
Qed.

Lemma L5_equipped_dom p_all g ps :
  dom (dends (L5Built.equipped p_all g ps)) = dom L5Built.skeleton_dends.
Proof.
  transitivity (dom (apply_all_props (L5Built.dend_props p_all)
                        L5Built.skeleton_dends));
    [|apply apply_all_props_dom].
  apply dom_eq_is_Some. intros k.
  rewrite L5_equipped_lookup. apply fmap_is_Some.
Qed.

Lemma L5_init_wired p_all shape3d g ps :
  L5Pyr.__init__ p_all shape3d g ps
  = Pyr._synapse_create
      (Pyr._get_syn_props p_all (Pyr.__init__ g (L5Pyr.__get_soma_props p_all ps)))
      (L5Built.wired p_all g ps).
Proof.
  unfold L5Pyr.__init__.
  change (Pyr._get_dend_props p_all (Pyr.__init__ g (L5Pyr.__get_soma_props p_all ps)))
    with (L5Built.dend_props p_all).
  cbv zeta.
  rewrite <- (bind_assoc _ (L5Pyr.geom (L5Built.dend_props p_all))).
  rewrite L5_skeleton_ok.
  unfold Pyr.set_dend_props.
  unfold L5Built.skeleton at 1, skeleton_cell at 1. cbn [dends].
  rewrite set_dend_props_loop_ok by apply L5_skeleton_keys.
  rewrite !bind_Ok.
  reflexivity.
Qed.

Lemma L5_wired_synapses p_all g ps : synapses (L5Built.wired p_all g ps) = ∅.
Proof.
  unfold L5Built.wired, L5Built.equipped, L5Pyr.__biophys_dends,
    L5Pyr.__biophys_soma, L5Built.geometry. cbv zeta.
  autorewrite with cell. reflexivity.
Qed.

Lemma L5_wired_name p_all g ps : name (L5Built.wired p_all g ps) = "L5Pyr".
Proof.
  unfold L5Built.wired, L5Built.equipped, L5Pyr.__biophys_dends,
    L5Pyr.__biophys_soma, L5Built.geometry. cbv zeta.
  autorewrite with cell. reflexivity.
Qed.

Lemma L5_wired_dends p_all g ps :
  dends (L5Built.wired p_all g ps) = dends (L5Built.equipped p_all g ps).
Proof. unfold L5Built.wired. apply dends_with_yscale. Qed.

Lemma L5_init_eq p_all shape3d g ps :
  L5Pyr.__init__ p_all shape3d g ps = Ok (L5Built.built p_all g ps).
Proof.
  rewrite L5_init_wired.
  pose proof (L5_equipped_dom p_all g ps) as Hd. rewrite L5_skeleton_dom in Hd.
  rewrite <- L5_wired_dends in Hd.
  rewrite (synapse_create_fresh (L5Built.wired p_all g ps) _
             (Pyr.syn_props_of p_all "L5Pyr")).
  - rewrite L5_wired_name. reflexivity.
  - eapply is_Some_dom; [exact Hd | set_solver].
  - eapply is_Some_dom; [exact Hd | set_solver].
  - eapply is_Some_dom; [exact Hd | set_solver].
  - eapply is_Some_dom; [exact Hd | set_solver].
  - intros r Hr. apply get_syn_props_lookup. exact Hr.
  - apply L5_wired_synapses.
Qed.

(** ** The segment-count rule *)

Lemma apply_props_L p s : sec_L (apply_props p s) = dp_L p.
Proof.
  unfold apply_props. destruct (Qgtb (dp_L p) 100); [|reflexivity].
  cbn [sec_nseg set_nseg]. destruct (_ =? 0); reflexivity.
Qed.

Lemma apply_props_parent p s : sec_parent (apply_props p s) = sec_parent s.
Proof.
  unfold apply_props. destruct (Qgtb (dp_L p) 100); [|reflexivity].
  cbn [sec_nseg set_nseg]. destruct (_ =? 0); reflexivity.
Qed.

Lemma apply_props_name p s : sec_name (apply_props p s) = sec_name s.
Proof.
  unfold apply_props. destruct (Qgtb (dp_L p) 100); [|reflexivity].
  cbn [sec_nseg set_nseg]. destruct (_ =? 0); reflexivity.
Qed.

Lemma Qdiv50_nonneg (l : Q) : (100 < l)%Q -> (0 <= l / 50)%Q.
Proof.
  intros H. apply Qle_shift_div_l; [reflexivity|].
  apply Qlt_le_weak. eapply Qlt_trans; [|exact H]. reflexivity.
Qed.

Lemma apply_props_nseg p s :
  sec_nseg (apply_props p s)
  = if Qgtb (dp_L p) 100 then segment_count (dp_L p) else sec_nseg s.
Proof.
  unfold apply_props, segment_count.
  destruct (Qgtb (dp_L p) 100) eqn:E; [|reflexivity].
  apply Qgtb_lt in E. cbn [sec_nseg set_nseg].
  rewrite (int_floor _ (Qdiv50_nonneg _ E)).
  destruct (Qfloor (dp_L p / 50) mod 2 =? 0) eqn:M.
  - cbn [sec_nseg set_nseg].
    apply Z.eqb_eq in M.
    assert (Z.even (Qfloor (dp_L p / 50)) = true) as ->; [|reflexivity].
    rewrite Zeven_mod. apply Z.eqb_eq. exact M.
  - cbn [sec_nseg set_nseg].
    assert (Z.even (Qfloor (dp_L p / 50)) = false) as ->; [|reflexivity].
    rewrite Zeven_mod. exact M.
Qed.

Lemma segment_count_odd (l : Q) : Z.odd (segment_count l) = true.
Proof.
  unfold segment_count. destruct (Qgtb l 100); [|reflexivity].
  cbv zeta. destruct (Z.even (Qfloor (l / 50))) eqn:E.
  - rewrite Z.odd_add, <- Z.negb_even, E. reflexivity.
  - rewrite <- Z.negb_even, E. reflexivity.
Qed.

Lemma segment_count_Qeq (l l' : Q) : (l == l')%Q -> segment_count l = segment_count l'.
Proof.
  intros H. unfold segment_count, Qgtb.
  assert (Qle_bool l 100 = Qle_bool l' 100) as ->.
  { destruct (Qle_bool l 100) eqn:A, (Qle_bool l' 100) eqn:B; try reflexivity.
    - apply Qle_bool_iff in A. rewrite H in A. apply Qle_bool_iff in A. congruence.
    - apply Qle_bool_iff in B. rewrite <- H in B. apply Qle_bool_iff in B. congruence. }
  assert (Qfloor (l / 50) = Qfloor (l' / 50)) as ->; [|reflexivity].
  apply Qfloor_comp. rewrite H. reflexivity.
Qed.

Lemma apply_all_props_lookup_Some props (ds : gmap string Sec) k s :
  NoDup (map fst props) ->
  (forall k', is_Some (ds !! k') -> k' ∈ map fst props) ->
  apply_all_props props ds !! k = Some s ->
  exists p s0, (k, p) ∈ props /\ ds !! k = Some s0 /\ s = apply_props p s0.
Proof.
  intros Hnd Hdom Hs.
  assert (is_Some (ds !! k)) as [s0 Hs0].
  { apply elem_of_dom. rewrite <- (apply_all_props_dom props).
    apply elem_of_dom. eauto. }
  assert (k ∈ map fst props) as Hk by (apply Hdom; eauto).
  apply list_elem_of_fmap in Hk as [[k' p] [-> Hin]]. simpl in *.
  exists p, s0. split; [exact Hin|]. split; [exact Hs0|].
  rewrite (apply_all_props_lookup _ _ _ _ Hnd Hin), Hs0 in Hs.
  simpl in Hs. congruence.
Qed.

Lemma NoDup_L2_keys p_all : NoDup (map fst (L2Built.dend_props p_all)).
Proof. apply (bool_decide_unpack _). vm_compute. reflexivity. Qed.

Lemma NoDup_L5_keys p_all : NoDup (map fst (L5Built.dend_props p_all)).
Proof. apply (bool_decide_unpack _). vm_compute. reflexivity. Qed.

Lemma L2_skeleton_in_props p_all k :
  is_Some (L2Built.skeleton_dends !! k) -> k ∈ map fst (L2Built.dend_props p_all).
Proof.
  intros [s0 H]. apply elem_of_list_to_map_2 in H.
  cbn [map fst L2Built.dend_props].
  repeat (apply elem_of_cons in H as [H|H];
          [inversion H; subst; repeat constructor|]).
  inversion H.
Qed.

Lemma L5_skeleton_in_props p_all k :
  is_Some (L5Built.skeleton_dends !! k) -> k ∈ map fst (L5Built.dend_props p_all).
Proof.
  intros [s0 H]. apply elem_of_list_to_map_2 in H.
  cbn [map fst L5Built.dend_props].
  repeat (apply elem_of_cons in H as [H|H];
          [inversion H; subst; repeat constructor|]).
  inversion H.
Qed.

Lemma L2_built_dends p_all g ps :
  dends (L2Built.built p_all g ps) = dends (L2Built.equipped p_all g ps).
Proof.
  unfold L2Built.built. cbv zeta. rewrite dends_with_synapses.
  apply L2_wired_dends.
Qed.

Lemma L5_built_dends p_all g ps :
  dends (L5Built.built p_all g ps) = dends (L5Built.equipped p_all g ps).
Proof.
  unfold L5Built.built. cbv zeta. rewrite dends_with_synapses.
  apply L5_wired_dends.
Qed.

(** Every dendrite of the cell [L2Pyr] builds is a section of the skeleton
    with its resolved properties applied and the biophysics inserted. *)
Lemma L2_built_dend p_all g ps key s :
  dends (L2Built.built p_all g ps) !! key = Some s ->
  exists p s0,
    (key, p) ∈ L2Built.dend_props p_all /\
    L2Built.skeleton_dends !! key = Some s0 /\
    s = L2Pyr.biophys_dend p_all (apply_props p s0).
Proof.
  rewrite L2_built_dends, L2_equipped_lookup. intros H.
  apply fmap_Some in H as [s1 [H1 ->]].
  apply apply_all_props_lookup_Some in H1 as (p & s0 & Hin & Hs0 & ->);
    [|apply NoDup_L2_keys|apply L2_skeleton_in_props].
  exists p, s0. auto.
Qed.

Lemma L5_built_dend p_all g ps key s :
  dends (L5Built.built p_all g ps) !! key = Some s ->
  exists p s0,
    (key, p) ∈ L5Built.dend_props p_all /\
    L5Built.skeleton_dends !! key = Some s0 /\
    s = L5Pyr.gbar_ar_dend (L5Built.uniform p_all g ps) key
          (L5Pyr.biophys_dend p_all (apply_props p s0)).
Proof.
  rewrite L5_built_dends, L5_equipped_lookup. intros H.
  apply fmap_Some in H as [s1 [H1 ->]].
  apply apply_all_props_lookup_Some in H1 as (p & s0 & Hin & Hs0 & ->);
    [|apply NoDup_L5_keys|apply L5_skeleton_in_props].
  exists p, s0. auto.
Qed.

Lemma L2_skeleton_nseg k s0 :
  L2Built.skeleton_dends !! k = Some s0 -> sec_nseg s0 = 1.
Proof.
  intros H. apply elem_of_list_to_map_2 in H.
  repeat (apply elem_of_cons in H as [H|H]; [inversion H; reflexivity|]).
  inversion H.
Qed.

Lemma L5_skeleton_nseg k s0 :
  L5Built.skeleton_dends !! k = Some s0 -> sec_nseg s0 = 1.
Proof.
  intros H. apply elem_of_list_to_map_2 in H.
  repeat (apply elem_of_cons in H as [H|H]; [inversion H; reflexivity|]).
  inversion H.
Qed.

Lemma L2_dend_props_eq p_all g ps :
  Pyr._get_dend_props p_all (L2Built.built p_all g ps) = L2Built.dend_props p_all.
Proof.
  unfold Pyr._get_dend_props, L2Built.built. cbv zeta.
  rewrite name_with_synapses, L2_wired_name. reflexivity.
Qed.

Lemma L5_dend_props_eq p_all g ps :
  Pyr._get_dend_props p_all (L5Built.built p_all g ps) = L5Built.dend_props p_all.
Proof.
  unfold Pyr._get_dend_props, L5Built.built. cbv zeta.
  rewrite name_with_synapses, L5_wired_name. reflexivity.
Qed.

Lemma built_by_cases p_all g ps c :
  built_by p_all g ps c ->
  c = L2Built.built p_all g ps \/ c = L5Built.built p_all g ps.
Proof.
  intros [shape3d [H|H]];
    [rewrite L2_init_eq in H|rewrite L5_init_eq in H];
    injection H as <-; auto.
Qed.

(** The segment count of a dendrite of a built cell is the one the rule
    gives for its resolved length, which is the length the section has. *)
Lemma built_segment_count p_all g ps c key s :
  built_by p_all g ps c -> dends c !! key = Some s ->
  (exists p, (key, p) ∈ Pyr._get_dend_props p_all c /\ sec_L s = dp_L p) /\
  sec_nseg s = segment_count (sec_L s).
Proof.
  intros Hb Hs. apply built_by_cases in Hb as [-> | ->].
  - rewrite L2_dend_props_eq.
    apply L2_built_dend in Hs as (p & s0 & Hin & Hs0 & ->).
    change (sec_L (L2Pyr.biophys_dend p_all (apply_props p s0)))
      with (sec_L (apply_props p s0)).
    change (sec_nseg (L2Pyr.biophys_dend p_all (apply_props p s0)))
      with (sec_nseg (apply_props p s0)).
    rewrite apply_props_L, apply_props_nseg, (L2_skeleton_nseg _ _ Hs0).
    split; [eauto|].
    unfold segment_count. destruct (Qgtb (dp_L p) 100); reflexivity.
  - rewrite L5_dend_props_eq.
    apply L5_built_dend in Hs as (p & s0 & Hin & Hs0 & ->).
    change (sec_L (L5Pyr.gbar_ar_dend (L5Built.uniform p_all g ps) key
                     (L5Pyr.biophys_dend p_all (apply_props p s0))))
      with (sec_L (apply_props p s0)).
    change (sec_nseg (L5Pyr.gbar_ar_dend (L5Built.uniform p_all g ps) key
                     (L5Pyr.biophys_dend p_all (apply_props p s0))))
      with (sec_nseg (apply_props p s0)).
    rewrite apply_props_L, apply_props_nseg, (L5_skeleton_nseg _ _ Hs0).
    split; [eauto|].
    unfold segment_count. destruct (Qgtb (dp_L p) 100); reflexivity.
Qed.

(** C1.  For every dendrite of a cell either constructor builds, the
    section has its resolved length, and: if that length exceeds 100 the
    segment count is [floor(length/50)], plus one when that is even, and
    is odd; if the length is at most 100 the segment count is 1.  Length
    150 gives 3 segments, length 200 gives 5 and length 80 gives 1. *)
Theorem C1_segment_count p_all g ps c key s :
  built_by p_all g ps c ->
  dends c !! key = Some s ->
  (exists p, (key, p) ∈ Pyr._get_dend_props p_all c /\ sec_L s = dp_L p) /\
  ((100 < sec_L s)%Q ->
     sec_nseg s = (if Z.even (Qfloor (sec_L s / 50))
                   then Qfloor (sec_L s / 50) + 1
                   else Qfloor (sec_L s / 50)) /\
     Z.odd (sec_nseg s) = true) /\
  ((sec_L s <= 100)%Q -> sec_nseg s = 1) /\
  ((sec_L s == 150)%Q -> sec_nseg s = 3) /\
  ((sec_L s == 200)%Q -> sec_nseg s = 5) /\
  ((sec_L s == 80)%Q -> sec_nseg s = 1).
Proof.
  intros Hb Hs.
  destruct (built_segment_count _ _ _ _ _ _ Hb Hs) as [Hres Hn].
  split; [exact Hres|]. rewrite Hn.
  split; [|split; [|split; [|split]]].
  - intros Hl. split; [|apply segment_count_odd].
    unfold segment_count. apply Qgtb_lt in Hl. rewrite Hl. reflexivity.
  - intros Hl. unfold segment_count.
    destruct (Qgtb (sec_L s) 100) eqn:E; [|reflexivity].
    apply Qgtb_lt in E. exfalso. eapply Qlt_not_le; eauto.
  - intros Hl. rewrite (segment_count_Qeq _ _ Hl). reflexivity.
  - intros Hl. rewrite (segment_count_Qeq _ _ Hl). reflexivity.
  - intros Hl. rewrite (segment_count_Qeq _ _ Hl). reflexivity.
Qed.

Lemma example_L2_apical_1 :
  exists s,
    dends (L2Built.built example_params 0 (PNum 0)) !! "apical_1" = Some s /\
    sec_L s = 200%Q.
Proof.
  rewrite L2_built_dends, L2_equipped_lookup.
  rewrite (apply_all_props_lookup _ _ "apical_1"
             (Pyr.dend_props_of example_params "L2Pyr" "apical1")
             (NoDup_L2_keys _)) by (repeat constructor).
  destruct (L2Built.skeleton_dends !! "apical_1") as [s0|] eqn:E;
    [|vm_compute in E; discriminate].
  eexists. split; [reflexivity|].
  change (sec_L (L2Pyr.biophys_dend example_params
                   (apply_props (Pyr.dend_props_of example_params "L2Pyr" "apical1") s0)))
    with (sec_L (apply_props (Pyr.dend_props_of example_params "L2Pyr" "apical1") s0)).
  rewrite apply_props_L. reflexivity.
Qed.

(** The rule at work: the first apical segment of an [L2Pyr] cell whose
    resolved length is 200 has 5 segments. *)
Lemma C1_segment_count_witness :
  exists c s,
    built_by example_params 0 (PNum 0) c /\
    dends c !! "apical_1" = Some s /\
    sec_L s = 200%Q /\ sec_nseg s = 5.
Proof.
  destruct example_L2_apical_1 as (s & Hs & HL).
  exists (L2Built.built example_params 0 (PNum 0)), s.
  assert (Hb : built_by example_params 0 (PNum 0)
                 (L2Built.built example_params 0 (PNum 0)))
    by (exists example_shape; left; apply L2_init_eq).
  split; [exact Hb|]. split; [exact Hs|]. split; [exact HL|].
  apply (C1_segment_count example_params 0 (PNum 0) _ "apical_1" s Hb Hs).
  rewrite HL. reflexivity.
Defined.

(** ** The compartment tree *)

Lemma apply_all_props_parents props (ds : gmap string Sec) :
  sec_parent <$> apply_all_props props ds = sec_parent <$> ds.
Proof.
  unfold apply_all_props. revert ds.
  induction props as [|[k p] props IH]; intros ds; [reflexivity|].
  simpl. rewrite IH. apply map_eq. intros k'.
  rewrite !lookup_fmap. destruct (decide (k = k')) as [<-|Hne].
  - rewrite lookup_alter_eq. destruct (ds !! k); [|reflexivity].
    simpl. rewrite apply_props_parent. reflexivity.
  - rewrite lookup_alter_ne by exact Hne. reflexivity.
Qed.

Lemma L2_built_parents p_all g ps :
  sec_parent <$> dends (L2Built.built p_all g ps)
  = sec_parent <$> L2Built.skeleton_dends.
Proof.
  rewrite <- (apply_all_props_parents (L2Built.dend_props p_all)
                L2Built.skeleton_dends).
  apply map_eq. intros k.
  rewrite !lookup_fmap, L2_built_dends, L2_equipped_lookup.
  destruct (apply_all_props _ _ !! k); reflexivity.
Qed.

Lemma L5_built_parents p_all g ps :
  sec_parent <$> dends (L5Built.built p_all g ps)
  = sec_parent <$> L5Built.skeleton_dends.
Proof.
  rewrite <- (apply_all_props_parents (L5Built.dend_props p_all)
                L5Built.skeleton_dends).
  apply map_eq. intros k.
  rewrite !lookup_fmap, L5_built_dends, L5_equipped_lookup.
  destruct (apply_all_props _ _ !! k); reflexivity.
Qed.

Lemma L2_skeleton_pattern : sec_parent <$> L2Built.skeleton_dends = L2_pattern.
Proof. vm_compute. reflexivity. Qed.

Lemma L5_skeleton_pattern : sec_parent <$> L5Built.skeleton_dends = L5_pattern.
Proof. vm_compute. reflexivity. Qed.

(** Whether a section hangs under the soma is decided by the parents
    alone. *)
Lemma under_soma_parents (ds ds' : gmap string Sec) n r :
  sec_parent <$> ds = sec_parent <$> ds' ->
  Pyr.under_soma n ds r = Pyr.under_soma n ds' r.
Proof.
  intros H. revert r. induction n as [|n IH]; intros [|k]; try reflexivity.
  cbn [Pyr.under_soma].
  assert (Hk : sec_parent <$> ds !! k = sec_parent <$> ds' !! k)
    by (rewrite <- !lookup_fmap, H; reflexivity).
  destruct (ds !! k) as [s|] eqn:E1, (ds' !! k) as [s'|] eqn:E2;
    cbn in Hk; try discriminate; try reflexivity.
  injection Hk as ->. destruct (sec_parent s'); [apply IH|reflexivity].
Qed.

Lemma size_parents (ds ds' : gmap string Sec) :
  sec_parent <$> ds = sec_parent <$> ds' -> size ds = size ds'.
Proof.
  intros H. rewrite <- (map_size_fmap sec_parent ds), H.
  apply map_size_fmap.
Qed.

Lemma is_Some_parents (ds ds' : gmap string Sec) k :
  sec_parent <$> ds = sec_parent <$> ds' ->
  is_Some (ds !! k) -> is_Some (ds' !! k).
Proof.
  intros H Hk. apply (fmap_is_Some sec_parent).
  rewrite <- lookup_fmap, <- H, lookup_fmap. apply fmap_is_Some. exact Hk.
Qed.

Lemma L2_skeleton_rooted k :
  is_Some (L2Built.skeleton_dends !! k) ->
  Pyr.under_soma (size L2Built.skeleton_dends) L2Built.skeleton_dends (Dend k) = true.
Proof.
  intros [s0 H]. apply elem_of_list_to_map_2 in H.
  repeat (apply elem_of_cons in H as [H|H];
          [inversion H; subst; vm_compute; reflexivity|]).
  inversion H.
Qed.

Lemma L5_skeleton_rooted k :
  is_Some (L5Built.skeleton_dends !! k) ->
  Pyr.under_soma (size L5Built.skeleton_dends) L5Built.skeleton_dends (Dend k) = true.
Proof.
  intros [s0 H]. apply elem_of_list_to_map_2 in H.
  repeat (apply elem_of_cons in H as [H|H];
          [inversion H; subst; vm_compute; reflexivity|]).
  inversion H.
Qed.

Lemma L2_built_soma_root p_all g ps :
  sec_parent (soma (L2Built.built p_all g ps)) = None.
Proof.
  unfold L2Built.built, L2Built.wired, L2Built.equipped,
    L2Pyr._biophys_dends, L2Pyr._biophys_soma.
  cbv zeta. autorewrite with cell. reflexivity.
Qed.

Lemma L5_built_soma_root p_all g ps :
  sec_parent (soma (L5Built.built p_all g ps)) = None.
Proof.
  unfold L5Built.built, L5Built.wired, L5Built.equipped,
    L5Pyr.__biophys_dends, L5Pyr.__biophys_soma.
  cbv zeta. autorewrite with cell. reflexivity.
Qed.

Lemma L2_built_rooted p_all g ps : rooted_at_soma (L2Built.built p_all g ps).
Proof.
  split; [apply L2_built_soma_root|]. intros k Hk.
  pose proof (L2_built_parents p_all g ps) as Hp.
  rewrite (size_parents _ _ Hp), (under_soma_parents _ _ _ _ Hp).
  apply L2_skeleton_rooted. eapply is_Some_parents; eauto.
Qed.

Lemma L5_built_rooted p_all g ps : rooted_at_soma (L5Built.built p_all g ps).
Proof.
  split; [apply L5_built_soma_root|]. intros k Hk.
  pose proof (L5_built_parents p_all g ps) as Hp.
  rewrite (size_parents _ _ Hp), (under_soma_parents _ _ _ _ Hp).
  apply L5_skeleton_rooted. eapply is_Some_parents; eauto.
Qed.

(** C7.  Both constructors return a cell.  The dendrites of the [L2Pyr]
    cell and the points they are attached to are exactly the seven of the
    fixed pattern, those of the [L5Pyr] cell exactly the eight, the
    additional one being [apical_2]; in both the soma is the single root
    of a tree without cycles. *)
Theorem C7_tree_topology p_all shape3d g ps :
  (exists c, L2Pyr.__init__ p_all shape3d g ps = Ok c /\
     sec_parent <$> dends c = L2_pattern /\
     size (dends c) = 7%nat /\
     rooted_at_soma c) /\
  (exists c, L5Pyr.__init__ p_all shape3d g ps = Ok c /\
     sec_parent <$> dends c = L5_pattern /\
     size (dends c) = 8%nat /\
     rooted_at_soma c) /\
  dom L5_pattern = dom L2_pattern ∪ {["apical_2"]} /\
  ("apical_2" ∉ dom L2_pattern).
Proof.
  split; [|split; [|split]].
  - exists (L2Built.built p_all g ps).
    split; [apply L2_init_eq|].
    split; [rewrite L2_built_parents; apply L2_skeleton_pattern|].
    split; [|apply L2_built_rooted].
    rewrite (size_parents _ _ (L2_built_parents p_all g ps)).
    vm_compute. reflexivity.
  - exists (L5Built.built p_all g ps).
    split; [apply L5_init_eq|].
    split; [rewrite L5_built_parents; apply L5_skeleton_pattern|].
    split; [|apply L5_built_rooted].
    rewrite (size_parents _ _ (L5_built_parents p_all g ps)).
    vm_compute. reflexivity.
  - vm_compute. reflexivity.
  - apply (bool_decide_unpack _). vm_compute. reflexivity.
Qed.

(** ** The synapse registry *)

Lemma registry_placements l5 p_syn :
  registry l5 p_syn = list_to_map (placements l5 p_syn).
Proof. destruct l5; vm_compute; reflexivity. Qed.

Lemma L2_built_synapses p_all g ps :
  synapses (L2Built.built p_all g ps)
  = registry false (Pyr.syn_props_of p_all "L2Pyr").
Proof. unfold L2Built.built. cbv zeta. apply synapses_with_synapses. Qed.

Lemma L5_built_synapses p_all g ps :
  synapses (L5Built.built p_all g ps)
  = registry true (Pyr.syn_props_of p_all "L5Pyr").
Proof. unfold L5Built.built. cbv zeta. apply synapses_with_synapses. Qed.

Lemma placements_midpoint l5 p_syn key s :
  (key, s) ∈ placements l5 p_syn -> syn_x s = 0.5%Q.
Proof.
  intros H. unfold placements in H. apply elem_of_app in H as [H|H].
  - repeat (apply elem_of_cons in H as [H|H]; [inversion H; reflexivity|]).
    inversion H.
  - destruct l5; [|inversion H].
    apply elem_of_cons in H as [H|H]; [inversion H; reflexivity|inversion H].
Qed.

(** C6.  Both constructors return a cell whose synapse registry is the
    attachment map of its subtype: the keys are the ten names
    [<location>_<receptor>], eleven with [apicaltuft_gabaa] for [L5Pyr],
    each synapse sits where the map says and holds the parameters of its
    receptor, and every one is at position 0.5 of its compartment. *)
Theorem C6_synapse_registry p_all shape3d g ps :
  (exists c, L2Pyr.__init__ p_all shape3d g ps = Ok c /\
     synapses c = list_to_map (placements false (Pyr.syn_props_of p_all "L2Pyr")) /\
     dom (synapses c)
     = {[ "soma_gabaa"; "soma_gabab";
          "apicaloblique_ampa"; "apicaloblique_nmda";
          "basal2_ampa"; "basal2_nmda"; "basal3_ampa"; "basal3_nmda";
          "apicaltuft_ampa"; "apicaltuft_nmda" ]} /\
     (forall key s, synapses c !! key = Some s -> syn_x s = 0.5%Q)) /\
  (exists c, L5Pyr.__init__ p_all shape3d g ps = Ok c /\
     synapses c = list_to_map (placements true (Pyr.syn_props_of p_all "L5Pyr")) /\
     dom (synapses c)
     = {[ "soma_gabaa"; "soma_gabab";
          "apicaloblique_ampa"; "apicaloblique_nmda";
          "basal2_ampa"; "basal2_nmda"; "basal3_ampa"; "basal3_nmda";
          "apicaltuft_ampa"; "apicaltuft_nmda"; "apicaltuft_gabaa" ]} /\
     (forall key s, synapses c !! key = Some s -> syn_x s = 0.5%Q)).
Proof.
  split.
  - exists (L2Built.built p_all g ps). split; [apply L2_init_eq|].
    rewrite L2_built_synapses, registry_placements.
    split; [reflexivity|]. split; [vm_compute; reflexivity|].
    intros key s H. apply elem_of_list_to_map_2 in H.
    eapply placements_midpoint; eauto.
  - exists (L5Built.built p_all g ps). split; [apply L5_init_eq|].
    rewrite L5_built_synapses, registry_placements.
    split; [reflexivity|]. split; [vm_compute; reflexivity|].
    intros key s H. apply elem_of_list_to_map_2 in H.
    eapply placements_midpoint; eauto.
Qed.

(** ** A dendrite that is not there *)

Lemma syn_at_dend_absent key d r (p_syn : gmap string SynProps) syn (c : Cell) :
  dends c !! d = None ->
  Pyr.syn_at_dend key d r p_syn (with_synapses syn c) = Raise (KeyError d).
Proof.
  intros Hs. unfold Pyr.syn_at_dend, dict_get.
  rewrite dends_with_synapses, Hs. reflexivity.
Qed.

Lemma bind_Raise {A B} e (k : A -> res B) : (Raise e ≫= k) = Raise e.
Proof. reflexivity. Qed.

(** What [_synapse_create] does on any cell, by the first dendrite of
    [synapse_dends] that is missing. *)
Lemma synapse_create_missing (c : Cell) (p_syn : gmap string SynProps) :
  (forall r, r ∈ ["ampa"; "nmda"; "gabaa"; "gabab"] -> is_Some (p_syn !! r)) ->
  match List.find (fun d => negb (dict_has (dends c) d)) synapse_dends with
  | Some d => Pyr._synapse_create p_syn c = Raise (KeyError d)
  | None => is_ok (Pyr._synapse_create p_syn c) = true
  end.
Proof.
  intros Hp.
  destruct (Hp "ampa" ltac:(repeat constructor)) as [pa Ha].
  destruct (Hp "nmda" ltac:(repeat constructor)) as [pn Hn].
  destruct (Hp "gabaa" ltac:(repeat constructor)) as [pga Hga].
  destruct (Hp "gabab" ltac:(repeat constructor)) as [pgb Hgb].
  assert (Hc : Pyr._synapse_create p_syn c
               = Pyr._synapse_create p_syn (with_synapses (synapses c) c))
    by (rewrite with_synapses_same; reflexivity).
  rewrite Hc. clear Hc.
  unfold Pyr._synapse_create.
  rewrite (syn_at_soma_ok _ _ _ _ _ _ Hga), bind_Ok.
  rewrite (syn_at_soma_ok _ _ _ _ _ _ Hgb), bind_Ok.
  unfold synapse_dends, dict_has. cbn [List.find].
  destruct (dends c !! "apical_oblique") as [s1|] eqn:E1; cbn [negb];
    [|rewrite (syn_at_dend_absent _ _ _ _ _ _ E1); reflexivity].
  rewrite (syn_at_dend_ok _ _ _ _ _ _ _ (mk_is_Some _ _ E1) Ha), bind_Ok.
  rewrite (syn_at_dend_ok _ _ _ _ _ _ _ (mk_is_Some _ _ E1) Hn), bind_Ok.
  destruct (dends c !! "basal_2") as [s2|] eqn:E2; cbn [negb];
    [|rewrite (syn_at_dend_absent _ _ _ _ _ _ E2); reflexivity].
  rewrite (syn_at_dend_ok _ _ _ _ _ _ _ (mk_is_Some _ _ E2) Ha), bind_Ok.
  rewrite (syn_at_dend_ok _ _ _ _ _ _ _ (mk_is_Some _ _ E2) Hn), bind_Ok.
  destruct (dends c !! "basal_3") as [s3|] eqn:E3; cbn [negb];
    [|rewrite (syn_at_dend_absent _ _ _ _ _ _ E3); reflexivity].
  rewrite (syn_at_dend_ok _ _ _ _ _ _ _ (mk_is_Some _ _ E3) Ha), bind_Ok.
  rewrite (syn_at_dend_ok _ _ _ _ _ _ _ (mk_is_Some _ _ E3) Hn), bind_Ok.
  destruct (dends c !! "apical_tuft") as [s4|] eqn:E4; cbn [negb];
    [|rewrite (syn_at_dend_absent _ _ _ _ _ _ E4); reflexivity].
  rewrite (syn_at_dend_ok _ _ _ _ _ _ _ (mk_is_Some _ _ E4) Ha), bind_Ok.
  rewrite (syn_at_dend_ok _ _ _ _ _ _ _ (mk_is_Some _ _ E4) Hn), bind_Ok.
  rewrite name_with_synapses.
  destruct (String.eqb (name c) "L5Pyr"); [|reflexivity].
  rewrite (syn_at_dend_ok _ _ _ _ _ _ _ (mk_is_Some _ _ E4) Hga). reflexivity.
Qed.

Lemma find_Some_elem {A} (f : A -> bool) (l : list A) x :
  List.find f l = Some x -> x ∈ l /\ f x = true.
Proof.
  intros H. apply find_some in H as [H1 H2]. split; [|exact H2].
  apply list_elem_of_In. exact H1.
Qed.

Lemma find_None_elem {A} (f : A -> bool) (l : list A) x :
  List.find f l = None -> x ∈ l -> f x = false.
Proof.
  intros H Hx. apply list_elem_of_In in Hx.
  exact (find_none f l H x Hx).
Qed.

Lemma dict_has_false {V} (d : gmap string V) k :
  negb (dict_has d k) = true <-> d !! k = None.
Proof. unfold dict_has. destruct (d !! k); simpl; split; congruence. Qed.

Lemma find_Some_split {A} (f : A -> bool) (l : list A) x :
  List.find f l = Some x ->
  exists pre post, l = pre ++ x :: post /\ f x = true /\
    forall y, y ∈ pre -> f y = false.
Proof.
  induction l as [|a l IH]; [discriminate|]. cbn [List.find].
  destruct (f a) eqn:Ea.
  - intros H. injection H as <-. exists [], l.
    split; [reflexivity|]. split; [exact Ea|]. intros y Hy. inversion Hy.
  - intros H. destruct (IH H) as (pre & post & -> & Hx & Hpre).
    exists (a :: pre), post. split; [reflexivity|]. split; [exact Hx|].
    intros y Hy. apply elem_of_cons in Hy as [->|Hy]; [exact Ea|].
    apply Hpre, Hy.
Qed.

Lemma dict_has_true {V} (d : gmap string V) k :
  negb (dict_has d k) = false <-> is_Some (d !! k).
Proof.
  unfold dict_has. destruct (d !! k); simpl; split; intros H;
    try reflexivity; try discriminate; eauto.
  destruct H as [? H]. discriminate.
Qed.

Lemma example_p_syn_complete r :
  r ∈ ["ampa"; "nmda"; "gabaa"; "gabab"] -> is_Some (example_p_syn !! r).
Proof.
  intros H. unfold example_p_syn. rewrite get_syn_props_lookup by exact H.
  eauto.
Qed.




(** ** External drives *)

Lemma dict_get_Some {V} (d : gmap string V) k v :
  d !! k = Some v -> dict_get d k = Ok v.
Proof. intros H. unfold dict_get. rewrite H. reflexivity. Qed.

Lemma dict_has_Some {V} (d : gmap string V) k v :
  d !! k = Some v -> dict_has d k = true.
Proof. intros H. unfold dict_has. rewrite H. reflexivity. Qed.

Lemma ext_nc_dict_ok type pos_key lamtha_key widx g
    (pos_dict : gmap string (list pval)) (p_ext : gmap string pval)
    (c : Cell) ps src pc w dly lam thr :
  pos_dict !! pos_key = Some ps -> seq_get ps g = Ok src ->
  p_ext !! celltype c = Some pc ->
  subscript pc widx = Ok w -> subscript pc 2 = Ok dly ->
  p_ext !! lamtha_key = Some lam -> p_ext !! "threshold" = Some thr ->
  Pyr.ext_nc_dict type pos_key lamtha_key widx g pos_dict p_ext c
  = Ok {| pos_src := src; A_weight := w; A_delay := dly; lamtha := lam;
          threshold := thr; type_src := type |}.
Proof.
  intros H1 H2 H3 H4 H5 H6 H7. unfold Pyr.ext_nc_dict.
  rewrite (dict_get_Some _ _ _ H1), bind_Ok, H2, bind_Ok.
  rewrite (dict_get_Some _ _ _ H3), bind_Ok, H4, !bind_Ok, H5, bind_Ok.
  rewrite (dict_get_Some _ _ _ H6), bind_Ok.
  rewrite (dict_get_Some _ _ _ H7), bind_Ok. reflexivity.
Qed.

Lemma subscript_0 a l : subscript (PSeq (a :: l)) 0 = Ok a.
Proof. reflexivity. Qed.

Lemma subscript_1 a b l : subscript (PSeq (a :: b :: l)) 1 = Ok b.
Proof. reflexivity. Qed.

Lemma subscript_2 a b d l : subscript (PSeq (a :: b :: d :: l)) 2 = Ok d.
Proof. reflexivity. Qed.

(** C5.  For a drive type that does not start with [evprox] or [evdist]
    and is neither [extgauss] nor [extpois], [parreceive_ext] raises
    nothing, prints one warning and returns the cell as it was: no
    connection is made. *)
Theorem C5_unknown_drive_type type g gid_dict pos_dict p_ext c out :
  String.prefix "evprox" type = false ->
  String.prefix "evdist" type = false ->
  type <> "extgauss" -> type <> "extpois" ->
  Pyr.parreceive_ext type g gid_dict pos_dict p_ext c out
  = Ok (c, out ++ [Pyr.unknown_type_warning]).
Proof.
  intros H1 H2 H3 H4. unfold Pyr.parreceive_ext, startswith2.
  rewrite H1, H2. cbn [orb].
  apply String.eqb_neq in H3, H4. rewrite H3, H4. reflexivity.
Qed.

Lemma C5_unknown_drive_type_witness :
  Pyr.parreceive_ext "extrandom" 0 example_gid_dict example_pos_dict
    (example_p_ext 0) example_cell []
  = Ok (example_cell, [Pyr.unknown_type_warning]).
Proof.
  apply (C5_unknown_drive_type "extrandom" 0 example_gid_dict example_pos_dict
           (example_p_ext 0) example_cell []).
  - reflexivity.
  - reflexivity.
  - discriminate.
  - discriminate.
Defined.

(** C4.  For a Gaussian source and a cell whose type is in the drive's
    table, with the table entries the call reads in place,
    [parreceive_ext] registers exactly one connection: to the [ampa]
    receptor at the proximal location, with the weight at index 0.  The
    result is the same whatever stands at index 1, the slow weight. *)
Theorem C4_gaussian_drive g gid_dict pos_dict p_ext c out
    r g0 ps src w0 w1 dly rest lam thr :
  gid_dict !! "extgauss" = Some r -> seq_get r 0 = Ok g0 ->
  pos_dict !! "extgauss" = Some ps -> seq_get ps g = Ok src ->
  p_ext !! celltype c = Some (PSeq (w0 :: w1 :: dly :: rest)) ->
  p_ext !! "lamtha" = Some lam -> p_ext !! "threshold" = Some thr ->
  exists c',
    Pyr.parreceive_ext "extgauss" g gid_dict pos_dict p_ext c out
    = Ok (c', out) /\
    ncfrom_extgauss c'
    = ncfrom_extgauss c
      ++ [background_conn "ampa" "extgauss" (g + g0) src w0 dly lam thr] /\
    ncfrom_extpois c' = ncfrom_extpois c /\
    ncfrom_common c' = ncfrom_common c /\
    length (all_conns c') = S (length (all_conns c)).
Proof.
  intros H1 H2 H3 H4 H5 H6 H7. eexists.
  unfold Pyr.parreceive_ext.
  change (startswith2 "extgauss" "evprox" "evdist") with false.
  change (String.eqb "extgauss" "extgauss") with true. cbv iota.
  rewrite (dict_has_Some _ _ _ H5).
  rewrite (dict_get_Some _ _ _ H1), bind_Ok, H2, bind_Ok.
  rewrite (ext_nc_dict_ok _ _ _ 0 _ _ _ _ _ _ _ w0 dly _ _ H3 H4 H5
             (subscript_0 _ _) (subscript_2 _ _ _ _) H6 H7), bind_Ok.
  split; [reflexivity|].
  unfold _connect_feed_at_loc, all_conns.
  cbn [ncfrom_extgauss ncfrom_extpois ncfrom_common nc_list_append].
  repeat split. rewrite !length_app. cbn [length]. lia.
Qed.

Lemma C4_gaussian_drive_witness :
  exists c',
    Pyr.parreceive_ext "extgauss" 1 example_gid_dict example_pos_dict
      (example_p_ext 0.25) example_cell []
    = Ok (c', []) /\
    ncfrom_extgauss c'
    = ncfrom_extgauss example_cell
      ++ [background_conn "ampa" "extgauss" (1 + 200)
            (PSeq [PNum 1; PNum 0]) (PNum 0.5) (PNum 1) (PNum 100) (PNum 0)] /\
    ncfrom_extpois c' = ncfrom_extpois example_cell /\
    ncfrom_common c' = ncfrom_common example_cell /\
    length (all_conns c') = S (length (all_conns example_cell)).
Proof.
  apply (C4_gaussian_drive 1 example_gid_dict example_pos_dict
           (example_p_ext 0.25) example_cell []
           [200; 201] 200 [PSeq [PNum 0; PNum 0]; PSeq [PNum 1; PNum 0]]
           (PSeq [PNum 1; PNum 0]) (PNum 0.5) (PNum 0.25) (PNum 1) []
           (PNum 100) (PNum 0)); vm_compute; reflexivity.
Defined.

Lemma celltype_connect_feed loc r gs d l (c : Cell) :
  celltype (_connect_feed_at_loc loc r gs d l c) = celltype c.
Proof. reflexivity. Qed.

(** C3.  For a Poisson source and a cell whose type is in the drive's
    table, with the table entries the call reads in place,
    [parreceive_ext] registers a connection to the [ampa] receptor at the
    proximal location whatever the weights are, and after it one to the
    [nmda] receptor at the proximal location, with the slow weight, if and
    only if the slow weight is strictly positive; nothing else is
    registered. *)
Theorem C3_poisson_drive g gid_dict pos_dict p_ext c out
    r g0 ps src w0 (w1 : Q) dly rest lam thr :
  gid_dict !! "extpois" = Some r -> seq_get r 0 = Ok g0 ->
  pos_dict !! "extpois" = Some ps -> seq_get ps g = Ok src ->
  p_ext !! celltype c = Some (PSeq (w0 :: PNum w1 :: dly :: rest)) ->
  p_ext !! "lamtha_space" = Some lam -> p_ext !! "threshold" = Some thr ->
  let ampa := background_conn "ampa" "extpois" (g + g0) src w0 dly lam thr in
  let nmda :=
    background_conn "nmda" "extpois" (g + g0) src (PNum w1) dly lam thr in
  exists c',
    Pyr.parreceive_ext "extpois" g gid_dict pos_dict p_ext c out
    = Ok (c', out) /\
    ((0 < w1)%Q -> ncfrom_extpois c' = ncfrom_extpois c ++ [ampa; nmda]) /\
    (~ (0 < w1)%Q -> ncfrom_extpois c' = ncfrom_extpois c ++ [ampa]) /\
    ncfrom_extgauss c' = ncfrom_extgauss c /\
    ncfrom_common c' = ncfrom_common c.
Proof.
  intros H1 H2 H3 H4 H5 H6 H7 ampa nmda.
  unfold Pyr.parreceive_ext.
  change (startswith2 "extpois" "evprox" "evdist") with false.
  change (String.eqb "extpois" "extgauss") with false.
  change (String.eqb "extpois" "extpois") with true. cbv iota.
  rewrite (dict_has_Some _ _ _ H5).
  rewrite (dict_get_Some _ _ _ H1), bind_Ok, H2, bind_Ok.
  rewrite (ext_nc_dict_ok _ _ _ 0 _ _ _ _ _ _ _ w0 dly _ _ H3 H4 H5
             (subscript_0 _ _) (subscript_2 _ _ _ _) H6 H7), bind_Ok.
  rewrite !celltype_connect_feed.
  rewrite (dict_get_Some _ _ _ H5), bind_Ok, subscript_1, bind_Ok.
  cbn [gt_zero]. rewrite bind_Ok.
  destruct (Qgtb w1 0) eqn:E.
  - rewrite bind_Ok, subscript_1, bind_Ok.
    eexists. split; [reflexivity|].
    unfold _connect_feed_at_loc.
    cbn [ncfrom_extgauss ncfrom_extpois ncfrom_common nc_list_append].
    apply Qgtb_lt in E.
    split; [intros _; rewrite <- app_assoc; reflexivity|].
    split; [intros Hn; contradiction|]. split; reflexivity.
  - eexists. split; [reflexivity|].
    unfold _connect_feed_at_loc.
    cbn [ncfrom_extgauss ncfrom_extpois ncfrom_common nc_list_append].
    split; [|split; [reflexivity|split; reflexivity]].
    intros Hp. apply Qgtb_lt in Hp. congruence.
Qed.

(** A Poisson source with slow weight 0.25: both connections. *)
Lemma C3_poisson_drive_witness :
  exists c',
    Pyr.parreceive_ext "extpois" 1 example_gid_dict example_pos_dict
      (example_p_ext 0.25) example_cell []
    = Ok (c', []) /\
    ncfrom_extpois c'
    = [background_conn "ampa" "extpois" 101 (PSeq [PNum 1; PNum 0])
         (PNum 0.5) (PNum 1) (PNum 100) (PNum 0);
       background_conn "nmda" "extpois" 101 (PSeq [PNum 1; PNum 0])
         (PNum 0.25) (PNum 1) (PNum 100) (PNum 0)].
Proof.
  destruct (C3_poisson_drive 1 example_gid_dict example_pos_dict
              (example_p_ext 0.25) example_cell []
              [100; 101] 100 [PSeq [PNum 0; PNum 0]; PSeq [PNum 1; PNum 0]]
              (PSeq [PNum 1; PNum 0]) (PNum 0.5) 0.25 (PNum 1) []
              (PNum 100) (PNum 0)
              ltac:(vm_compute; reflexivity) ltac:(vm_compute; reflexivity)
              ltac:(vm_compute; reflexivity) ltac:(vm_compute; reflexivity)
              ltac:(vm_compute; reflexivity) ltac:(vm_compute; reflexivity)
              ltac:(vm_compute; reflexivity))
    as (c' & Hrun & Hpos & _).
  exists c'. split; [exact Hrun|].
  rewrite Hpos by reflexivity. reflexivity.
Defined.

(** ** Common inputs *)

Lemma dict_has_None {V} (d : gmap string V) k :
  d !! k = None -> dict_has d k = false.
Proof. intros H. unfold dict_has. rewrite H. reflexivity. Qed.

(** A receptor whose parameters the source does not define, when a
    dictionary is at hand: the connection is made with that dictionary. *)
Lemma parreceive_receptor_stale gid_src (p_src : gmap string pval) src_pos
    receptor (c : Cell) nc loc :
  p_src !! (name c +:+ "_" +:+ receptor) = None ->
  p_src !! "loc" = Some loc ->
  Pyr.parreceive_receptor gid_src p_src src_pos receptor (c, Some nc)
  = Ok (_connect_feed_at_loc loc receptor gid_src nc ncfrom_common_l c,
        Some nc).
Proof.
  intros Hk Hl. unfold Pyr.parreceive_receptor. cbn [fst snd].
  rewrite (dict_has_None _ _ Hk), bind_Ok.
  rewrite (dict_get_Some _ _ _ Hl), bind_Ok. reflexivity.
Qed.

(** The same when no dictionary has been built yet. *)
Lemma parreceive_receptor_unbound gid_src (p_src : gmap string pval) src_pos
    receptor (c : Cell) loc :
  p_src !! (name c +:+ "_" +:+ receptor) = None ->
  p_src !! "loc" = Some loc ->
  Pyr.parreceive_receptor gid_src p_src src_pos receptor (c, None)
  = Raise (UnboundLocalError "nc_dict").
Proof.
  intros Hk Hl. unfold Pyr.parreceive_receptor. cbn [fst snd].
  rewrite (dict_has_None _ _ Hk), bind_Ok.
  rewrite (dict_get_Some _ _ _ Hl), bind_Ok. reflexivity.
Qed.

(** A turn of the inner loop that returns has made one connection, to the
    receptor of the turn, whether or not the source defines it. *)
Lemma parreceive_receptor_connects gid_src (p_src : gmap string pval) src_pos
    receptor st st' :
  Pyr.parreceive_receptor gid_src p_src src_pos receptor st = Ok st' ->
  exists fc,
    ncfrom_common (fst st') = ncfrom_common (fst st) ++ [fc] /\
    fc_receptor fc = receptor /\ fc_gid_src fc = gid_src /\
    snd st' = Some (fc_nc_dict fc).
Proof.
  unfold Pyr.parreceive_receptor.
  destruct (if dict_has p_src _ then _ else _) as [nc|e]; [|discriminate].
  rewrite bind_Ok.
  destruct (dict_get p_src "loc") as [loc|e]; [|discriminate].
  rewrite bind_Ok. destruct nc as [d|]; [|discriminate].
  rewrite bind_Ok. intros H. injection H as <-.
  eexists. cbn [fst snd]. unfold _connect_feed_at_loc.
  cbn [ncfrom_common nc_list_append fc_receptor fc_gid_src fc_nc_dict].
  repeat split.
Qed.

(** C10.  In [parreceive] the connecting call is made for both receptors
    of every source, whether or not the source defines the parameters
    [<name>_<receptor>]: a turn of the inner loop that returns has made
    its connection; when the parameters are absent the dictionary of an
    earlier turn is used again; and when no dictionary was built before,
    which is the case when the first source does not define the [ampa]
    parameters, the operation fails with [UnboundLocalError] instead of
    skipping the receptor.  A source that defines only the [ampa]
    parameters is connected twice, the second time to [nmda] with the
    [ampa] dictionary. *)
Theorem C10_parreceive_stale_dict :
  (forall gid_src (p_src : gmap string pval) src_pos receptor st st',
     Pyr.parreceive_receptor gid_src p_src src_pos receptor st = Ok st' ->
     exists fc,
       ncfrom_common (fst st') = ncfrom_common (fst st) ++ [fc] /\
       fc_receptor fc = receptor /\ fc_gid_src fc = gid_src /\
       snd st' = Some (fc_nc_dict fc)) /\
  (forall gid_src (p_src : gmap string pval) src_pos receptor (c : Cell) nc loc,
     p_src !! (name c +:+ "_" +:+ receptor) = None ->
     p_src !! "loc" = Some loc ->
     Pyr.parreceive_receptor gid_src p_src src_pos receptor (c, Some nc)
     = Ok (_connect_feed_at_loc loc receptor gid_src nc ncfrom_common_l c,
           Some nc)) /\
  (forall g (gid_dict : gmap string (list Z))
          (pos_dict : gmap string (list pval)) (c : Cell)
          gid_src gids (p_src : gmap string pval) p_ext src_pos poss loc,
     gid_dict !! "common" = Some (gid_src :: gids) ->
     pos_dict !! "common" = Some (src_pos :: poss) ->
     p_src !! (name c +:+ "_ampa") = None ->
     p_src !! "loc" = Some loc ->
     Pyr.parreceive g gid_dict pos_dict (p_src :: p_ext) c
     = Raise (UnboundLocalError "nc_dict")) /\
  (exists c',
     Pyr.parreceive 0 example_gid_dict example_pos_dict
       [example_src_ampa_only] example_cell = Ok c' /\
     example_src_ampa_only !! "L2Pyr_nmda" = None /\
     ncfrom_common c'
     = [ {| fc_feed_loc := PStr "proximal"; fc_receptor := "ampa";
            fc_gid_src := 300; fc_nc_dict := example_ampa_nc_dict |};
         {| fc_feed_loc := PStr "proximal"; fc_receptor := "nmda";
            fc_gid_src := 300; fc_nc_dict := example_ampa_nc_dict |} ]).
Proof.
  split; [|split; [|split]].
  - exact parreceive_receptor_connects.
  - exact parreceive_receptor_stale.
  - intros g gid_dict pos_dict c gid_src gids p_src p_ext src_pos poss loc
      Hg Hp Hk Hl.
    unfold Pyr.parreceive.
    rewrite (dict_get_Some _ _ _ Hg), bind_Ok.
    rewrite (dict_get_Some _ _ _ Hp), bind_Ok.
    cbn [Pyr.zip3 Pyr.parreceive_loop Pyr.parreceive_source].
    rewrite (parreceive_receptor_unbound _ _ _ "ampa" c loc Hk Hl).
    reflexivity.
  - eexists. split; [vm_compute; reflexivity|].
    split; vm_compute; reflexivity.
Qed.

(** A first source that defines neither receptor: the operation fails. *)
Lemma C10_parreceive_stale_dict_witness :
  Pyr.parreceive 0 example_gid_dict example_pos_dict
    [example_src_neither; example_src_ampa_only] example_cell
  = Raise (UnboundLocalError "nc_dict").
Proof.
  apply (proj1 (proj2 (proj2 C10_parreceive_stale_dict)) 0
           example_gid_dict example_pos_dict example_cell
           300 [301] example_src_neither [example_src_ampa_only]
           (PSeq [PNum 0; PNum 0]) [PSeq [PNum 1; PNum 0]] (PStr "proximal"));
    vm_compute; reflexivity.
Defined.

(** ** The axial projection factors *)

Lemma unit_map_lookup (l : list Sec) nm :
  (list_to_map (map (fun s => (sec_name s, 1%R)) l) : gmap string R) !! nm
  = if decide (nm ∈ map sec_name l) then Some 1%R else None.
Proof.
  induction l as [|s l IH].
  - cbn. rewrite lookup_empty. rewrite decide_False; [reflexivity|].
    intros H. inversion H.
  - cbn [map list_to_map foldr]. cbn [fst snd uncurry].
    change (foldr _ _ _) with
      (list_to_map (map (fun s => (sec_name s, 1%R)) l) : gmap string R).
    destruct (decide (sec_name s = nm)) as [Heq|Hne].
    + rewrite Heq, lookup_insert_eq, decide_True; [reflexivity|left].
    + rewrite lookup_insert_ne by exact Hne. rewrite IH.
      destruct (decide (nm ∈ map sec_name l)) as [H|H].
      * rewrite decide_True; [reflexivity|right; exact H].
      * rewrite decide_False; [reflexivity|].
        intros H'. apply elem_of_cons in H' as [->|H'];
          [apply Hne; reflexivity|apply H; exact H'].
Qed.

Lemma get_sectnames_lookup (c : Cell) nm v :
  Pyr.get_sectnames c !! nm = Some v <->
  nm ∈ map sec_name (Pyr.wholetree c) /\ v = Pyr.yscale_entry nm 1.
Proof.
  unfold Pyr.get_sectnames. cbv zeta.
  rewrite map_lookup_imap, unit_map_lookup.
  destruct (decide _) as [H|H]; cbn.
  - split; [intros E; injection E as <-; auto|intros [_ ->]; reflexivity].
  - split; [discriminate|intros [H' _]; contradiction].
Qed.

(** The sections [wholetree] lists, when every dendrite hangs under the
    soma: the soma and all of them. *)
Lemma wholetree_names (c : Cell) nm :
  (forall k, is_Some (dends c !! k) ->
     Pyr.under_soma (size (dends c)) (dends c) (Dend k) = true) ->
  nm ∈ map sec_name (Pyr.wholetree c) <->
  nm = sec_name (soma c) \/ exists k, (sec_name <$> dends c) !! k = Some nm.
Proof.
  intros Hroot. unfold Pyr.wholetree. cbn [map]. rewrite elem_of_cons.
  apply or_iff_compat_l.
  rewrite list_elem_of_In, in_map_iff. split.
  - intros (s & <- & Hin). apply in_map_iff in Hin as ([k s'] & Hs & Hin).
    cbn in Hs. subst s'. apply filter_In in Hin as [Hin _].
    apply list_elem_of_In, elem_of_map_to_list in Hin.
    exists k. rewrite lookup_fmap, Hin. reflexivity.
  - intros [k Hk]. rewrite lookup_fmap in Hk.
    apply fmap_Some in Hk as (s & Hs & ->).
    exists s. split; [reflexivity|].
    apply in_map_iff. exists (k, s). split; [reflexivity|].
    apply filter_In. split.
    + apply list_elem_of_In, elem_of_map_to_list. exact Hs.
    + cbn [fst]. apply Hroot. eauto.
Qed.

Lemma apply_all_props_names props (ds : gmap string Sec) :
  sec_name <$> apply_all_props props ds = sec_name <$> ds.
Proof.
  unfold apply_all_props. revert ds.
  induction props as [|[k p] props IH]; intros ds; [reflexivity|].
  simpl. rewrite IH. apply map_eq. intros k'.
  rewrite !lookup_fmap. destruct (decide (k = k')) as [<-|Hne].
  - rewrite lookup_alter_eq. destruct (ds !! k); [|reflexivity].
    simpl. rewrite apply_props_name. reflexivity.
  - rewrite lookup_alter_ne by exact Hne. reflexivity.
Qed.

Lemma L2_equipped_names p_all g ps :
  sec_name <$> dends (L2Built.equipped p_all g ps)
  = list_to_map (map (fun k => (k, "L2Pyr_" +:+ k)) L2_keys).
Proof.
  transitivity (sec_name <$> L2Built.skeleton_dends);
    [|vm_compute; reflexivity].
  rewrite <- (apply_all_props_names (L2Built.dend_props p_all)
                L2Built.skeleton_dends).
  apply map_eq. intros k. rewrite !lookup_fmap, L2_equipped_lookup.
  destruct (apply_all_props _ _ !! k); reflexivity.
Qed.

Lemma L5_equipped_names p_all g ps :
  sec_name <$> dends (L5Built.equipped p_all g ps)
  = list_to_map (map (fun k => (k, "L5Pyr_" +:+ k)) L5_keys).
Proof.
  transitivity (sec_name <$> L5Built.skeleton_dends);
    [|vm_compute; reflexivity].
  rewrite <- (apply_all_props_names (L5Built.dend_props p_all)
                L5Built.skeleton_dends).
  apply map_eq. intros k. rewrite !lookup_fmap, L5_equipped_lookup.
  destruct (apply_all_props _ _ !! k); reflexivity.
Qed.

Lemma L2_equipped_rooted p_all g ps k :
  is_Some (dends (L2Built.equipped p_all g ps) !! k) ->
  Pyr.under_soma (size (dends (L2Built.equipped p_all g ps)))
    (dends (L2Built.equipped p_all g ps)) (Dend k) = true.
Proof.
  rewrite <- L2_built_dends. apply (proj2 (L2_built_rooted p_all g ps)).
Qed.

Lemma L5_equipped_rooted p_all g ps k :
  is_Some (dends (L5Built.equipped p_all g ps) !! k) ->
  Pyr.under_soma (size (dends (L5Built.equipped p_all g ps)))
    (dends (L5Built.equipped p_all g ps)) (Dend k) = true.
Proof.
  rewrite <- L5_built_dends. apply (proj2 (L5_built_rooted p_all g ps)).
Qed.

Lemma L2_equipped_soma_name p_all g ps :
  sec_name (soma (L2Built.equipped p_all g ps)) = "L2Pyr_soma".
Proof.
  unfold L2Built.equipped, L2Pyr._biophys_dends, L2Pyr._biophys_soma.
  cbv zeta. autorewrite with cell. reflexivity.
Qed.

Lemma L5_equipped_soma_name p_all g ps :
  sec_name (soma (L5Built.equipped p_all g ps)) = "L5Pyr_soma".
Proof.
  unfold L5Built.equipped, L5Pyr.__biophys_dends, L5Pyr.__biophys_soma.
  cbv zeta. autorewrite with cell. reflexivity.
Qed.

Lemma L2_built_yscale p_all g ps :
  yscale (L2Built.built p_all g ps)
  = Pyr.get_sectnames (L2Built.equipped p_all g ps).
Proof.
  unfold L2Built.built, L2Built.wired. cbv zeta.
  rewrite yscale_with_synapses. apply yscale_with_yscale.
Qed.

Lemma L5_built_yscale p_all g ps :
  yscale (L5Built.built p_all g ps)
  = Pyr.get_sectnames (L5Built.equipped p_all g ps).
Proof.
  unfold L5Built.built, L5Built.wired. cbv zeta.
  rewrite yscale_with_synapses. apply yscale_with_yscale.
Qed.

Lemma named_keys_lookup (prefix : string) (keys : list string) nm :
  (exists k, (list_to_map (map (fun k => (k, prefix +:+ k)) keys)
                : gmap string string) !! k = Some nm)
  <-> nm ∈ map (fun k => prefix +:+ k) keys.
Proof.
  split.
  - intros [k H]. apply elem_of_list_to_map_2 in H.
    apply list_elem_of_fmap in H as (k' & E & Hk'). injection E as -> ->.
    apply list_elem_of_fmap. eauto.
  - induction keys as [|k keys IH]; intros H; [inversion H|].
    cbn [map] in H. apply elem_of_cons in H as [->|H].
    + exists k. cbn [map list_to_map foldr]. apply lookup_insert_eq.
    + destruct (IH H) as [k' Hk'].
      destruct (decide (k = k')) as [<-|Hne].
      * exists k. cbn [map list_to_map foldr]. rewrite lookup_insert_eq.
        f_equal. apply elem_of_list_to_map_2 in Hk'.
        apply list_elem_of_fmap in Hk' as (k'' & E & _).
        injection E as -> ->. reflexivity.
      * exists k'. cbn [map list_to_map foldr].
        rewrite lookup_insert_ne by exact Hne. exact Hk'.
Qed.

(** The factors of the cell [L2Pyr] builds: one for each of its sections,
    computed from the section's name. *)
Lemma L2_yscale_lookup p_all g ps nm v :
  yscale (L2Built.built p_all g ps) !! nm = Some v <->
  nm ∈ section_names "L2Pyr" L2_keys /\ v = Pyr.yscale_entry nm 1.
Proof.
  rewrite L2_built_yscale, get_sectnames_lookup.
  rewrite (wholetree_names _ _ (L2_equipped_rooted p_all g ps)).
  rewrite L2_equipped_soma_name, L2_equipped_names, named_keys_lookup.
  unfold section_names. rewrite elem_of_cons. reflexivity.
Qed.

Lemma L5_yscale_lookup p_all g ps nm v :
  yscale (L5Built.built p_all g ps) !! nm = Some v <->
  nm ∈ section_names "L5Pyr" L5_keys /\ v = Pyr.yscale_entry nm 1.
Proof.
  rewrite L5_built_yscale, get_sectnames_lookup.
  rewrite (wholetree_names _ _ (L5_equipped_rooted p_all g ps)).
  rewrite L5_equipped_soma_name, L5_equipped_names, named_keys_lookup.
  unfold section_names. rewrite elem_of_cons. reflexivity.
Qed.

Lemma cos_45_degrees : cos (PI / 4) = (sqrt 2 / 2)%R.
Proof.
  rewrite cos_PI4.
  assert (H : (sqrt 2 * sqrt 2 = 2)%R) by (apply sqrt_sqrt; lra).
  assert (H0 : sqrt 2 <> 0%R) by (intros E; rewrite E in H; lra).
  field_simplify_eq; [|exact H0]. lra.
Qed.

Lemma half_sqrt2_pos : (0 < sqrt 2 / 2)%R.
Proof. assert (0 < sqrt 2)%R by (apply sqrt_lt_R0; lra). lra. Qed.

Lemma Rabs_neg_half_sqrt2 : Rabs (- (sqrt 2 / 2)) = (sqrt 2 / 2)%R.
Proof.
  rewrite Rabs_Ropp. apply Rabs_pos_eq. apply Rlt_le, half_sqrt2_pos.
Qed.

(** What the loop of [get_sectnames] computes for the name of each
    section of the two cells. *)
Lemma yscale_entry_sections nm :
  nm ∈ section_names "L2Pyr" L2_keys \/ nm ∈ section_names "L5Pyr" L5_keys ->
  (str_in "basal" nm = true -> (Pyr.yscale_entry nm 1 < 0)%R) /\
  (str_in "basal_2" nm = true \/ str_in "basal_3" nm = true ->
     Rabs (Pyr.yscale_entry nm 1) = (sqrt 2 / 2)%R) /\
  (str_in "apical_oblique" nm = true -> Pyr.yscale_entry nm 1 = 0%R) /\
  (str_in "basal" nm = false -> str_in "apical_oblique" nm = false ->
     Pyr.yscale_entry nm 1 = 1%R).
Proof.
  unfold section_names, L2_keys, L5_keys. cbn [map].
  intros [H|H];
    repeat (apply elem_of_cons in H as [->|H]);
    try (inversion H; fail);
    unfold Pyr.yscale_entry; eval_str_in; cbv beta iota zeta;
    (split; [|split; [|split]]); intros; eval_str_in_hyps;
    first [ reflexivity | lra | apply Rabs_neg_half_sqrt2
          | pose proof half_sqrt2_pos; lra ].
Qed.



(** ** The conductance gradient *)

Lemma lookup_map {A B} (f : A -> B) (l : list A) (i : nat) :
  map f l !! i = f <$> l !! i.
Proof.
  revert i. induction l as [|a l IH]; intros [|i]; try reflexivity.
  cbn. apply IH.
Qed.

Lemma gbar_ar_dend_values (c : Cell) key s :
  sec_gbar_ar (L5Pyr.gbar_ar_dend c key s)
  = map (fun x => L5Pyr.gbar_ar_at (h_distance c (Dend key) x))
        (seg_positions s).
Proof. reflexivity. Qed.

Lemma gbar_ar_dend_positions (c : Cell) key s :
  seg_positions (L5Pyr.gbar_ar_dend c key s) = seg_positions s.
Proof. reflexivity. Qed.

Lemma gbar_ar_dend_nseg (c : Cell) key s :
  sec_nseg (L5Pyr.gbar_ar_dend c key s) = sec_nseg s.
Proof. reflexivity. Qed.

Lemma gbar_ar_dend_mechs (c : Cell) key s :
  sec_mechs (L5Pyr.gbar_ar_dend c key s) = sec_mechs s.
Proof. reflexivity. Qed.

Lemma gbar_ar_dend_L (c : Cell) key s :
  sec_L (L5Pyr.gbar_ar_dend c key s) = sec_L s.
Proof. reflexivity. Qed.

Lemma gbar_ar_dend_parent (c : Cell) key s :
  sec_parent (L5Pyr.gbar_ar_dend c key s) = sec_parent s.
Proof. reflexivity. Qed.

Lemma biophys_dend_ar p_all s : In "ar" (sec_mechs (L5Pyr.biophys_dend p_all s)).
Proof.
  unfold L5Pyr.biophys_dend. cbv zeta.
  change (sec_mechs (insert_mech "ar" ?x)) with (sec_mechs x ++ ["ar"]).
  apply in_or_app. right. left. reflexivity.
Qed.

(** The geometry the path length reads: the length of a section and the
    point it is attached to. *)
Lemma path_length_ext (c c' : Cell) n r x :
  (forall k, (fun s => (sec_L s, sec_parent s)) <$> dends c !! k
             = (fun s => (sec_L s, sec_parent s)) <$> dends c' !! k) ->
  sec_L (soma c) = sec_L (soma c') ->
  path_length n c r x = path_length n c' r x.
Proof.
  intros Hd Hs. revert r x. induction n as [|n IH]; intros [|k] x;
    cbn [path_length]; try (rewrite Hs; reflexivity).
  - specialize (Hd k).
    destruct (dends c !! k), (dends c' !! k); cbn in Hd;
      try discriminate; reflexivity.
  - specialize (Hd k).
    destruct (dends c !! k) as [s|], (dends c' !! k) as [s'|]; cbn in Hd;
      try discriminate; try reflexivity.
    injection Hd as HL HP. rewrite HL, HP.
    destruct (sec_parent s'); [|reflexivity]. rewrite IH. reflexivity.
Qed.

Lemma L5_uniform_lookup p_all g ps k :
  dends (L5Built.uniform p_all g ps) !! k
  = L5Pyr.biophys_dend p_all
      <$> apply_all_props (L5Built.dend_props p_all) L5Built.skeleton_dends !! k.
Proof.
  unfold L5Built.uniform, L5Pyr.__biophys_soma, L5Built.geometry.
  cbv zeta. autorewrite with cell. apply lookup_fmap.
Qed.

Lemma L5_built_geometry p_all g ps k :
  (fun s => (sec_L s, sec_parent s))
    <$> dends (L5Built.built p_all g ps) !! k
  = (fun s => (sec_L s, sec_parent s))
    <$> dends (L5Built.uniform p_all g ps) !! k.
Proof.
  rewrite L5_built_dends, L5_equipped_lookup, L5_uniform_lookup.
  destruct (apply_all_props _ _ !! k) as [s|]; [|reflexivity].
  cbn [fmap option_fmap option_map].
  rewrite gbar_ar_dend_L, gbar_ar_dend_parent. reflexivity.
Qed.

Lemma L5_built_soma p_all g ps :
  soma (L5Built.built p_all g ps) = soma (L5Built.uniform p_all g ps).
Proof.
  unfold L5Built.built, L5Built.wired, L5Built.equipped,
    L5Pyr.__biophys_dends. cbv zeta.
  fold (L5Built.uniform p_all g ps). autorewrite with cell. reflexivity.
Qed.

Lemma size_fmap_eq {A} (f : Sec -> A) (ds ds' : gmap string Sec) :
  f <$> ds = f <$> ds' -> size ds = size ds'.
Proof.
  intros H. rewrite <- (map_size_fmap f ds), H. apply map_size_fmap.
Qed.

Lemma L5_built_size p_all g ps :
  size (dends (L5Built.built p_all g ps))
  = size (dends (L5Built.uniform p_all g ps)).
Proof.
  apply (size_fmap_eq (fun s => (sec_L s, sec_parent s))).
  apply map_eq. intros k. rewrite !lookup_fmap.
  apply L5_built_geometry.
Qed.

(** Distances measured on the finished cell are the distances
    [__biophys_dends] measured. *)
Lemma L5_built_distance p_all g ps r x :
  h_distance (L5Built.built p_all g ps) r x
  = h_distance (L5Built.uniform p_all g ps) r x.
Proof.
  unfold h_distance. rewrite L5_built_size.
  apply path_length_ext.
  - apply L5_built_geometry.
  - rewrite L5_built_soma. reflexivity.
Qed.

Lemma gbar_ar_at_increasing (d1 d2 : Q) :
  (d1 < d2)%Q -> (L5Pyr.gbar_ar_at d1 < L5Pyr.gbar_ar_at d2)%R.
Proof.
  intros H. unfold L5Pyr.gbar_ar_at.
  apply Rmult_lt_compat_l; [lra|].
  apply exp_increasing. apply Rmult_lt_compat_l; [lra|].
  apply Qlt_Rlt. exact H.
Qed.

(** The values of [gbar_ar] on a dendrite of the cell [L5Pyr] builds. *)
Lemma L5_built_gbar_ar p_all g ps key s :
  dends (L5Built.built p_all g ps) !! key = Some s ->
  In "ar" (sec_mechs s) /\
  sec_gbar_ar s
  = map (fun x => L5Pyr.gbar_ar_at
                    (h_distance (L5Built.built p_all g ps) (Dend key) x))
        (seg_positions s).
Proof.
  intros Hs. apply L5_built_dend in Hs as (p & s0 & _ & _ & ->).
  rewrite gbar_ar_dend_mechs, gbar_ar_dend_values, gbar_ar_dend_positions.
  split; [apply biophys_dend_ar|].
  apply map_ext. intros x. rewrite L5_built_distance. reflexivity.
Qed.

Lemma length_seg_positions s : length (seg_positions s) = Z.to_nat (sec_nseg s).
Proof. unfold seg_positions. rewrite length_map, length_seq. reflexivity. Qed.

Lemma seg_positions_lookup s i x :
  seg_positions s !! i = Some x <->
  (i < Z.to_nat (sec_nseg s))%nat /\ x = seg_x (sec_nseg s) i.
Proof.
  unfold seg_positions. rewrite list_lookup_fmap.
  destruct (seq 0 (Z.to_nat (sec_nseg s)) !! i) as [j|] eqn:E.
  - apply lookup_seq in E as [-> Hlt]. cbn. split.
    + intros H. injection H as <-. split; [exact Hlt|reflexivity].
    + intros [_ ->]. reflexivity.
  - cbn. split; [discriminate|]. intros [Hlt _].
    apply lookup_ge_None_1 in E. rewrite length_seq in E. lia.
Qed.

Lemma seg_x_pos n i : (0 <= seg_x n i)%Q.
Proof. unfold seg_x, Qle. cbn. lia. Qed.

Lemma seg_x_increasing n i j : (i < j)%nat -> (seg_x n i < seg_x n j)%Q.
Proof.
  intros H. unfold seg_x, Qlt. cbn [Qnum Qden].
  apply Z.mul_lt_mono_pos_r; lia.
Qed.

(** The distance to a point of a dendrite: along the dendrite from the
    end it is attached by, then from the point of the parent it is
    attached to. *)
Lemma h_distance_dend (c : Cell) key s a x n :
  size (dends c) = S n -> dends c !! key = Some s -> sec_parent s = Some a ->
  h_distance c (Dend key) x
  = (Qabs (x - att_child_start a) * sec_L s
     + path_length n c (att_parent a) (att_parent_end a))%Q.
Proof.
  intros Hn Hs Ha. unfold h_distance. rewrite Hn. cbn [path_length].
  rewrite Hs, Ha. reflexivity.
Qed.

(** Along a dendrite of positive length attached by its 0 end the
    distance grows with the position. *)
Lemma h_distance_along (c : Cell) key s a n (x y : Q) :
  size (dends c) = S n -> dends c !! key = Some s -> sec_parent s = Some a ->
  att_child_start a = 0%Q -> (0 < sec_L s)%Q -> (0 <= x)%Q -> (x < y)%Q ->
  (h_distance c (Dend key) x < h_distance c (Dend key) y)%Q.
Proof.
  intros Hn Hs Ha H0 HL Hx Hxy.
  rewrite (h_distance_dend c key s a x n Hn Hs Ha),
    (h_distance_dend c key s a y n Hn Hs Ha), H0.
  apply Qplus_lt_le_compat; [|apply Qle_refl].
  apply Qmult_lt_compat_r; [exact HL|].
  assert (Ex : (Qabs (x - 0) == x)%Q).
  { rewrite Qabs_pos; [ring|]. setoid_replace (x - 0)%Q with x using relation Qeq by ring. exact Hx. }
  assert (Ey : (Qabs (y - 0) == y)%Q).
  { rewrite Qabs_pos; [ring|]. setoid_replace (y - 0)%Q with y using relation Qeq by ring.
    apply Qlt_le_weak. eapply Qle_lt_trans; eassumption. }
  rewrite Ex, Ey. exact Hxy.
Qed.

Lemma L5_pattern_start k oa :
  L5_pattern !! k = Some oa ->
  exists a, oa = Some a /\ att_child_start a = 0%Q.
Proof.
  intros H. apply elem_of_list_to_map_2 in H.
  repeat (apply elem_of_cons in H as [H|H];
          [inversion H; subst; eexists; split; reflexivity|]).
  inversion H.
Qed.

Lemma L5_built_size8 p_all g ps :
  size (dends (L5Built.built p_all g ps)) = 8%nat.
Proof.
  rewrite (size_parents _ L5Built.skeleton_dends (L5_built_parents p_all g ps)).
  vm_compute. reflexivity.
Qed.

Lemma L5_built_attached p_all g ps key s :
  dends (L5Built.built p_all g ps) !! key = Some s ->
  exists a, sec_parent s = Some a /\ att_child_start a = 0%Q.
Proof.
  intros Hs.
  assert (H : (sec_parent <$> dends (L5Built.built p_all g ps)) !! key
              = Some (sec_parent s)) by (rewrite lookup_fmap, Hs; reflexivity).
  rewrite L5_built_parents, L5_skeleton_pattern in H.
  apply L5_pattern_start in H. exact H.
Qed.

(** C2.  On every dendrite of the cell [L5Pyr] builds the mechanism [ar]
    is inserted and its [gbar] has one value per segment: at the segment
    [i] of [nseg], which sits at the position [x = (2i+1)/(2 nseg)], it is
    [1e-6 * exp(3e-3 * d)], with [d] the path distance from the soma to
    the point [x] of the dendrite.  For two segments, of the same or of
    different dendrites, the one farther from the soma has the strictly
    larger value; so along a dendrite of positive length the values grow
    strictly from segment to segment, and are not one value for the
    whole dendrite. *)
Theorem C2_gbar_ar_gradient p_all shape3d g ps c :
  L5Pyr.__init__ p_all shape3d g ps = Ok c ->
  (forall key s, dends c !! key = Some s ->
     In "ar" (sec_mechs s) /\
     length (sec_gbar_ar s) = Z.to_nat (sec_nseg s) /\
     (forall i x, seg_positions s !! i = Some x ->
        sec_gbar_ar s !! i
        = Some (1e-6 * exp (3e-3 * Q2R (h_distance c (Dend key) x)))%R) /\
     (forall i, (i < Z.to_nat (sec_nseg s))%nat ->
        sec_gbar_ar s !! i
        = Some (1e-6
                * exp (3e-3
                       * Q2R (h_distance c (Dend key)
                                ((2 * Z.of_nat i + 1)
                                 # Z.to_pos (2 * sec_nseg s)))))%R)) /\
  (forall key1 s1 i1 x1 v1 key2 s2 i2 x2 v2,
     dends c !! key1 = Some s1 -> seg_positions s1 !! i1 = Some x1 ->
     sec_gbar_ar s1 !! i1 = Some v1 ->
     dends c !! key2 = Some s2 -> seg_positions s2 !! i2 = Some x2 ->
     sec_gbar_ar s2 !! i2 = Some v2 ->
     (h_distance c (Dend key1) x1 < h_distance c (Dend key2) x2)%Q ->
     (v1 < v2)%R) /\
  (forall key s i j vi vj,
     dends c !! key = Some s -> (0 < sec_L s)%Q -> (i < j)%nat ->
     sec_gbar_ar s !! i = Some vi -> sec_gbar_ar s !! j = Some vj ->
     (vi < vj)%R).
Proof.
  rewrite L5_init_eq. intros H. injection H as <-.
  assert (Hseg : forall key s i x,
             dends (L5Built.built p_all g ps) !! key = Some s ->
             seg_positions s !! i = Some x ->
             sec_gbar_ar s !! i
             = Some (L5Pyr.gbar_ar_at
                       (h_distance (L5Built.built p_all g ps) (Dend key) x))).
  { intros key s i x Hs Hx.
    destruct (L5_built_gbar_ar _ _ _ _ _ Hs) as [_ ->].
    rewrite lookup_map, Hx. reflexivity. }
  assert (Hlen : forall key s,
             dends (L5Built.built p_all g ps) !! key = Some s ->
             length (sec_gbar_ar s) = Z.to_nat (sec_nseg s)).
  { intros key s Hs. destruct (L5_built_gbar_ar _ _ _ _ _ Hs) as [_ ->].
    rewrite length_map. apply length_seg_positions. }
  split; [|split].
  - intros key s Hs. destruct (L5_built_gbar_ar _ _ _ _ _ Hs) as [Har Hv].
    split; [exact Har|]. split; [exact (Hlen _ _ Hs)|]. split.
    + intros i x Hx. apply (Hseg _ _ _ _ Hs Hx).
    + intros i Hi.
      exact (Hseg key s i (seg_x (sec_nseg s) i) Hs
               (proj2 (seg_positions_lookup s i _) (conj Hi eq_refl))).
  - intros key1 s1 i1 x1 v1 key2 s2 i2 x2 v2 Hs1 Hx1 Hv1 Hs2 Hx2 Hv2 Hd.
    rewrite (Hseg _ _ _ _ Hs1 Hx1) in Hv1. injection Hv1 as <-.
    rewrite (Hseg _ _ _ _ Hs2 Hx2) in Hv2. injection Hv2 as <-.
    apply gbar_ar_at_increasing. exact Hd.
  - intros key s i j vi vj Hs HL Hij Hvi Hvj.
    assert (Hj : (j < Z.to_nat (sec_nseg s))%nat).
    { rewrite <- (Hlen _ _ Hs). apply lookup_lt_Some in Hvj. exact Hvj. }
    assert (Hxi : seg_positions s !! i = Some (seg_x (sec_nseg s) i))
      by (apply seg_positions_lookup; split; [lia|reflexivity]).
    assert (Hxj : seg_positions s !! j = Some (seg_x (sec_nseg s) j))
      by (apply seg_positions_lookup; split; [lia|reflexivity]).
    rewrite (Hseg _ _ _ _ Hs Hxi) in Hvi. injection Hvi as <-.
    rewrite (Hseg _ _ _ _ Hs Hxj) in Hvj. injection Hvj as <-.
    apply gbar_ar_at_increasing.
    destruct (L5_built_attached _ _ _ _ _ Hs) as (a & Ha & H0).
    apply (h_distance_along _ key s a 7 _ _ (L5_built_size8 p_all g ps)
             Hs Ha H0 HL).
    + apply seg_x_pos.
    + apply seg_x_increasing. exact Hij.
Qed.

Lemma example_L5_apical_1 :
  exists s,
    dends (L5Built.built example_params 0 (PNum 0)) !! "apical_1" = Some s /\
    sec_nseg s = 5 /\ sec_L s = 200%Q.
Proof.
  rewrite L5_built_dends, L5_equipped_lookup.
  rewrite (apply_all_props_lookup _ _ "apical_1"
             (Pyr.dend_props_of example_params "L5Pyr" "apical1")
             (NoDup_L5_keys _)) by (repeat constructor).
  destruct (L5Built.skeleton_dends !! "apical_1") as [s0|] eqn:E;
    [|vm_compute in E; discriminate].
  eexists. split; [reflexivity|].
  rewrite gbar_ar_dend_nseg, gbar_ar_dend_L. split.
  - change (sec_nseg (L5Pyr.biophys_dend example_params ?x)) with (sec_nseg x).
    rewrite apply_props_nseg. vm_compute. reflexivity.
  - change (sec_L (L5Pyr.biophys_dend example_params ?x)) with (sec_L x).
    rewrite apply_props_L. vm_compute. reflexivity.
Qed.

(** The first two of the five segments of [apical_1], of length 200, of
    an [L5Pyr] cell: they sit at the positions 1/10 and 3/10, the second
    is farther from the soma and has the strictly larger value. *)
Lemma C2_gbar_ar_gradient_witness :
  exists c s v0 v1,
    L5Pyr.__init__ example_params example_shape 0 (PNum 0) = Ok c /\
    dends c !! "apical_1" = Some s /\ sec_nseg s = 5 /\
    seg_positions s !! 0%nat = Some (1 # 10)%Q /\
    seg_positions s !! 1%nat = Some (3 # 10)%Q /\
    sec_gbar_ar s !! 0%nat = Some v0 /\
    sec_gbar_ar s !! 1%nat = Some v1 /\
    v0 = (1e-6 * exp (3e-3 * Q2R (h_distance c (Dend "apical_1") (1 # 10))))%R /\
    v1 = (1e-6 * exp (3e-3 * Q2R (h_distance c (Dend "apical_1") (3 # 10))))%R /\
    (h_distance c (Dend "apical_1") (1 # 10)
     < h_distance c (Dend "apical_1") (3 # 10))%Q /\
    (v0 < v1)%R.
Proof.
  destruct example_L5_apical_1 as (s & Hs & Hn & HL).
  pose proof (C2_gbar_ar_gradient example_params example_shape 0 (PNum 0)
                _ (L5_init_eq _ _ _ _)) as (Hval & Hmono & _).
  destruct (Hval "apical_1" s Hs) as (_ & _ & Hpos & _).
  assert (Hx0 : seg_positions s !! 0%nat = Some (1 # 10)%Q)
    by (unfold seg_positions; rewrite Hn; reflexivity).
  assert (Hx1 : seg_positions s !! 1%nat = Some (3 # 10)%Q)
    by (unfold seg_positions; rewrite Hn; reflexivity).
  assert (Hd : (h_distance (L5Built.built example_params 0 (PNum 0))
                  (Dend "apical_1") (1 # 10)
                < h_distance (L5Built.built example_params 0 (PNum 0))
                    (Dend "apical_1") (3 # 10))%Q).
  { destruct (L5_built_attached _ _ _ _ _ Hs) as (a & Ha & H0).
    apply (h_distance_along _ "apical_1" s a 7 _ _
             (L5_built_size8 example_params 0 (PNum 0)) Hs Ha H0).
    - rewrite HL. reflexivity.
    - discriminate.
    - reflexivity. }
  eexists _, s, _, _.
  split; [apply L5_init_eq|]. split; [exact Hs|]. split; [exact Hn|].
  split; [exact Hx0|]. split; [exact Hx1|].
  split; [exact (Hpos _ _ Hx0)|]. split; [exact (Hpos _ _ Hx1)|].
  split; [reflexivity|]. split; [reflexivity|]. split; [exact Hd|].
  exact (Hmono "apical_1" s 0%nat _ _ "apical_1" s 1%nat _ _
           Hs Hx0 (Hpos _ _ Hx0) Hs Hx1 (Hpos _ _ Hx1) Hd).
Defined.

(** * Further properties *)

(** ** [set_dend_props] *)

Lemma dict_has_alter (f : Sec -> Sec) (ds : gmap string Sec) k k' :
  dict_has (alter f k ds) k' = dict_has ds k'.
Proof.
  unfold dict_has. destruct (decide (k = k')) as [<-|Hne].
  - rewrite lookup_alter_eq. destruct (ds !! k); reflexivity.
  - rewrite lookup_alter_ne by exact Hne. reflexivity.
Qed.

Lemma find_missing_alter (f : Sec -> Sec) (ds : gmap string Sec) k
    (props : list (string * DendProps)) :
  List.find (fun kp => negb (dict_has (alter f k ds) (fst kp))) props
  = List.find (fun kp => negb (dict_has ds (fst kp))) props.
Proof.
  induction props as [|kp props IH]; [reflexivity|].
  cbn [List.find]. rewrite dict_has_alter, IH. reflexivity.
Qed.

Lemma set_dend_props_loop_first_missing props (ds : gmap string Sec) :
  Pyr.set_dend_props_loop props ds
  = match List.find (fun kp => negb (dict_has ds (fst kp))) props with
    | Some kp => Raise (KeyError (fst kp))
    | None => Ok (apply_all_props props ds)
    end.
Proof.
  revert ds. induction props as [|[k p] props IH]; intros ds; [reflexivity|].
  cbn [Pyr.set_dend_props_loop List.find fst].
  unfold dict_has at 1. destruct (ds !! k) as [s|] eqn:E; cbn [negb].
  - rewrite (set_dend_props_key_ok _ _ _ _ E), bind_Ok, IH.
    rewrite find_missing_alter. reflexivity.
  - rewrite (set_dend_props_key_missing _ _ _ E). reflexivity.
Qed.

Lemma apply_all_props_other props (ds : gmap string Sec) k :
  k ∉ map fst props -> apply_all_props props ds !! k = ds !! k.
Proof.
  unfold apply_all_props. revert ds.
  induction props as [|[k' p] props IH]; intros ds Hk; [reflexivity|].
  cbn [foldl fst snd]. rewrite IH.
  - apply lookup_alter_ne. intros ->. apply Hk. left.
  - intros H. apply Hk. right. exact H.
Qed.

Lemma apply_props_fields p s :
  sec_L (apply_props p s) = dp_L p /\
  sec_diam (apply_props p s) = dp_diam p /\
  sec_Ra (apply_props p s) = dp_Ra p /\
  sec_cm (apply_props p s) = dp_cm p /\
  sec_name (apply_props p s) = sec_name s /\
  sec_parent (apply_props p s) = sec_parent s /\
  sec_mechs (apply_props p s) = sec_mechs s /\
  sec_range (apply_props p s) = sec_range s /\
  sec_gbar_ar (apply_props p s) = sec_gbar_ar s.
Proof.
  unfold apply_props. destruct (Qgtb (dp_L p) 100).
  - cbn [sec_nseg set_nseg]. destruct (_ =? 0); repeat split.
  - repeat split.
Qed.

(** X1.  [set_dend_props] reads the dendrites in the order of the
    entries of [p_dend_props]: it raises [KeyError] for the first entry
    whose dendrite does not exist, and when all exist it returns, keeps the
    set of dendrites and touches nothing of the cell but the dendrites. *)
Theorem X1_set_dend_props_missing_key props (c : Cell) :
  match List.find (fun kp => negb (dict_has (dends c) (fst kp))) props with
  | Some kp => Pyr.set_dend_props props c = Raise (KeyError (fst kp))
  | None =>
      exists c', Pyr.set_dend_props props c = Ok c' /\
        dom (dends c') = dom (dends c) /\ same_but_dends c c'
  end.
Proof.
  unfold Pyr.set_dend_props. rewrite set_dend_props_loop_first_missing.
  destruct (List.find _ props) as [kp|]; [reflexivity|].
  rewrite bind_Ok. eexists. split; [reflexivity|].
  rewrite dends_with_dends. split; [apply apply_all_props_dom|].
  unfold same_but_dends. repeat split.
Qed.

(** X2.  When [set_dend_props] returns, every dendrite that has an
    entry has the length, diameter, axial resistivity and capacitance of
    its entry and the segment count of the rule, and keeps its name, its
    parent and its mechanisms; a dendrite without an entry is as it
    was. *)
Theorem X2_set_dend_props_effect props (c c' : Cell) :
  NoDup (map fst props) ->
  Pyr.set_dend_props props c = Ok c' ->
  (forall k p, (k, p) ∈ props ->
     exists s s', dends c !! k = Some s /\ dends c' !! k = Some s' /\
       sec_L s' = dp_L p /\ sec_diam s' = dp_diam p /\
       sec_Ra s' = dp_Ra p /\ sec_cm s' = dp_cm p /\
       sec_nseg s' = (if Qgtb (dp_L p) 100 then segment_count (dp_L p)
                      else sec_nseg s) /\
       sec_name s' = sec_name s /\ sec_parent s' = sec_parent s /\
       sec_mechs s' = sec_mechs s) /\
  (forall k, k ∉ map fst props -> dends c' !! k = dends c !! k).
Proof.
  intros Hnd. unfold Pyr.set_dend_props.
  rewrite set_dend_props_loop_first_missing.
  destruct (List.find _ props) as [kp|] eqn:E; [discriminate|].
  rewrite bind_Ok. intros H. injection H as <-. rewrite dends_with_dends.
  split.
  - intros k p Hin.
    assert (Hhas : negb (dict_has (dends c) k) = false).
    { apply list_elem_of_In in Hin. exact (find_none _ _ E (k, p) Hin). }
    unfold dict_has in Hhas. destruct (dends c !! k) as [s|] eqn:Es;
      [|discriminate].
    exists s, (apply_props p s). split; [reflexivity|].
    rewrite (apply_all_props_lookup _ _ _ _ Hnd Hin), Es.
    split; [reflexivity|].
    destruct (apply_props_fields p s) as (F1 & F2 & F3 & F4 & F5 & F6 & F7 & _).
    rewrite apply_props_nseg. repeat split; assumption.
  - intros k Hk. apply apply_all_props_other. exact Hk.
Qed.

Lemma X2_set_dend_props_effect_witness :
  exists c',
    Pyr.set_dend_props example_dend_props example_small_cell = Ok c' /\
    exists s', dends c' !! "basal_1" = Some s' /\
      sec_L s' = 150%Q /\ sec_nseg s' = 3.
Proof.
  pose proof (X1_set_dend_props_missing_key example_dend_props
                example_small_cell) as H1.
  assert (E : List.find
                (fun kp => negb (dict_has (dends example_small_cell) (fst kp)))
                example_dend_props = None) by (vm_compute; reflexivity).
  rewrite E in H1. destruct H1 as (c' & Hrun & _).
  exists c'. split; [exact Hrun|].
  assert (Hnd : NoDup (map fst example_dend_props))
    by (apply (bool_decide_unpack _); vm_compute; reflexivity).
  destruct (proj1 (X2_set_dend_props_effect example_dend_props
                     example_small_cell c' Hnd Hrun)
              "basal_1" {| dp_L := 150; dp_diam := 4; dp_cm := 0.6195;
                           dp_Ra := 200 |} ltac:(repeat constructor))
    as (s & s' & _ & Hs' & HL & _ & _ & _ & Hn & _).
  exists s'. split; [exact Hs'|]. split; [exact HL|].
  rewrite Hn. vm_compute. reflexivity.
Defined.

(** ** [create_dends], [get_sections] and [get_section_names] *)

Lemma foldl_new_sections (nm : string) (props : list (string * DendProps))
    (d : gmap string Sec) k :
  foldl (fun d kv => <[fst kv := h_Section (nm +:+ "_" +:+ fst kv)]> d)
        d props !! k
  = if decide (k ∈ map fst props)
    then Some (h_Section (nm +:+ "_" +:+ k))
    else d !! k.
Proof.
  revert d. induction props as [|[k' p] props IH]; intros d.
  - cbn. rewrite decide_False; [reflexivity|]. intros H. inversion H.
  - cbn [foldl map fst]. rewrite IH.
    destruct (decide (k ∈ map fst props)) as [Hin|Hnin].
    + rewrite decide_True; [reflexivity|right; exact Hin].
    + destruct (decide (k' = k)) as [->|Hne].
      * rewrite lookup_insert_eq, decide_True; [reflexivity|left].
      * rewrite lookup_insert_ne by exact Hne.
        rewrite decide_False; [reflexivity|].
        intros H. apply elem_of_cons in H as [->|H];
          [apply Hne; reflexivity|apply Hnin; exact H].
Qed.

Lemma elem_of_filter_has (ds : gmap string Sec) (l : list string) k :
  k ∈ List.filter (dict_has ds) l <-> k ∈ l /\ is_Some (ds !! k).
Proof.
  rewrite !list_elem_of_In, filter_In. unfold dict_has.
  destruct (ds !! k) as [s|]; split; intros [H1 H2]; split;
    try exact H1; try reflexivity; try discriminate; eauto.
  destruct H2 as [? H2]. discriminate.
Qed.

(** X3.  After [create_dends] every key of [p_dend_props] is a new,
    unconnected section of one segment named [<name>_<key>], and the
    other dendrites are as before.  [list_dend] holds exactly the
    dendrites among the eight names the class knows, so each of its
    entries refers to an existing dendrite; a dendrite of any other name
    is created all the same but is not in [list_dend]. *)
Theorem X3_create_dends props (c : Cell) :
  (forall k,
     dends (Pyr.create_dends props c) !! k
     = if decide (k ∈ map fst props)
       then Some (h_Section (name c +:+ "_" +:+ k))
       else dends c !! k) /\
  (forall k,
     k ∈ list_dend (Pyr.create_dends props c) <->
     k ∈ Pyr.list_dend_order /\
     is_Some (dends (Pyr.create_dends props c) !! k)) /\
  sect_loc (Pyr.create_dends props c) !! "proximal"
  = Some ["apicaloblique"; "basal2"; "basal3"] /\
  sect_loc (Pyr.create_dends props c) !! "distal" = Some ["apicaltuft"] /\
  soma (Pyr.create_dends props c) = soma c /\
  synapses (Pyr.create_dends props c) = synapses c.
Proof.
  unfold Pyr.create_dends. cbv zeta.
  cbn [dends list_dend sect_loc soma synapses with_sect_loc with_list_dend
       with_dends].
  split; [intros k; apply foldl_new_sections|].
  split; [intros k; apply elem_of_filter_has|].
  split; [|split; [apply lookup_insert_eq|split; reflexivity]].
  rewrite lookup_insert_ne by discriminate. apply lookup_insert_eq.
Qed.

Lemma NoDup_filter_has (ds : gmap string Sec) (l : list string) :
  NoDup l -> NoDup (List.filter (dict_has ds) l).
Proof.
  intros H. apply NoDup_ListNoDup. apply List.NoDup_filter.
  apply NoDup_ListNoDup. exact H.
Qed.

(** X4.  [get_sections] and [get_section_names] run in step: the i-th
    name is "soma" or the key of the i-th section.  After [create_dends]
    the dendrites [get_sections] returns are those of [list_dend], each
    once, up to the order of the two lists; every one of them exists. *)
Theorem X4_get_sections props (c : Cell) :
  Pyr.get_section_names (Pyr.create_dends props c)
  = map (fun r => match r with Soma => "soma" | Dend k => k end)
        (Pyr.get_sections (Pyr.create_dends props c)) /\
  Pyr.get_sections (Pyr.create_dends props c)
  ≡ₚ Soma :: map Dend (list_dend (Pyr.create_dends props c)) /\
  NoDup (Pyr.get_sections (Pyr.create_dends props c)) /\
  (forall k, Dend k ∈ Pyr.get_sections (Pyr.create_dends props c) ->
     is_Some (dends (Pyr.create_dends props c) !! k)).
Proof.
  set (c' := Pyr.create_dends props c).
  assert (Hld : list_dend c' = List.filter (dict_has (dends c')) Pyr.list_dend_order)
    by reflexivity.
  assert (Hn1 : NoDup Pyr.list_dend_order)
    by (apply (bool_decide_unpack _); vm_compute; reflexivity).
  assert (Hn2 : NoDup ["apical_trunk"; "apical_1"; "apical_2"; "apical_tuft";
                       "apical_oblique"; "basal_1"; "basal_2"; "basal_3"])
    by (apply (bool_decide_unpack _); vm_compute; reflexivity).
  assert (Hperm :
    List.filter (dict_has (dends c'))
      ["apical_trunk"; "apical_1"; "apical_2"; "apical_tuft";
       "apical_oblique"; "basal_1"; "basal_2"; "basal_3"]
    ≡ₚ list_dend c').
  { rewrite Hld. apply NoDup_Permutation.
    - apply NoDup_filter_has, Hn2.
    - apply NoDup_filter_has, Hn1.
    - intros k. rewrite !elem_of_filter_has.
      apply and_iff_compat_r. unfold Pyr.list_dend_order.
      rewrite !elem_of_cons. tauto. }
  split; [|split; [|split]].
  - unfold Pyr.get_section_names, Pyr.get_sections. cbn [map].
    rewrite map_map. rewrite map_id. reflexivity.
  - unfold Pyr.get_sections. constructor.
    apply Permutation_map. exact Hperm.
  - unfold Pyr.get_sections. apply NoDup_cons. split.
    + intros H. apply list_elem_of_fmap in H as (k & E & _). discriminate.
    + assert (Inj eq eq Dend) by (intros a b E; injection E; auto).
      apply (NoDup_fmap_2 Dend). apply NoDup_filter_has, Hn2.
  - intros k H. unfold Pyr.get_sections in H.
    apply elem_of_cons in H as [H|H]; [discriminate|].
    apply list_elem_of_fmap in H as (k' & E & H). injection E as <-.
    apply elem_of_filter_has in H as [_ H]. exact H.
Qed.

(** A key [axon] among the dendrite properties. *)
Lemma create_dends_axon_example :
  is_Some (dends example_small_cell !! "axon") /\
  ("axon" ∉ list_dend example_small_cell) /\
  list_dend example_small_cell = ["apical_trunk"; "basal_1"] /\
  Pyr.get_section_names example_small_cell
  = ["soma"; "apical_trunk"; "basal_1"].
Proof.
  split; [vm_compute; eauto|].
  split; [apply (bool_decide_unpack _); vm_compute; reflexivity|].
  split; vm_compute; reflexivity.
Qed.

(** ** [parreceive_ext] beyond the background drives *)

Lemma bind_Ok_inv {A B} (m : res A) (k : A -> res B) b :
  (m ≫= k) = Ok b -> exists a, m = Ok a /\ k a = Ok b.
Proof. destruct m as [a|e]; [eauto|discriminate]. Qed.

Ltac inv_run H :=
  repeat match type of H with
         | (_ ≫= _) = Ok _ =>
             let a := fresh "a" in
             let E := fresh "E" in
             apply bind_Ok_inv in H as (a & E & H)
         | (if ?b then _ else _) = Ok _ => destruct b eqn:?
         end.

Ltac solve_conns :=
  repeat (apply Forall_cons; split;
          [split; [cbn; auto | eexists _, _; repeat split; eauto]|]);
  try apply Forall_nil; try exact I.

Lemma connect_feed_body loc r gs d l (c : Cell) :
  same_body c (_connect_feed_at_loc loc r gs d l c).
Proof. unfold same_body. repeat split. Qed.

Lemma same_body_refl (c : Cell) : same_body c c.
Proof. unfold same_body. repeat split. Qed.

Lemma same_body_trans (c1 c2 c3 : Cell) :
  same_body c1 c2 -> same_body c2 c3 -> same_body c1 c3.
Proof.
  unfold same_body.
  intros (A1 & A2 & A3 & A4 & A5 & A6 & A7 & A8 & A9 & A10)
         (B1 & B2 & B3 & B4 & B5 & B6 & B7 & B8 & B9 & B10).
  repeat split; congruence.
Qed.

(** X7.  Whatever the tables hold, a call of [parreceive_ext] that
    returns has changed nothing of the cell but its connection lists, and
    those only grow at the end: by at most two connections in all, each to
    [ampa] or [nmda], from the source [gid + gid_dict[type][0]]; an evoked
    type adds to [ncfrom_common] only, [extgauss] to [ncfrom_extgauss]
    only and [extpois] to [ncfrom_extpois] only. *)
Theorem X7_parreceive_ext_frame type g gid_dict pos_dict p_ext c out c' out' :
  Pyr.parreceive_ext type g gid_dict pos_dict p_ext c out = Ok (c', out') ->
  same_body c c' /\
  exists l1 l2 l3,
    ncfrom_common c' = ncfrom_common c ++ l1 /\
    ncfrom_extgauss c' = ncfrom_extgauss c ++ l2 /\
    ncfrom_extpois c' = ncfrom_extpois c ++ l3 /\
    (length (l1 ++ l2 ++ l3) <= 2)%nat /\
    Forall (fun fc => (fc_receptor fc = "ampa" \/ fc_receptor fc = "nmda") /\
                      exists r g0, gid_dict !! type = Some r /\
                        seq_get r 0 = Ok g0 /\ fc_gid_src fc = g + g0)
           (l1 ++ l2 ++ l3) /\
    (startswith2 type "evprox" "evdist" = false -> l1 = []) /\
    (type <> "extgauss" -> l2 = []) /\
    (type <> "extpois" -> l3 = []).
Proof.
  intros H. unfold Pyr.parreceive_ext in H.
  assert (Hnone : same_body c c /\
    exists l1 l2 l3 : list FeedConn,
      ncfrom_common c = ncfrom_common c ++ l1 /\
      ncfrom_extgauss c = ncfrom_extgauss c ++ l2 /\
      ncfrom_extpois c = ncfrom_extpois c ++ l3 /\
      (length (l1 ++ l2 ++ l3) <= 2)%nat /\
      Forall (fun fc => (fc_receptor fc = "ampa" \/ fc_receptor fc = "nmda") /\
                        exists r g0, gid_dict !! type = Some r /\
                          seq_get r 0 = Ok g0 /\ fc_gid_src fc = g + g0)
             (l1 ++ l2 ++ l3) /\
      (startswith2 type "evprox" "evdist" = false -> l1 = []) /\
      (type <> "extgauss" -> l2 = []) /\
      (type <> "extpois" -> l3 = [])).
  { split; [apply same_body_refl|]. exists [], [], []. rewrite !app_nil_r.
    repeat split; try reflexivity. cbn. lia. constructor. }
  destruct (startswith2 type "evprox" "evdist") eqn:Eev.
  - destruct (dict_has p_ext (celltype c));
      [|injection H as <- <-; exact Hnone].
    inv_run H. injection H as <- <-.
    split; [eapply same_body_trans; apply connect_feed_body|].
    unfold dict_get in E. destruct (gid_dict !! type) as [r|] eqn:Er;
      [|discriminate]. injection E as <-.
    eexists [_; _], [], []. cbn [_connect_feed_at_loc nc_list_append
      ncfrom_common ncfrom_extgauss ncfrom_extpois].
    rewrite <- app_assoc, !app_nil_r.
    repeat split; try reflexivity; try discriminate; try congruence;
      try (cbn; lia); solve_conns.
  - destruct (String.eqb type "extgauss") eqn:Eg.
    + apply String.eqb_eq in Eg. subst type.
      destruct (dict_has p_ext (celltype c));
        [|injection H as <- <-; exact Hnone].
      inv_run H. injection H as <- <-.
      split; [apply connect_feed_body|].
      unfold dict_get in E. destruct (gid_dict !! "extgauss") as [r|] eqn:Er;
        [|discriminate]. injection E as <-.
      eexists [], [_], []. cbn [_connect_feed_at_loc nc_list_append
        ncfrom_common ncfrom_extgauss ncfrom_extpois].
      rewrite !app_nil_r.
      repeat split; try reflexivity; try discriminate; try congruence;
      try (cbn; lia); solve_conns.
    + destruct (String.eqb type "extpois") eqn:Ep;
        [|injection H as <- <-; exact Hnone].
      apply String.eqb_eq in Ep. subst type.
      destruct (dict_has p_ext (celltype c));
        [|injection H as <- <-; exact Hnone].
      inv_run H.
      * inv_run H. injection H as <- <-.
        split; [eapply same_body_trans; apply connect_feed_body|].
        unfold dict_get in E.
        destruct (gid_dict !! "extpois") as [r|] eqn:Er;
          [|discriminate]. injection E as <-.
        eexists [], [], [_; _]. cbn [_connect_feed_at_loc nc_list_append
          ncfrom_common ncfrom_extgauss ncfrom_extpois].
        rewrite <- app_assoc, !app_nil_r.
        repeat split; try reflexivity; try discriminate; try congruence;
      try (cbn; lia); solve_conns.
      * injection H as <- <-.
        split; [apply connect_feed_body|].
        unfold dict_get in E.
        destruct (gid_dict !! "extpois") as [r|] eqn:Er;
          [|discriminate]. injection E as <-.
        eexists [], [], [_]. cbn [_connect_feed_at_loc nc_list_append
          ncfrom_common ncfrom_extgauss ncfrom_extpois].
        rewrite !app_nil_r.
        repeat split; try reflexivity; try discriminate; try congruence;
      try (cbn; lia); solve_conns.
Qed.

Lemma X7_parreceive_ext_frame_witness :
  exists c' out',
    Pyr.parreceive_ext "extpois" 1 example_gid_dict example_pos_dict
      (example_p_ext 0.25) example_cell [] = Ok (c', out') /\
    same_body example_cell c' /\
    ncfrom_common c' = ncfrom_common example_cell.
Proof.
  destruct (Pyr.parreceive_ext "extpois" 1 example_gid_dict example_pos_dict
              (example_p_ext 0.25) example_cell []) as [[c' out']|e] eqn:E;
    [|vm_compute in E; discriminate].
  exists c', out'. split; [reflexivity|].
  destruct (X7_parreceive_ext_frame _ _ _ _ _ _ _ _ _ E)
    as (Hb & l1 & l2 & l3 & H1 & _ & _ & _ & _ & Hl1 & _).
  split; [exact Hb|].
  rewrite H1, (Hl1 eq_refl). apply app_nil_r.
Defined.

(** X5.  For an evoked drive (a type starting with [evprox] or
    [evdist]) and a cell whose type is in the drive's table, with the
    entries the call reads in place, [parreceive_ext] registers two
    connections in [ncfrom_common], both at the location [p_ext['loc']]
    and with the delay at index 2: first [ampa] with the weight at index
    0, then [nmda] with the weight at index 1 -- also when that weight is
    zero, unlike the Poisson drive. *)
Theorem X5_evoked_drive type g gid_dict pos_dict p_ext c out
    r g0 ps src w0 w1 dly rest lam thr loc :
  startswith2 type "evprox" "evdist" = true ->
  gid_dict !! type = Some r -> seq_get r 0 = Ok g0 ->
  pos_dict !! type = Some ps -> seq_get ps g = Ok src ->
  p_ext !! celltype c = Some (PSeq (w0 :: w1 :: dly :: rest)) ->
  p_ext !! "lamtha_space" = Some lam -> p_ext !! "threshold" = Some thr ->
  p_ext !! "loc" = Some loc ->
  exists c',
    Pyr.parreceive_ext type g gid_dict pos_dict p_ext c out = Ok (c', out) /\
    ncfrom_common c'
    = ncfrom_common c
      ++ [feed_conn loc "ampa" type (g + g0) src w0 dly lam thr;
          feed_conn loc "nmda" type (g + g0) src w1 dly lam thr] /\
    ncfrom_extgauss c' = ncfrom_extgauss c /\
    ncfrom_extpois c' = ncfrom_extpois c.
Proof.
  intros Hev H1 H2 H3 H4 H5 H6 H7 H8.
  unfold Pyr.parreceive_ext. rewrite Hev.
  rewrite (dict_has_Some _ _ _ H5).
  rewrite (dict_get_Some _ _ _ H1), bind_Ok, H2, bind_Ok.
  rewrite (ext_nc_dict_ok _ _ _ 0 _ _ _ _ _ _ _ w0 dly _ _ H3 H4 H5
             (subscript_0 _ _) (subscript_2 _ _ _ _) H6 H7), bind_Ok.
  rewrite (ext_nc_dict_ok _ _ _ 1 _ _ _ _ _ _ _ w1 dly _ _ H3 H4 H5
             (subscript_1 _ _ _) (subscript_2 _ _ _ _) H6 H7), bind_Ok.
  rewrite (dict_get_Some _ _ _ H8), !bind_Ok.
  eexists. split; [reflexivity|].
  unfold _connect_feed_at_loc.
  cbn [ncfrom_extgauss ncfrom_extpois ncfrom_common nc_list_append].
  rewrite <- app_assoc. repeat split.
Qed.

(** An evoked proximal drive with slow weight 0: the [nmda] connection
    is made all the same. *)
Lemma X5_evoked_drive_witness :
  exists c',
    Pyr.parreceive_ext "evprox1" 0 example_ev_gid_dict example_ev_pos_dict
      example_ev_p_ext example_cell [] = Ok (c', []) /\
    ncfrom_common c'
    = [feed_conn (PStr "proximal") "ampa" "evprox1" 400
         (PSeq [PNum 0; PNum 0]) (PNum 0.5) (PNum 1) (PNum 3) (PNum 0);
       feed_conn (PStr "proximal") "nmda" "evprox1" 400
         (PSeq [PNum 0; PNum 0]) (PNum 0) (PNum 1) (PNum 3) (PNum 0)].
Proof.
  destruct (X5_evoked_drive "evprox1" 0 example_ev_gid_dict
              example_ev_pos_dict example_ev_p_ext example_cell []
              [400; 401] 400 [PSeq [PNum 0; PNum 0]; PSeq [PNum 1; PNum 0]]
              (PSeq [PNum 0; PNum 0]) (PNum 0.5) (PNum 0) (PNum 1) []
              (PNum 3) (PNum 0) (PStr "proximal")
              ltac:(vm_compute; reflexivity) ltac:(vm_compute; reflexivity)
              ltac:(vm_compute; reflexivity) ltac:(vm_compute; reflexivity)
              ltac:(vm_compute; reflexivity) ltac:(vm_compute; reflexivity)
              ltac:(vm_compute; reflexivity) ltac:(vm_compute; reflexivity)
              ltac:(vm_compute; reflexivity))
    as (c' & Hrun & Hc & _).
  exists c'. split; [exact Hrun|]. rewrite Hc. reflexivity.
Defined.

(** X6.  When the cell's type has no entry in the drive's table,
    [parreceive_ext] reads nothing else and does nothing: for an evoked,
    a Gaussian or a Poisson drive it returns the cell unchanged and prints
    nothing, whatever the other tables hold or lack. *)
Theorem X6_cell_type_not_in_table type g gid_dict pos_dict p_ext c out :
  p_ext !! celltype c = None ->
  startswith2 type "evprox" "evdist" = true \/
  type = "extgauss" \/ type = "extpois" ->
  Pyr.parreceive_ext type g gid_dict pos_dict p_ext c out = Ok (c, out).
Proof.
  intros Hn Ht. unfold Pyr.parreceive_ext.
  rewrite (dict_has_None _ _ Hn).
  destruct (startswith2 type "evprox" "evdist"); [reflexivity|].
  destruct Ht as [Ht|[-> | ->]]; [discriminate|reflexivity|reflexivity].
Qed.

Lemma X6_cell_type_not_in_table_witness :
  Pyr.parreceive_ext "extgauss" 5 ∅ ∅ example_ev_p_ext
    (with_celltype "L5Pyr" example_cell) []
  = Ok (with_celltype "L5Pyr" example_cell, []).
Proof.
  apply (X6_cell_type_not_in_table "extgauss" 5 ∅ ∅ example_ev_p_ext
           (with_celltype "L5Pyr" example_cell) []).
  - vm_compute. reflexivity.
  - right. left. reflexivity.
Defined.

(** ** [parreceive] beyond the stale dictionary *)

Lemma name_connect_feed loc r gs d l (c : Cell) :
  name (_connect_feed_at_loc loc r gs d l c) = name c.
Proof. reflexivity. Qed.

(** One turn of the inner loop that returns: the connection it adds has
    the receptor of the turn, the gid of the source and the location the
    source gives; nothing else of the cell changes. *)
Lemma parreceive_receptor_frame gid_src (p_src : gmap string pval) src_pos
    receptor st st' :
  Pyr.parreceive_receptor gid_src p_src src_pos receptor st = Ok st' ->
  same_body (fst st) (fst st') /\
  ncfrom_extgauss (fst st') = ncfrom_extgauss (fst st) /\
  ncfrom_extpois (fst st') = ncfrom_extpois (fst st) /\
  exists fc,
    ncfrom_common (fst st') = ncfrom_common (fst st) ++ [fc] /\
    fc_receptor fc = receptor /\ fc_gid_src fc = gid_src /\
    p_src !! "loc" = Some (fc_feed_loc fc).
Proof.
  unfold Pyr.parreceive_receptor.
  destruct (if dict_has p_src _ then _ else _) as [nc|e]; [|discriminate].
  rewrite bind_Ok. unfold dict_get at 1.
  destruct (p_src !! "loc") as [loc|] eqn:El; [|discriminate].
  rewrite bind_Ok. destruct nc as [d|]; [|discriminate].
  rewrite bind_Ok. intros H. injection H as <-. cbn [fst].
  split; [apply connect_feed_body|]. split; [reflexivity|].
  split; [reflexivity|]. eexists. unfold _connect_feed_at_loc.
  cbn [ncfrom_common nc_list_append fc_receptor fc_gid_src fc_feed_loc].
  repeat split.
Qed.

Lemma parreceive_loop_frame srcs st st' :
  Pyr.parreceive_loop srcs st = Ok st' ->
  same_body (fst st) (fst st') /\
  ncfrom_extgauss (fst st') = ncfrom_extgauss (fst st) /\
  ncfrom_extpois (fst st') = ncfrom_extpois (fst st) /\
  exists new,
    ncfrom_common (fst st') = ncfrom_common (fst st) ++ new /\
    map (fun fc => (fc_gid_src fc, fc_receptor fc, Some (fc_feed_loc fc))) new
    = flat_map (fun src : Z * gmap string pval * pval =>
                  [(fst (fst src), "ampa", snd (fst src) !! "loc");
                   (fst (fst src), "nmda", snd (fst src) !! "loc")]) srcs.
Proof.
  revert st. induction srcs as [|[[g p] ps] srcs IH]; intros st H.
  - injection H as <-. split; [apply same_body_refl|].
    split; [reflexivity|]. split; [reflexivity|].
    exists []. rewrite app_nil_r. split; reflexivity.
  - cbn [Pyr.parreceive_loop Pyr.parreceive_source] in H.
    apply bind_Ok_inv in H as (st2 & H12 & H).
    apply bind_Ok_inv in H12 as (st1 & H1 & H2).
    apply parreceive_receptor_frame in H1
      as (B1 & G1 & P1 & fc1 & C1 & R1 & S1 & L1).
    apply parreceive_receptor_frame in H2
      as (B2 & G2 & P2 & fc2 & C2 & R2 & S2 & L2).
    apply IH in H as (B3 & G3 & P3 & new & C3 & M3).
    split; [eapply same_body_trans; [|exact B3];
            eapply same_body_trans; eassumption|].
    split; [congruence|]. split; [congruence|].
    exists (fc1 :: fc2 :: new). split.
    + rewrite C3, C2, C1, <- !app_assoc. reflexivity.
    + assert (HL : fc_feed_loc fc2 = fc_feed_loc fc1) by congruence.
      cbn [map flat_map fst snd app]. rewrite M3, R1, R2, S1, S2, HL, L1.
      reflexivity.
Qed.

(** X8.  A call of [parreceive] that returns has gone through as many
    sources as the shortest of [gid_dict['common']], [p_ext] and
    [pos_dict['common']] has entries, and has added to [ncfrom_common],
    for each of them in order, an [ampa] and then an [nmda] connection
    from the gid of that source at the location that source gives;
    nothing else of the cell has changed. *)
Theorem X8_parreceive_connections g gid_dict pos_dict p_ext c c' :
  Pyr.parreceive g gid_dict pos_dict p_ext c = Ok c' ->
  exists gids poss new,
    gid_dict !! "common" = Some gids /\ pos_dict !! "common" = Some poss /\
    same_body c c' /\
    ncfrom_extgauss c' = ncfrom_extgauss c /\
    ncfrom_extpois c' = ncfrom_extpois c /\
    ncfrom_common c' = ncfrom_common c ++ new /\
    map (fun fc => (fc_gid_src fc, fc_receptor fc, Some (fc_feed_loc fc))) new
    = flat_map (fun src : Z * gmap string pval * pval =>
                  [(fst (fst src), "ampa", snd (fst src) !! "loc");
                   (fst (fst src), "nmda", snd (fst src) !! "loc")])
               (Pyr.zip3 gids p_ext poss) /\
    length new
    = (2 * Nat.min (Nat.min (length gids) (length p_ext)) (length poss))%nat.
Proof.
  unfold Pyr.parreceive. intros H.
  apply bind_Ok_inv in H as (gids & Hg & H).
  apply bind_Ok_inv in H as (poss & Hp & H).
  apply bind_Ok_inv in H as (st & Hl & H). injection H as <-.
  unfold dict_get in Hg, Hp.
  destruct (gid_dict !! "common") as [gs|]; [|discriminate].
  destruct (pos_dict !! "common") as [pp|]; [|discriminate].
  injection Hg as ->. injection Hp as ->.
  apply parreceive_loop_frame in Hl as (B & G & P & new & C & M).
  cbn [fst] in *. exists gids, poss, new.
  do 7 (split; [first [reflexivity | assumption]|]).
  assert (Hlen : length new
                 = (2 * length (Pyr.zip3 gids p_ext poss))%nat).
  { rewrite <- (length_map
                  (fun fc => (fc_gid_src fc, fc_receptor fc,
                              Some (fc_feed_loc fc))) new), M.
    generalize (Pyr.zip3 gids p_ext poss). intros l.
    induction l as [|x l IHl]; [reflexivity|]. cbn [flat_map length app].
    rewrite IHl. lia. }
  rewrite Hlen. f_equal. clear.
  revert p_ext poss. induction gids as [|x gids IH]; intros [|y p_ext] [|z poss];
    try reflexivity.
  cbn [Pyr.zip3 length]. rewrite IH. lia.
Qed.

(** X9.  For a source that defines both receptors, together with
    [lamtha], [threshold] and [loc], the two connections of [parreceive]
    are made each with a dictionary of its own: position of the source,
    weight and delay of the receptor.  Whatever dictionary an earlier
    source left behind plays no part. *)
Theorem X9_parreceive_source_defined gid_src (p_src : gmap string pval)
    src_pos (c : Cell) nc wa da ra wn dn rn lam thr loc :
  p_src !! (name c +:+ "_ampa") = Some (PSeq (wa :: da :: ra)) ->
  p_src !! (name c +:+ "_nmda") = Some (PSeq (wn :: dn :: rn)) ->
  p_src !! "lamtha" = Some lam -> p_src !! "threshold" = Some thr ->
  p_src !! "loc" = Some loc ->
  exists c',
    Pyr.parreceive_source (gid_src, p_src, src_pos) (c, nc)
    = Ok (c', Some {| pos_src := src_pos; A_weight := wn; A_delay := dn;
                      lamtha := lam; threshold := thr; type_src := "ext" |}) /\
    ncfrom_common c'
    = ncfrom_common c
      ++ [feed_conn loc "ampa" "ext" gid_src src_pos wa da lam thr;
          feed_conn loc "nmda" "ext" gid_src src_pos wn dn lam thr].
Proof.
  intros Ha Hn Hl Ht Hloc.
  unfold Pyr.parreceive_source, Pyr.parreceive_receptor. cbn [fst snd].
  change (name c +:+ "_" +:+ "ampa") with (name c +:+ "_ampa").
  rewrite (dict_has_Some _ _ _ Ha), (dict_get_Some _ _ _ Ha), !bind_Ok.
  rewrite subscript_0, !bind_Ok, subscript_1, !bind_Ok.
  rewrite (dict_get_Some _ _ _ Hl), bind_Ok.
  rewrite (dict_get_Some _ _ _ Ht), !bind_Ok.
  rewrite (dict_get_Some _ _ _ Hloc), !bind_Ok.
  cbn [fst snd]. rewrite name_connect_feed.
  change (name c +:+ "_" +:+ "nmda") with (name c +:+ "_nmda").
  rewrite (dict_has_Some _ _ _ Hn), (dict_get_Some _ _ _ Hn), !bind_Ok.
  rewrite subscript_0, !bind_Ok, subscript_1, !bind_Ok.
  eexists. split; [reflexivity|].
  unfold _connect_feed_at_loc. cbn [ncfrom_common nc_list_append].
  rewrite <- app_assoc. reflexivity.
Qed.

Lemma X8_parreceive_connections_witness :
  exists c',
    Pyr.parreceive 0 example_gid_dict example_pos_dict [example_src_both]
      example_cell = Ok c' /\
    length (ncfrom_common c') = 2%nat.
Proof.
  destruct (Pyr.parreceive 0 example_gid_dict example_pos_dict
              [example_src_both] example_cell) as [c'|e] eqn:E;
    [|vm_compute in E; discriminate].
  exists c'. split; [reflexivity|].
  destruct (X8_parreceive_connections _ _ _ _ _ _ E)
    as (gids & poss & new & Hg & Hp & _ & _ & _ & Hc & _ & Hlen).
  vm_compute in Hg. injection Hg as <-.
  vm_compute in Hp. injection Hp as <-.
  rewrite Hc, length_app, Hlen. reflexivity.
Defined.

(** A source that defines both receptors, met with the dictionary of an
    earlier source at hand. *)
Lemma X9_parreceive_source_defined_witness :
  exists c',
    Pyr.parreceive_source (300, example_src_both, PSeq [PNum 0; PNum 0])
      (example_cell, Some example_ampa_nc_dict)
    = Ok (c', Some {| pos_src := PSeq [PNum 0; PNum 0];
                      A_weight := PNum 0.25; A_delay := PNum 2;
                      lamtha := PNum 100; threshold := PNum 0;
                      type_src := "ext" |}) /\
    ncfrom_common c'
    = ncfrom_common example_cell
      ++ [feed_conn (PStr "distal") "ampa" "ext" 300 (PSeq [PNum 0; PNum 0])
            (PNum 0.5) (PNum 1) (PNum 100) (PNum 0);
          feed_conn (PStr "distal") "nmda" "ext" 300 (PSeq [PNum 0; PNum 0])
            (PNum 0.25) (PNum 2) (PNum 100) (PNum 0)].
Proof.
  apply (X9_parreceive_source_defined 300 example_src_both
           (PSeq [PNum 0; PNum 0]) example_cell (Some example_ampa_nc_dict)
           (PNum 0.5) (PNum 1) [] (PNum 0.25) (PNum 2) []
           (PNum 100) (PNum 0) (PStr "distal"));
    vm_compute; reflexivity.
Defined.

(** X10.  [parreceive] reads [gid_dict['common']] and
    [pos_dict['common']] before it looks at a source: without the first,
    or with the first and without the second, it raises
    [KeyError('common')], also when there is no source at all; with both
    in place and one of the three lists empty it returns the cell as it
    was. *)
Theorem X10_parreceive_edges g (gid_dict : gmap string (list Z))
    (pos_dict : gmap string (list pval)) (p_ext : list (gmap string pval))
    (c : Cell) :
  (gid_dict !! "common" = None ->
   Pyr.parreceive g gid_dict pos_dict p_ext c = Raise (KeyError "common")) /\
  (is_Some (gid_dict !! "common") -> pos_dict !! "common" = None ->
   Pyr.parreceive g gid_dict pos_dict p_ext c = Raise (KeyError "common")) /\
  (forall gids poss,
     gid_dict !! "common" = Some gids -> pos_dict !! "common" = Some poss ->
     gids = [] \/ p_ext = [] \/ poss = [] ->
     Pyr.parreceive g gid_dict pos_dict p_ext c = Ok c).
Proof.
  unfold Pyr.parreceive, dict_get. split; [|split].
  - intros ->. reflexivity.
  - intros [gids ->] ->. reflexivity.
  - intros gids poss -> -> H. rewrite !bind_Ok.
    assert (Hz : Pyr.zip3 gids p_ext poss = []).
    { destruct H as [-> | [-> | ->]]; [reflexivity| |].
      - destruct gids; reflexivity.
      - destruct gids; [reflexivity|]. destruct p_ext; reflexivity. }
    rewrite Hz. reflexivity.
Qed.

(** No source and no tables: the call fails all the same. *)
Lemma X10_parreceive_edges_witness :
  Pyr.parreceive 0 ∅ ∅ [] example_cell = Raise (KeyError "common").
Proof.
  apply (proj1 (X10_parreceive_edges 0 ∅ ∅ [] example_cell)).
  reflexivity.
Defined.

(** ** [_synapse_create] on a cell that has synapses already *)

Lemma registry_over (l5 : bool) (props : string -> SynProps) (syn : gmap string Synapse) :
  (if l5 then
     insert "apicaltuft_gabaa"
       (syn_create (Dend "apical_tuft") 0.5 (props "gabaa"))
   else fun m : gmap string Synapse => m)
    (<["apicaltuft_nmda" := syn_create (Dend "apical_tuft") 0.5 (props "nmda")]>
    (<["apicaltuft_ampa" := syn_create (Dend "apical_tuft") 0.5 (props "ampa")]>
    (<["basal3_nmda" := syn_create (Dend "basal_3") 0.5 (props "nmda")]>
    (<["basal3_ampa" := syn_create (Dend "basal_3") 0.5 (props "ampa")]>
    (<["basal2_nmda" := syn_create (Dend "basal_2") 0.5 (props "nmda")]>
    (<["basal2_ampa" := syn_create (Dend "basal_2") 0.5 (props "ampa")]>
    (<["apicaloblique_nmda" := syn_create (Dend "apical_oblique") 0.5 (props "nmda")]>
    (<["apicaloblique_ampa" := syn_create (Dend "apical_oblique") 0.5 (props "ampa")]>
    (<["soma_gabab" := syn_create Soma 0.5 (props "gabab")]>
    (<["soma_gabaa" := syn_create Soma 0.5 (props "gabaa")]> syn))))))))))
  = registry l5 props ∪ syn.
Proof.
  unfold registry. cbv zeta.
  destruct l5; rewrite <- !insert_union_l, (left_id_L ∅ (∪)); reflexivity.
Qed.

Lemma synapse_create_over (c : Cell) (p_syn : gmap string SynProps)
    (props : string -> SynProps) syn :
  is_Some (dends c !! "apical_oblique") ->
  is_Some (dends c !! "basal_2") ->
  is_Some (dends c !! "basal_3") ->
  is_Some (dends c !! "apical_tuft") ->
  (forall r, r ∈ ["ampa"; "nmda"; "gabaa"; "gabab"] -> p_syn !! r = Some (props r)) ->
  Pyr._synapse_create p_syn (with_synapses syn c)
  = Ok (with_synapses (registry (String.eqb (name c) "L5Pyr") props ∪ syn) c).
Proof.
  intros H1 H2 H3 H4 Hp.
  assert (Ha := Hp "ampa" ltac:(repeat constructor)).
  assert (Hn := Hp "nmda" ltac:(repeat constructor)).
  assert (Hga := Hp "gabaa" ltac:(repeat constructor)).
  assert (Hgb := Hp "gabab" ltac:(repeat constructor)).
  rewrite <- registry_over.
  unfold Pyr._synapse_create.
  rewrite (syn_at_soma_ok _ _ _ _ _ _ Hga), bind_Ok.
  rewrite (syn_at_soma_ok _ _ _ _ _ _ Hgb), bind_Ok.
  rewrite (syn_at_dend_ok _ _ _ _ _ _ _ H1 Ha), bind_Ok.
  rewrite (syn_at_dend_ok _ _ _ _ _ _ _ H1 Hn), bind_Ok.
  rewrite (syn_at_dend_ok _ _ _ _ _ _ _ H2 Ha), bind_Ok.
  rewrite (syn_at_dend_ok _ _ _ _ _ _ _ H2 Hn), bind_Ok.
  rewrite (syn_at_dend_ok _ _ _ _ _ _ _ H3 Ha), bind_Ok.
  rewrite (syn_at_dend_ok _ _ _ _ _ _ _ H3 Hn), bind_Ok.
  rewrite (syn_at_dend_ok _ _ _ _ _ _ _ H4 Ha), bind_Ok.
  rewrite (syn_at_dend_ok _ _ _ _ _ _ _ H4 Hn), bind_Ok.
  rewrite name_with_synapses.
  destruct (String.eqb (name c) "L5Pyr").
  - rewrite (syn_at_dend_ok _ _ _ _ _ _ _ H4 Hga). reflexivity.
  - reflexivity.
Qed.

(** X11.  On any cell that has the four dendrites, and with the four
    receptors in [p_syn], [_synapse_create] returns: it writes the
    synapses of the attachment map over the registry (eleven when the
    cell's name is [L5Pyr], ten otherwise), keeps every synapse under
    another key, and changes nothing else of the cell: dendrites, soma,
    name, type, gid, position, [list_dend], [sect_loc], [yscale] and the
    three connection lists are as before.  Run a second time on its own
    result it writes the same registry again. *)
Theorem X11_synapse_create_overwrites (c : Cell)
    (p_syn : gmap string SynProps) (props : string -> SynProps) :
  (forall d, d ∈ synapse_dends -> is_Some (dends c !! d)) ->
  (forall r, r ∈ ["ampa"; "nmda"; "gabaa"; "gabab"] ->
     p_syn !! r = Some (props r)) ->
  exists c',
    Pyr._synapse_create p_syn c = Ok c' /\
    synapses c'
    = list_to_map (placements (String.eqb (name c) "L5Pyr") props)
      ∪ synapses c /\
    (forall k, k ∉ map fst (placements true props) ->
       synapses c' !! k = synapses c !! k) /\
    dends c' = dends c /\ soma c' = soma c /\ name c' = name c /\
    celltype c' = celltype c /\ yscale c' = yscale c /\
    all_conns c' = all_conns c /\
    gid c' = gid c /\ pos c' = pos c /\ list_dend c' = list_dend c /\
    sect_loc c' = sect_loc c /\ ncfrom_common c' = ncfrom_common c /\
    ncfrom_extgauss c' = ncfrom_extgauss c /\
    ncfrom_extpois c' = ncfrom_extpois c /\
    Pyr._synapse_create p_syn c' = Ok c'.
Proof.
  intros Hd Hp.
  assert (H1 := Hd "apical_oblique" ltac:(repeat constructor)).
  assert (H2 := Hd "basal_2" ltac:(repeat constructor)).
  assert (H3 := Hd "basal_3" ltac:(repeat constructor)).
  assert (H4 := Hd "apical_tuft" ltac:(repeat constructor)).
  exists (with_synapses
            (registry (String.eqb (name c) "L5Pyr") props ∪ synapses c) c).
  split.
  { rewrite <- (with_synapses_same c) at 1.
    apply synapse_create_over; assumption. }
  rewrite synapses_with_synapses, <- registry_placements.
  split; [reflexivity|]. split.
  { intros k Hk. apply lookup_union_r. rewrite registry_placements.
    apply not_elem_of_list_to_map_1. intros Hin. apply Hk.
    destruct (String.eqb (name c) "L5Pyr"); [exact Hin|].
    unfold placements in *. rewrite app_nil_r in Hin.
    rewrite map_app. apply elem_of_app. left. exact Hin. }
  do 13 (split; [reflexivity|]).
  rewrite (synapse_create_over c p_syn props _ H1 H2 H3 H4 Hp).
  rewrite (map_union_assoc (registry _ _)), (map_union_idemp (registry _ _)).
  reflexivity.
Qed.

(** A built [L5Pyr] cell: creating its synapses again changes nothing. *)
Lemma X11_synapse_create_overwrites_witness :
  exists c',
    Pyr._synapse_create
      (Pyr._get_syn_props example_params
         (L5Built.built example_params 0 (PNum 0)))
      (L5Built.built example_params 0 (PNum 0)) = Ok c' /\
    dends c' = dends (L5Built.built example_params 0 (PNum 0)).
Proof.
  assert (Hdom := L5_equipped_dom example_params 0 (PNum 0)).
  rewrite L5_skeleton_dom, <- L5_built_dends in Hdom.
  destruct (X11_synapse_create_overwrites
              (L5Built.built example_params 0 (PNum 0))
              (Pyr._get_syn_props example_params
                 (L5Built.built example_params 0 (PNum 0)))
              (Pyr.syn_props_of example_params
                 (name (L5Built.built example_params 0 (PNum 0)))))
    as (c' & Hrun & _ & _ & Hd & _).
  - intros d Hin. eapply is_Some_dom; [exact Hdom|].
    unfold synapse_dends in Hin.
    repeat (apply elem_of_cons in Hin as [->|Hin]; [set_solver|]).
    inversion Hin.
  - intros r Hr. apply get_syn_props_lookup. exact Hr.
  - exists c'. split; [exact Hrun|exact Hd].
Defined.

(** ** More on the cells the constructors build *)

Lemma L2_built_name p_all g ps : name (L2Built.built p_all g ps) = "L2Pyr".
Proof.
  unfold L2Built.built. cbv zeta. rewrite name_with_synapses.
  apply L2_wired_name.
Qed.

Lemma L5_built_name p_all g ps : name (L5Built.built p_all g ps) = "L5Pyr".
Proof.
  unfold L5Built.built. cbv zeta. rewrite name_with_synapses.
  apply L5_wired_name.
Qed.

Lemma L2_built_soma_geometry p_all g ps :
  sec_L (soma (L2Built.built p_all g ps)) = 22.1%Q /\
  sec_diam (soma (L2Built.built p_all g ps)) = 23.4%Q.
Proof.
  unfold L2Built.built, L2Built.wired, L2Built.equipped,
    L2Pyr._biophys_dends, L2Pyr._biophys_soma.
  cbv zeta. autorewrite with cell. split; reflexivity.
Qed.

Lemma L5_built_soma_geometry p_all g ps :
  sec_L (soma (L5Built.built p_all g ps)) = 39%Q /\
  sec_diam (soma (L5Built.built p_all g ps)) = 28.9%Q.
Proof.
  unfold L5Built.built, L5Built.wired, L5Built.equipped,
    L5Pyr.__biophys_dends, L5Pyr.__biophys_soma.
  cbv zeta. autorewrite with cell. split; reflexivity.
Qed.

(** X12.  The soma of a built cell has the length and the diameter
    [geom] writes, 22.1 and 23.4 for [L2Pyr] and 39 and 28.9 for [L5Pyr],
    whatever the parameters [<name>_soma_L] and [<name>_soma_diam] are:
    the values [_get_soma_props] reads for them are overwritten. *)
Theorem X12_soma_geometry_fixed p_all shape3d g ps :
  (exists c, L2Pyr.__init__ p_all shape3d g ps = Ok c /\
     so_L (L2Pyr._get_soma_props p_all ps) = p_all "L2Pyr_soma_L" /\
     so_diam (L2Pyr._get_soma_props p_all ps) = p_all "L2Pyr_soma_diam" /\
     sec_L (soma c) = 22.1%Q /\ sec_diam (soma c) = 23.4%Q) /\
  (exists c, L5Pyr.__init__ p_all shape3d g ps = Ok c /\
     so_L (L5Pyr.__get_soma_props p_all ps) = p_all "L5Pyr_soma_L" /\
     so_diam (L5Pyr.__get_soma_props p_all ps) = p_all "L5Pyr_soma_diam" /\
     sec_L (soma c) = 39%Q /\ sec_diam (soma c) = 28.9%Q).
Proof.
  split.
  - exists (L2Built.built p_all g ps). split; [apply L2_init_eq|].
    split; [reflexivity|]. split; [reflexivity|].
    apply L2_built_soma_geometry.
  - exists (L5Built.built p_all g ps). split; [apply L5_init_eq|].
    split; [reflexivity|]. split; [reflexivity|].
    apply L5_built_soma_geometry.
Qed.

Lemma L2_props_shared p_all k p :
  (k, p) ∈ L2Built.dend_props p_all ->
  dp_Ra p = p_all "L2Pyr_dend_Ra" /\ dp_cm p = p_all "L2Pyr_dend_cm".
Proof.
  intros H. unfold L2Built.dend_props in H.
  repeat (apply elem_of_cons in H as [H|H];
          [inversion H; subst; split; reflexivity|]).
  inversion H.
Qed.

Lemma L5_props_shared p_all k p :
  (k, p) ∈ L5Built.dend_props p_all ->
  dp_Ra p = p_all "L5Pyr_dend_Ra" /\ dp_cm p = p_all "L5Pyr_dend_cm".
Proof.
  intros H. unfold L5Built.dend_props in H.
  repeat (apply elem_of_cons in H as [H|H];
          [inversion H; subst; split; reflexivity|]).
  inversion H.
Qed.

Lemma L2_skeleton_name k s0 :
  L2Built.skeleton_dends !! k = Some s0 -> sec_name s0 = "L2Pyr_" +:+ k.
Proof.
  intros H. apply elem_of_list_to_map_2 in H.
  repeat (apply elem_of_cons in H as [H|H]; [inversion H; reflexivity|]).
  inversion H.
Qed.

Lemma L5_skeleton_name k s0 :
  L5Built.skeleton_dends !! k = Some s0 -> sec_name s0 = "L5Pyr_" +:+ k.
Proof.
  intros H. apply elem_of_list_to_map_2 in H.
  repeat (apply elem_of_cons in H as [H|H]; [inversion H; reflexivity|]).
  inversion H.
Qed.

Lemma gbar_ar_dend_fields (c : Cell) key s :
  sec_name (L5Pyr.gbar_ar_dend c key s) = sec_name s /\
  sec_diam (L5Pyr.gbar_ar_dend c key s) = sec_diam s /\
  sec_Ra (L5Pyr.gbar_ar_dend c key s) = sec_Ra s /\
  sec_cm (L5Pyr.gbar_ar_dend c key s) = sec_cm s.
Proof. repeat split. Qed.

Lemma L2_biophys_dend_fields p_all s :
  sec_name (L2Pyr.biophys_dend p_all s) = sec_name s /\
  sec_diam (L2Pyr.biophys_dend p_all s) = sec_diam s /\
  sec_Ra (L2Pyr.biophys_dend p_all s) = sec_Ra s /\
  sec_cm (L2Pyr.biophys_dend p_all s) = sec_cm s.
Proof. repeat split. Qed.

Lemma L5_biophys_dend_fields p_all s :
  sec_name (L5Pyr.biophys_dend p_all s) = sec_name s /\
  sec_diam (L5Pyr.biophys_dend p_all s) = sec_diam s /\
  sec_Ra (L5Pyr.biophys_dend p_all s) = sec_Ra s /\
  sec_cm (L5Pyr.biophys_dend p_all s) = sec_cm s.
Proof. repeat split. Qed.

(** X13.  A dendrite of a built cell is named [<name>_<key>]; its
    diameter is the resolved one and its axial resistivity and membrane
    capacitance are the parameters [<name>_dend_Ra] and [<name>_dend_cm]
    shared by all dendrites: none of the diameters [geom] writes first
    is left in the built cell. *)
Theorem X13_built_dendrite_properties p_all g ps c key s :
  built_by p_all g ps c ->
  dends c !! key = Some s ->
  sec_name s = name c +:+ "_" +:+ key /\
  sec_Ra s = p_all (name c +:+ "_dend_Ra") /\
  sec_cm s = p_all (name c +:+ "_dend_cm") /\
  exists p, (key, p) ∈ Pyr._get_dend_props p_all c /\
    sec_diam s = dp_diam p.
Proof.
  intros Hb Hs. apply built_by_cases in Hb as [-> | ->].
  - rewrite L2_dend_props_eq, L2_built_name.
    apply L2_built_dend in Hs as (p & s0 & Hin & Hs0 & ->).
    destruct (L2_biophys_dend_fields p_all (apply_props p s0))
      as (-> & -> & -> & ->).
    destruct (apply_props_fields p s0) as (_ & -> & -> & -> & -> & _).
    destruct (L2_props_shared _ _ _ Hin) as [-> ->].
    rewrite (L2_skeleton_name _ _ Hs0).
    repeat split. exists p. split; [exact Hin|reflexivity].
  - rewrite L5_dend_props_eq, L5_built_name.
    apply L5_built_dend in Hs as (p & s0 & Hin & Hs0 & ->).
    destruct (gbar_ar_dend_fields (L5Built.uniform p_all g ps) key
                (L5Pyr.biophys_dend p_all (apply_props p s0)))
      as (-> & -> & -> & ->).
    destruct (L5_biophys_dend_fields p_all (apply_props p s0))
      as (-> & -> & -> & ->).
    destruct (apply_props_fields p s0) as (_ & -> & -> & -> & -> & _).
    destruct (L5_props_shared _ _ _ Hin) as [-> ->].
    rewrite (L5_skeleton_name _ _ Hs0).
    repeat split. exists p. split; [exact Hin|reflexivity].
Qed.

(** The oblique branch of an [L2Pyr] cell: [geom] first gives it the
    diameter 3.91, the built cell has the 80 of the parameters. *)
Lemma X13_built_dendrite_properties_witness :
  exists c s,
    built_by example_params 0 (PNum 0) c /\
    dends c !! "apical_oblique" = Some s /\
    sec_name s = "L2Pyr_apical_oblique" /\ sec_Ra s = 80%Q.
Proof.
  assert (Hb : built_by example_params 0 (PNum 0)
                 (L2Built.built example_params 0 (PNum 0)))
    by (exists example_shape; left; apply L2_init_eq).
  assert (Hdom := L2_equipped_dom example_params 0 (PNum 0)).
  rewrite L2_skeleton_dom, <- L2_built_dends in Hdom.
  destruct (is_Some_dom _ _ "apical_oblique" Hdom ltac:(set_solver))
    as [s Hs].
  exists (L2Built.built example_params 0 (PNum 0)), s.
  split; [exact Hb|]. split; [exact Hs|].
  destruct (X13_built_dendrite_properties example_params 0 (PNum 0) _
              "apical_oblique" s Hb Hs) as (Hn & HRa & _).
  rewrite Hn, HRa, L2_built_name. split; reflexivity.
Defined.

Lemma L2_built_state p_all g ps :
  gid (L2Built.built p_all g ps) = g /\
  pos (L2Built.built p_all g ps) = ps /\
  celltype (L2Built.built p_all g ps) = "L2_pyramidal" /\
  all_conns (L2Built.built p_all g ps) = [] /\
  list_dend (L2Built.built p_all g ps)
  = ["apical_trunk"; "apical_oblique"; "apical_1"; "apical_tuft";
     "basal_1"; "basal_2"; "basal_3"] /\
  sect_loc (L2Built.built p_all g ps)
  = <["distal" := ["apicaltuft"]]>
      (<["proximal" := ["apicaloblique"; "basal2"; "basal3"]]> ∅).
Proof. repeat split. Qed.

Lemma L5_built_state p_all g ps :
  gid (L5Built.built p_all g ps) = g /\
  pos (L5Built.built p_all g ps) = ps /\
  celltype (L5Built.built p_all g ps) = "L5Pyr" /\
  all_conns (L5Built.built p_all g ps) = [] /\
  list_dend (L5Built.built p_all g ps)
  = ["apical_trunk"; "apical_oblique"; "apical_1"; "apical_2";
     "apical_tuft"; "basal_1"; "basal_2"; "basal_3"] /\
  sect_loc (L5Built.built p_all g ps)
  = <["distal" := ["apicaltuft"]]>
      (<["proximal" := ["apicaloblique"; "basal2"; "basal3"]]> ∅).
Proof. repeat split. Qed.

Lemma sect_loc_keys_registered l5 (props : string -> SynProps) where_ locs loc r :
  (<["distal" := ["apicaltuft"]]>
     (<["proximal" := ["apicaloblique"; "basal2"; "basal3"]]> ∅)
   : gmap string (list string)) !! where_ = Some locs ->
  loc ∈ locs -> r ∈ ["ampa"; "nmda"] ->
  is_Some (registry l5 props !! (loc +:+ "_" +:+ r)).
Proof.
  intros Hw Hloc Hr.
  apply lookup_insert_Some in Hw as [[_ <-]|[_ Hw]].
  - apply elem_of_cons in Hloc as [->|Hloc]; [|inversion Hloc].
    repeat (apply elem_of_cons in Hr as [->|Hr]);
      [| |inversion Hr]; destruct l5; vm_compute; eauto.
  - apply lookup_insert_Some in Hw as [[_ <-]|[_ Hw]];
      [|rewrite lookup_empty in Hw; discriminate].
    repeat (apply elem_of_cons in Hloc as [->|Hloc]);
      [| | |inversion Hloc];
      (repeat (apply elem_of_cons in Hr as [->|Hr]);
       [| |inversion Hr]; destruct l5; vm_compute; eauto).
Qed.

(** X14.  A cell fresh from its constructor keeps the gid and the
    position it was given, is of type [L2_pyramidal] or [L5Pyr], and has
    no connection in any of its lists.  Its table of locations names the
    proximal sites [apicaloblique], [basal2], [basal3] and the distal
    site [apicaltuft], and for each of these sites and each of the
    receptors [ampa] and [nmda] the synapse [<site>_<receptor>] is in the
    registry. *)
Theorem X14_built_cell_ready p_all shape3d g ps :
  (exists c, L2Pyr.__init__ p_all shape3d g ps = Ok c /\
     gid c = g /\ pos c = ps /\ name c = "L2Pyr" /\
     celltype c = "L2_pyramidal" /\ all_conns c = [] /\
     sect_loc c !! "proximal" = Some ["apicaloblique"; "basal2"; "basal3"] /\
     sect_loc c !! "distal" = Some ["apicaltuft"] /\
     (forall where_ locs loc r,
        sect_loc c !! where_ = Some locs -> loc ∈ locs ->
        r ∈ ["ampa"; "nmda"] ->
        is_Some (synapses c !! (loc +:+ "_" +:+ r)))) /\
  (exists c, L5Pyr.__init__ p_all shape3d g ps = Ok c /\
     gid c = g /\ pos c = ps /\ name c = "L5Pyr" /\
     celltype c = "L5Pyr" /\ all_conns c = [] /\
     sect_loc c !! "proximal" = Some ["apicaloblique"; "basal2"; "basal3"] /\
     sect_loc c !! "distal" = Some ["apicaltuft"] /\
     (forall where_ locs loc r,
        sect_loc c !! where_ = Some locs -> loc ∈ locs ->
        r ∈ ["ampa"; "nmda"] ->
        is_Some (synapses c !! (loc +:+ "_" +:+ r)))).
Proof.
  split.
  - exists (L2Built.built p_all g ps). split; [apply L2_init_eq|].
    destruct (L2_built_state p_all g ps) as (-> & -> & -> & -> & _ & ->).
    rewrite L2_built_name, L2_built_synapses.
    do 5 (split; [reflexivity|]).
    split; [rewrite lookup_insert_ne by discriminate; apply lookup_insert_eq|].
    split; [apply lookup_insert_eq|].
    apply sect_loc_keys_registered.
  - exists (L5Built.built p_all g ps). split; [apply L5_init_eq|].
    destruct (L5_built_state p_all g ps) as (-> & -> & -> & -> & _ & ->).
    rewrite L5_built_name, L5_built_synapses.
    do 5 (split; [reflexivity|]).
    split; [rewrite lookup_insert_ne by discriminate; apply lookup_insert_eq|].
    split; [apply lookup_insert_eq|].
    apply sect_loc_keys_registered.
Qed.


(** ** [geom] on any cell *)

Lemma seq_get_short {A} (l : list A) (i : Z) :
  0 <= i -> (length l <= Z.to_nat i)%nat -> seq_get l i = Raise IndexError.
Proof.
  intros Hi Hlen. unfold seq_get.
  destruct (i <? 0) eqn:E; [apply Z.ltb_lt in E; lia|]. rewrite E.
  rewrite (proj2 (lookup_ge_None l (Z.to_nat i))) by lia. reflexivity.
Qed.

Lemma seq_get_in_range {A} (l : list A) (i : Z) :
  0 <= i -> (Z.to_nat i < length l)%nat -> exists x, seq_get l i = Ok x.
Proof.
  intros Hi Hlen. unfold seq_get.
  destruct (i <? 0) eqn:E; [apply Z.ltb_lt in E; lia|]. rewrite E.
  destruct (lookup_lt_is_Some_2 l (Z.to_nat i) Hlen) as [x ->]. eauto.
Qed.

Lemma seq_get_cases {A} (l : list A) (i : Z) :
  (exists x, seq_get l i = Ok x) \/ seq_get l i = Raise IndexError.
Proof.
  unfold seq_get. cbv zeta. destruct (_ <? 0); [right; reflexivity|].
  destruct (l !! _); [left; eauto|right; reflexivity].
Qed.

Lemma set_list_dend_short {B} i f (c0 c : Cell) (k : Cell -> res B) :
  0 <= i -> list_dend c = list_dend c0 ->
  (length (list_dend c0) <= Z.to_nat i)%nat ->
  (Pyr.set_list_dend i f c ≫= k) = Raise IndexError.
Proof.
  intros Hi Hc Hlen. unfold Pyr.set_list_dend. rewrite <- Hc in Hlen.
  rewrite (seq_get_short _ _ Hi Hlen). reflexivity.
Qed.

Lemma set_list_dend_in_range {B} i f (c0 c : Cell) (k : Cell -> res B)
    (P : res B -> Prop) :
  0 <= i -> list_dend c = list_dend c0 ->
  (Z.to_nat i < length (list_dend c0))%nat ->
  (forall c', list_dend c' = list_dend c0 -> P (k c')) ->
  P (Pyr.set_list_dend i f c ≫= k).
Proof.
  intros Hi Hc Hlen Hk. unfold Pyr.set_list_dend. rewrite <- Hc in Hlen.
  destruct (seq_get_in_range _ _ Hi Hlen) as [key ->].
  rewrite !bind_Ok. apply Hk. exact Hc.
Qed.

(** One assignment through the list either fails with [IndexError] or
    goes on. *)
Lemma set_list_dend_any {B} i f (c : Cell) (k : Cell -> res B)
    (P : res B -> Prop) :
  P (Raise IndexError) -> (forall c', P (k c')) ->
  P (Pyr.set_list_dend i f c ≫= k).
Proof.
  intros Hr Hk. unfold Pyr.set_list_dend.
  destruct (seq_get_cases (list_dend c) i) as [[key ->]| ->].
  - rewrite !bind_Ok. apply Hk.
  - exact Hr.
Qed.

Lemma set_dend_props_no_index_error props (c : Cell) :
  Pyr.set_dend_props props c <> Raise IndexError.
Proof.
  unfold Pyr.set_dend_props. rewrite set_dend_props_loop_first_missing.
  destruct (List.find _ props) as [kp|]; [discriminate|].
  rewrite bind_Ok. discriminate.
Qed.

Lemma set_dend_props_raises props (c : Cell) e :
  Pyr.set_dend_props props c = Raise e ->
  exists k, k ∈ map fst props /\ dends c !! k = None /\ e = KeyError k.
Proof.
  unfold Pyr.set_dend_props. rewrite set_dend_props_loop_first_missing.
  destruct (List.find _ props) as [kp|] eqn:E.
  - intros H. injection H as <-. apply find_Some_elem in E as [Hin Hf].
    exists (fst kp). split; [apply list_elem_of_fmap; eauto|].
    split; [apply dict_has_false, Hf|reflexivity].
  - rewrite bind_Ok. discriminate.
Qed.

Lemma list_dend_with_soma s (c : Cell) : list_dend (with_soma s c) = list_dend c.
Proof. reflexivity. Qed.

(** One assignment [dend[i].L = v] or [dend[i].diam = v] with the list
    of [c0] long enough. *)
Ltac geom_in_range c0 :=
  apply (set_list_dend_in_range _ _ c0);
  [lia
  |rewrite ?list_dend_with_soma; first [reflexivity | assumption]
  |cbn; lia
  |let c' := fresh "c" in let H := fresh "H" in intros c' H].

(** The same assignment when the list may be too short. *)
Ltac geom_any c0 :=
  lazymatch goal with
  | |- (Pyr.set_list_dend ?i _ _ ≫= _) = _ =>
      destruct (le_lt_dec (length (list_dend c0)) (Z.to_nat i));
      [apply (set_list_dend_short _ _ c0);
       [lia
       |rewrite ?list_dend_with_soma; first [reflexivity | assumption]
       |assumption]
      |geom_in_range c0]
  end.

(** X15.  [geom] writes the lengths and diameters through
    [self.list_dend] by position: [L2Pyr.geom] raises [IndexError] exactly
    when the list has fewer than 7 dendrites, [L5Pyr.geom] exactly when it
    has fewer than 8, whatever [p_dend] holds.  So the geometry of the
    layer-5 cell cannot be put on a tree of 7 dendrites.  Any other
    failure of [geom] is the [KeyError] of [set_dend_props], for a key of
    [p_dend]. *)
Theorem X15_geom_index_error p_dend (c : Cell) :
  (L2Pyr.geom p_dend c = Raise IndexError <-> (length (list_dend c) < 7)%nat) /\
  (L5Pyr.geom p_dend c = Raise IndexError <-> (length (list_dend c) < 8)%nat) /\
  (forall e, L2Pyr.geom p_dend c = Raise e ->
     e = IndexError \/ exists k, k ∈ map fst p_dend /\ e = KeyError k) /\
  (forall e, L5Pyr.geom p_dend c = Raise e ->
     e = IndexError \/ exists k, k ∈ map fst p_dend /\ e = KeyError k).
Proof.
  split; [split|split; [split|split]].
  - intros H. destruct (le_lt_dec 7 (length (list_dend c))) as [Hge|]; [|assumption].
    exfalso. revert H. unfold L2Pyr.geom. cbv zeta.
    do 14 (geom_in_range c).
    apply set_dend_props_no_index_error.
  - intros Hlt. unfold L2Pyr.geom. cbv zeta.
    do 7 (geom_any c).
    exfalso. cbn in *. lia.
  - intros H. destruct (le_lt_dec 8 (length (list_dend c))) as [Hge|]; [|assumption].
    exfalso. revert H. unfold L5Pyr.geom. cbv zeta.
    do 16 (geom_in_range c).
    apply set_dend_props_no_index_error.
  - intros Hlt. unfold L5Pyr.geom. cbv zeta.
    do 8 (geom_any c).
    exfalso. cbn in *. lia.
  - intros e. unfold L2Pyr.geom. cbv zeta.
    do 14 (apply set_list_dend_any;
           [intros H; injection H as <-; left; reflexivity|intros ?]).
    intros H. apply set_dend_props_raises in H as (k & Hk & _ & ->).
    right. eauto.
  - intros e. unfold L5Pyr.geom. cbv zeta.
    do 16 (apply set_list_dend_any;
           [intros H; injection H as <-; left; reflexivity|intros ?]).
    intros H. apply set_dend_props_raises in H as (k & Hk & _ & ->).
    right. eauto.
Qed.

(** ** [topol] after [create_dends] *)

Lemma bind_ret {A} (m : res A) : (m ≫= fun a => Ok a) = m.
Proof. destruct m; reflexivity. Qed.

Lemma bind_ext {A B} (m : res A) (k1 k2 : A -> res B) :
  (forall a, k1 a = k2 a) -> (m ≫= k1) = (m ≫= k2).
Proof. intros H. destruct m; [apply H|reflexivity]. Qed.

Lemma same_but_dends_refl (c : Cell) : same_but_dends c c.
Proof. unfold same_but_dends. repeat split. Qed.

Lemma same_but_dends_with_dends ds (c c' : Cell) :
  same_but_dends c c' -> same_but_dends c (with_dends ds c').
Proof.
  unfold same_but_dends. autorewrite with cell. cbn [list_dend sect_loc gid pos
    ncfrom_common ncfrom_extgauss ncfrom_extpois with_dends]. tauto.
Qed.

Lemma connect_dend_cases child parent pe (c : Cell) :
  (parent = Soma \/ exists k, parent = Dend k /\ is_Some (dends c !! k)) ->
  Pyr.connect_dend child parent pe 0 c
  = match dends c !! child with
    | Some s =>
        Ok (with_dends (<[child := connect parent pe 0 s]> (dends c)) c)
    | None => Raise (KeyError child)
    end.
Proof.
  intros Hp. unfold Pyr.connect_dend, dict_get.
  destruct (dends c !! child) as [s|]; [|reflexivity].
  rewrite bind_Ok.
  destruct Hp as [->|(k & -> & [sk Hk])]; [reflexivity|].
  rewrite Hk. reflexivity.
Qed.

Lemma find_missing_insert (ds : gmap string Sec) k s s' (l : list string) :
  ds !! k = Some s ->
  List.find (fun d => negb (dict_has (<[k := s']> ds) d)) l
  = List.find (fun d => negb (dict_has ds d)) l.
Proof.
  intros Hk. induction l as [|d l IH]; [reflexivity|].
  cbn [List.find]. rewrite IH.
  assert (dict_has (<[k := s']> ds) d = dict_has ds d) as ->; [|reflexivity].
  unfold dict_has. destruct (decide (k = d)) as [<-|Hne].
  - rewrite lookup_insert_eq, Hk. reflexivity.
  - rewrite lookup_insert_ne by exact Hne. reflexivity.
Qed.

(** The calls of a well-ordered table on any cell. *)
Lemma connect_all_cases (l : list (string * (secref * Q))) :
  forall (seen : list string) (c : Cell),
    NoDup (map fst l) ->
    conn_ordered seen l = true ->
    (forall k, k ∈ seen -> is_Some (dends c !! k)) ->
    match List.find (fun d => negb (dict_has (dends c) d)) (map fst l) with
    | Some d => connect_all l c = Raise (KeyError d)
    | None =>
        exists c', connect_all l c = Ok c' /\ same_but_dends c c' /\
          forall k,
            dends c' !! k
            = match (list_to_map l : gmap string (secref * Q)) !! k with
              | Some pe => connect (fst pe) (snd pe) 0 <$> dends c !! k
              | None => dends c !! k
              end
    end.
Proof.
  induction l as [|[child [parent pe]] l IH]; intros seen c Hnd Hord Hseen.
  - cbn. exists c. split; [reflexivity|]. split; [apply same_but_dends_refl|].
    intros k. rewrite lookup_empty. reflexivity.
  - cbn [map fst] in Hnd. apply NoDup_cons in Hnd as [Hnotin Hnd].
    cbn [conn_ordered] in Hord. apply andb_true_iff in Hord as [Hpar Hord].
    cbn [connect_all map fst List.find].
    rewrite connect_dend_cases.
    2:{ destruct parent as [|k]; [left; reflexivity|].
        right. exists k. split; [reflexivity|].
        apply Hseen. apply bool_decide_eq_true in Hpar. exact Hpar. }
    unfold dict_has at 1.
    destruct (dends c !! child) as [s|] eqn:Es; cbn [negb]; [|reflexivity].
    rewrite bind_Ok.
    specialize (IH (child :: seen)
                  (with_dends (<[child := connect parent pe 0 s]> (dends c)) c)
                  Hnd Hord).
    rewrite dends_with_dends in IH.
    rewrite (find_missing_insert _ _ _ _ _ Es) in IH.
    assert (Hseen' : forall k, k ∈ child :: seen ->
              is_Some (<[child := connect parent pe 0 s]> (dends c) !! k)).
    { intros k Hk. destruct (decide (child = k)) as [<-|Hne].
      - rewrite lookup_insert_eq. eauto.
      - rewrite lookup_insert_ne by exact Hne.
        apply elem_of_cons in Hk as [->|Hk]; [congruence|]. apply Hseen, Hk. }
    specialize (IH Hseen').
    destruct (List.find _ (map fst l)) as [d|]; [exact IH|].
    destruct IH as (c' & Hrun & Hsame & Hlook).
    exists c'. split; [exact Hrun|]. split.
    { unfold same_but_dends in *. autorewrite with cell in Hsame.
      cbn [list_dend sect_loc gid pos ncfrom_common ncfrom_extgauss
           ncfrom_extpois with_dends] in Hsame. exact Hsame. }
    intros k. rewrite Hlook. cbn [list_to_map foldr]. cbn [fst snd uncurry].
    destruct (decide (child = k)) as [<-|Hne].
    + rewrite !lookup_insert_eq.
      rewrite (not_elem_of_list_to_map_1 _ child Hnotin), Es. reflexivity.
    + rewrite !lookup_insert_ne by exact Hne. reflexivity.
Qed.

(** After [create_dends] the list is long enough for every dendrite
    [topol] has found. *)
Lemma list_dend_long (c : Cell) :
  list_dend c = List.filter (dict_has (dends c)) Pyr.list_dend_order ->
  (List.find (fun d => negb (dict_has (dends c) d)) L2_topol_order = None ->
   (7 <= length (list_dend c))%nat) /\
  (List.find (fun d => negb (dict_has (dends c) d)) L5_topol_order = None ->
   (8 <= length (list_dend c))%nat).
Proof.
  intros ->. unfold Pyr.list_dend_order, L2_topol_order, L5_topol_order.
  cbn [List.find List.filter].
  generalize (dict_has (dends c) "apical_trunk"),
    (dict_has (dends c) "apical_oblique"), (dict_has (dends c) "apical_1"),
    (dict_has (dends c) "apical_2"), (dict_has (dends c) "apical_tuft"),
    (dict_has (dends c) "basal_1"), (dict_has (dends c) "basal_2"),
    (dict_has (dends c) "basal_3").
  intros [] [] [] [] [] [] [] []; cbn [negb length];
    split; intros H; first [discriminate H | lia].
Qed.

Lemma list_dend_create_dends props (c : Cell) :
  list_dend (Pyr.create_dends props c)
  = List.filter (dict_has (dends (Pyr.create_dends props c)))
      Pyr.list_dend_order.
Proof. reflexivity. Qed.


Lemma L2_basic_shape_eq shape3d (c : Cell) :
  L2Pyr.basic_shape shape3d c
  = set_list_dends 0 (map (pt3d shape3d) L2_shape_points)
      (with_soma (pt3d shape3d L2_soma_points (soma c)) c).
Proof.
  unfold L2Pyr.basic_shape, L2_shape_points, L2_soma_points. cbv zeta.
  cbn [set_list_dends map].
  repeat (apply bind_ext; intros ?).
  symmetry. apply bind_ret.
Qed.

Lemma L5_basic_shape_eq shape3d (c : Cell) :
  L5Pyr.basic_shape shape3d c
  = set_list_dends 0 (map (pt3d shape3d) L5_shape_points)
      (with_soma (pt3d shape3d L5_soma_points (soma c)) c).
Proof.
  unfold L5Pyr.basic_shape, L5_shape_points, L5_soma_points. cbv zeta.
  cbn [set_list_dends map].
  repeat (apply bind_ext; intros ?).
  symmetry. apply bind_ret.
Qed.

Lemma connect_all_app_bind {B} l (c : Cell) (k : Cell -> res B) child parent pe :
  (connect_all ((child, (parent, pe)) :: l) c ≫= k)
  = (Pyr.connect_dend child parent pe 0 c ≫= fun c => connect_all l c ≫= k).
Proof.
  cbn [connect_all]. destruct (Pyr.connect_dend _ _ _ _ _); reflexivity.
Qed.

Lemma L2_topol_eq shape3d (c : Cell) :
  L2Pyr.topol shape3d c
  = (connect_all L2_connections c ≫= L2Pyr.basic_shape shape3d).
Proof.
  unfold L2Pyr.topol, L2_connections.
  repeat (rewrite connect_all_app_bind; apply bind_ext; intros ?).
  reflexivity.
Qed.

Lemma L5_topol_eq shape3d (c : Cell) :
  L5Pyr.topol shape3d c
  = (connect_all L5_connections c ≫= L5Pyr.basic_shape shape3d).
Proof.
  unfold L5Pyr.topol, L5_connections.
  repeat (rewrite connect_all_app_bind; apply bind_ext; intros ?).
  reflexivity.
Qed.

Lemma seq_get_of_nat {A} (l : list A) i x :
  l !! i = Some x -> seq_get l (Z.of_nat i) = Ok x.
Proof.
  intros H. unfold seq_get. cbv zeta.
  destruct (Z.of_nat i <? 0) eqn:E; [apply Z.ltb_lt in E; lia|]. rewrite E.
  rewrite Nat2Z.id, H. reflexivity.
Qed.

Lemma set_list_dend_at i f key (c : Cell) :
  list_dend c !! i = Some key ->
  Pyr.set_list_dend (Z.of_nat i) f c
  = Ok (with_dends (alter f key (dends c)) c).
Proof.
  intros H. unfold Pyr.set_list_dend.
  rewrite (seq_get_of_nat _ _ _ H). reflexivity.
Qed.

Lemma list_dend_with_dends ds (c : Cell) :
  list_dend (with_dends ds c) = list_dend c.
Proof. reflexivity. Qed.

Lemma same_but_dends_with_dends_l ds (c c' : Cell) :
  same_but_dends (with_dends ds c) c' -> same_but_dends c c'.
Proof.
  unfold same_but_dends. autorewrite with cell.
  cbn [list_dend sect_loc gid pos ncfrom_common ncfrom_extgauss
       ncfrom_extpois with_dends]. tauto.
Qed.

(** Assignments through a list without repetitions that is long enough:
    each entry gets its function, every other dendrite is left alone. *)
Lemma set_list_dends_ok (fs : list (Sec -> Sec)) :
  forall i (c : Cell),
    (i + length fs <= length (list_dend c))%nat -> NoDup (list_dend c) ->
    exists c', set_list_dends i fs c = Ok c' /\ same_but_dends c c' /\
      (forall j f key, fs !! j = Some f ->
         list_dend c !! (i + j)%nat = Some key ->
         dends c' !! key = f <$> dends c !! key) /\
      (forall k, (forall j, (j < length fs)%nat ->
                    list_dend c !! (i + j)%nat <> Some k) ->
         dends c' !! k = dends c !! k).
Proof.
  induction fs as [|f fs IH]; intros i c Hlen Hnd.
  - exists c. split; [reflexivity|]. split; [apply same_but_dends_refl|].
    split; [intros j f key H; inversion H|]. reflexivity.
  - cbn [length] in Hlen.
    destruct (lookup_lt_is_Some_2 (list_dend c) i ltac:(lia)) as [key Hkey].
    cbn [set_list_dends]. rewrite (set_list_dend_at _ _ _ _ Hkey), bind_Ok.
    destruct (IH (S i) (with_dends (alter f key (dends c)) c))
      as (c' & Hrun & Hsame & HA & HB).
    { rewrite list_dend_with_dends. lia. }
    { rewrite list_dend_with_dends. exact Hnd. }
    rewrite list_dend_with_dends in HA, HB.
    rewrite dends_with_dends in HA, HB.
    exists c'. split; [exact Hrun|].
    split; [exact (same_but_dends_with_dends_l _ _ _ Hsame)|]. split.
    + intros [|j] g key' Hg Hk.
      * cbn in Hg. injection Hg as <-.
        rewrite Nat.add_0_r, Hkey in Hk. injection Hk as <-.
        rewrite HB; [apply lookup_alter_eq|].
        intros j Hj Hk.
        pose proof (NoDup_lookup _ _ _ _ Hnd Hkey Hk). lia.
      * cbn in Hg. rewrite Nat.add_succ_r in Hk.
        rewrite (HA j g key' Hg Hk).
        rewrite lookup_alter_ne; [reflexivity|].
        intros <-. pose proof (NoDup_lookup _ _ _ _ Hnd Hkey Hk). lia.
    + intros k Hk. rewrite HB.
      * apply lookup_alter_ne. intros <-.
        apply (Hk 0%nat); [cbn; lia|]. rewrite Nat.add_0_r. exact Hkey.
      * intros j Hj. replace (S i + j)%nat with (i + S j)%nat by lia.
        apply Hk. cbn. lia.
Qed.

(** The same, read off dendrite by dendrite. *)
Lemma set_list_dends_key (fs : list (Sec -> Sec)) (c c' : Cell) k :
  (forall j f key, fs !! j = Some f -> list_dend c !! j = Some key ->
     dends c' !! key = f <$> dends c !! key) ->
  (forall k, (forall j, (j < length fs)%nat -> list_dend c !! j <> Some k) ->
     dends c' !! k = dends c !! k) ->
  (exists i f, fs !! i = Some f /\ list_dend c !! i = Some k /\
     dends c' !! k = f <$> dends c !! k) \/
  ((forall i, list_dend c !! i = Some k -> (length fs <= i)%nat) /\
   dends c' !! k = dends c !! k).
Proof.
  intros HA HB.
  destruct (decide (k ∈ take (length fs) (list_dend c))) as [Hin|Hno'].
  2:{ assert (Hno : ~ exists i, (i < length fs)%nat /\
                               list_dend c !! i = Some k).
      { intros (i & Hi & Hk). apply Hno', elem_of_take. eauto. }
      right. split.
      - intros i Hk. destruct (le_lt_dec (length fs) i) as [|Hlt]; [assumption|].
        exfalso. apply Hno. eauto.
      - apply HB. intros j Hj Hk. apply Hno. eauto. }
  apply elem_of_take in Hin as (i & Hk & Hi).
  left. destruct (lookup_lt_is_Some_2 fs i Hi) as [f Hf].
    exists i, f. split; [exact Hf|]. split; [exact Hk|].
    apply (HA _ _ _ Hf Hk).
Qed.

Lemma same_inside_refl s : same_inside s s.
Proof. unfold same_inside. repeat split. Qed.

Lemma same_inside_connect p e x s : same_inside s (connect p e x s).
Proof. unfold same_inside. repeat split. Qed.

Lemma same_inside_pt3d shape3d pts s s' :
  same_inside s s' -> same_inside s (pt3d shape3d pts s').
Proof. unfold same_inside, pt3d. cbn. tauto. Qed.

Lemma same_but_dends_with_soma_l v (c c' : Cell) :
  same_but_dends (with_soma v c) c' ->
  gid c' = gid c /\ list_dend c' = list_dend c /\ synapses c' = synapses c /\
  sect_loc c' = sect_loc c /\ soma c' = v /\
  ncfrom_common c' = ncfrom_common c /\
  ncfrom_extgauss c' = ncfrom_extgauss c /\
  ncfrom_extpois c' = ncfrom_extpois c.
Proof.
  unfold same_but_dends. autorewrite with cell.
  cbn [list_dend sect_loc gid pos ncfrom_common ncfrom_extgauss
       ncfrom_extpois with_soma]. tauto.
Qed.

(** The calls of [connect] of a well-ordered table followed by the 3-D
    points, on a cell whose list has no repetitions and is long enough
    once the dendrites of the table are there. *)
Lemma topol_cases shape3d (conns : list (string * (secref * Q)))
    soma_pts (pts : list (list (Q * Q * Q * Q))) (c : Cell) :
  NoDup (map fst conns) -> conn_ordered [] conns = true ->
  NoDup (list_dend c) ->
  (List.find (fun d => negb (dict_has (dends c) d)) (map fst conns) = None ->
   (length pts <= length (list_dend c))%nat) ->
  match List.find (fun d => negb (dict_has (dends c) d)) (map fst conns) with
  | Some d =>
      (connect_all conns c ≫= fun c =>
         set_list_dends 0 (map (pt3d shape3d) pts)
           (with_soma (pt3d shape3d soma_pts (soma c)) c))
      = Raise (KeyError d)
  | None =>
      exists c',
        (connect_all conns c ≫= fun c =>
           set_list_dends 0 (map (pt3d shape3d) pts)
             (with_soma (pt3d shape3d soma_pts (soma c)) c))
        = Ok c' /\
        topol_result shape3d conns soma_pts pts c c'
  end.
Proof.
  intros Hnd Hord Hndl Hlen.
  pose proof (connect_all_cases conns [] c Hnd Hord) as H.
  destruct (List.find _ (map fst conns)) as [d|].
  { rewrite H; [reflexivity|]. intros k Hk. inversion Hk. }
  destruct H as (c1 & Hrun & Hsame & Hlook); [intros k Hk; inversion Hk|].
  specialize (Hlen eq_refl).
  assert (Hl1 : list_dend c1 = list_dend c) by apply Hsame.
  destruct (set_list_dends_ok (map (pt3d shape3d) pts) 0
              (with_soma (pt3d shape3d soma_pts (soma c1)) c1))
    as (c' & Hrun' & Hsame' & HA & HB).
  { rewrite list_dend_with_soma, Hl1, length_map. cbn. exact Hlen. }
  { rewrite list_dend_with_soma, Hl1. exact Hndl. }
  rewrite list_dend_with_soma, Hl1 in HA, HB.
  rewrite dends_with_soma in HA, HB.
  cbn [Nat.add] in HA, HB. rewrite length_map in HB.
  apply same_but_dends_with_soma_l in Hsame'
    as (_ & Hl' & Hsyn' & Hloc' & Hsoma' & Hc1 & Hc2 & Hc3).
  destruct Hsame as (_ & _ & _ & _ & _ & _ & Hsyn & Hloc & _ & Hd1 & Hd2 & Hd3).
  exists c'. split; [rewrite Hrun, bind_Ok; exact Hrun'|].
  assert (Hkey : forall k,
            (exists i p, pts !! i = Some p /\ list_dend c !! i = Some k /\
               dends c' !! k = pt3d shape3d p <$> dends c1 !! k) \/
            ((forall i, list_dend c !! i = Some k -> (length pts <= i)%nat) /\
             dends c' !! k = dends c1 !! k)).
  { intros k.
    destruct (set_list_dends_key (map (pt3d shape3d) pts)
                (with_dends (dends c1) (with_list_dend (list_dend c) c1)) c' k)
      as [(i & f & Hf & Hk & Hv)|[Hk Hv]].
    - exact HA.
    - rewrite length_map. exact HB.
    - left. rewrite list_lookup_fmap in Hf.
      destruct (pts !! i) as [p|] eqn:Ep; [|discriminate].
      injection Hf as <-. exists i, p. auto.
    - right. rewrite length_map in Hk. auto. }
  unfold topol_result.
  split; [congruence|]. split; [exact Hlen|]. split.
  { apply set_eq. intros k. rewrite !elem_of_dom.
    assert (E : is_Some (dends c' !! k) <-> is_Some (dends c1 !! k)).
    { destruct (Hkey k) as [(i & p & _ & _ & ->)|[_ ->]]; [|reflexivity].
      apply fmap_is_Some. }
    rewrite E, Hlook.
    destruct (list_to_map conns !! k); [|reflexivity]. apply fmap_is_Some. }
  split; [congruence|]. split; [congruence|].
  split; [unfold all_conns; congruence|].
  split; [rewrite Hsoma'; reflexivity|]. split; [rewrite Hsoma'; reflexivity|].
  intros k s' Hs'.
  assert (H1 : exists s1, dends c1 !! k = Some s1 /\
             (s' = s1 \/ exists p, s' = pt3d shape3d p s1)).
  { destruct (Hkey k) as [(i & p & _ & _ & Hv)|[_ Hv]]; rewrite Hv in Hs'.
    - apply fmap_Some in Hs' as (s1 & Hs1 & ->). eauto.
    - eauto. }
  destruct H1 as (s1 & Hs1 & Hs's1).
  assert (H0 : exists s, dends c !! k = Some s /\ same_inside s s1 /\
             sec_L s1 = sec_L s /\ sec_diam s1 = sec_diam s /\
             sec_parent s1
             = match (list_to_map conns : gmap string (secref * Q)) !! k with
               | Some pe => Some {| att_parent := fst pe;
                                    att_parent_end := snd pe;
                                    att_child_start := 0 |}
               | None => sec_parent s
               end).
  { rewrite Hlook in Hs1. destruct (list_to_map conns !! k) as [pe|].
    - apply fmap_Some in Hs1 as (s & Hs & ->). exists s.
      split; [exact Hs|]. split; [apply same_inside_connect|].
      repeat split.
    - exists s1. split; [exact Hs1|]. split; [apply same_inside_refl|].
      repeat split. }
  destruct H0 as (s & Hs & Hin & HL & HD & Hpar).
  exists s. split; [exact Hs|]. split.
  { destruct Hs's1 as [->|[p ->]]; [exact Hin|].
    apply same_inside_pt3d, Hin. }
  split.
  { destruct Hs's1 as [->|[p ->]]; exact Hpar. }
  destruct (Hkey k) as [(i & p & Hp & Hk & Hv)|[Hk Hv]];
    rewrite Hv, Hs1 in Hs'; cbn in Hs'; injection Hs' as <-.
  - split.
    + intros i' p' Hk' Hp'.
      pose proof (NoDup_lookup _ _ _ _ Hndl Hk Hk') as <-.
      rewrite Hp in Hp'. injection Hp' as <-. split; reflexivity.
    + intros Hfar. apply Hfar in Hk. apply lookup_lt_Some in Hp. lia.
  - split.
    + intros i' p' Hk' Hp'. apply Hk in Hk'.
      apply lookup_lt_Some in Hp'. lia.
    + intros _. split; assumption.
Qed.

Lemma NoDup_list_dend_create_dends props (c : Cell) :
  NoDup (list_dend (Pyr.create_dends props c)).
Proof.
  rewrite list_dend_create_dends. apply NoDup_filter_has.
  apply (bool_decide_unpack _). vm_compute. reflexivity.
Qed.


(** The wiring on a tree that lacks a dendrite, and the 3-D points on a
    list that is too short. *)
Lemma topol_on_small_tree shape3d :
  L5Pyr.topol shape3d cell_without_tuft = Raise (KeyError "apical_2") /\
  L2Pyr.topol shape3d cell_without_tuft = Raise (KeyError "apical_tuft") /\
  L2Pyr.basic_shape shape3d cell_without_tuft = Raise IndexError.
Proof. split; [|split]; vm_compute; reflexivity. Qed.
